(** * pdf-clip: viewport, selection, segment placement and export

    A shallow embedding of the [pdf-clip] tool of the repository
    (src/pdf-clip): the scroll/zoom base widget, the source viewer with its
    rubber-band selection, the target viewer with its segment drags, and the
    export pass of the main window.

    Conventions of the embedding.
    - Python [int] is [Z]; [int(x)] truncates toward zero, [a // b] is
      floor division, [a / b] raises [ZeroDivisionError] on a zero divisor.
    - Python [float] is a rational [Q].  The handlers are embedded with
      exact arithmetic on it, which leaves the rounding of binary floating
      point out.  The zoom step of [wheelEvent], whose scroll offset is the
      truncation of a float, is embedded a second time in [ScrollViewer64]
      with every operation rounded as IEEE 754 binary64 does ([Float64]).
    - A [QPixmap]/[QImage] is represented by its size: nothing below depends
      on pixel contents.
    - A widget is a record of the attributes its handlers read and write; a
      handler is a function from the widget (and the event) to an
      [outcome]: the widget as the handler left it, together with the
      exception it raised, if any.  [update()] only schedules a repaint and
      has no counterpart.
    - The PDF backend (pymupdf) is a small state-and-exception monad over a
      [World] that records which documents are open, the pages of the output
      document and what was saved. *)

From stdpp Require Import base list sorting.
From Stdlib Require Import ZArith QArith Qround Qabs Qminmax Qpower Lia Lqa.
From Stdlib Require String.
Import String.StringSyntax.
Delimit Scope string_scope with string.
From Stdlib Require Import Sorted Permutation.

Open Scope Z_scope.

(** ** Python primitives *)

Module Py.

Inductive exn : Type :=
| ZeroDivisionError
| IndexError
| AssertionError
| AttributeError
| ValueError
| BackendError.

(** What a handler leaves behind: the object after a normal return, or the
    object as it was when the exception escaped. *)
Inductive outcome (A : Type) : Type :=
| Returned (a : A)
| Raised (e : exn) (a : A).
Arguments Returned {A} a.
Arguments Raised {A} e a.

(** A computation that returns a value or raises. *)
Inductive result (A : Type) : Type :=
| Ok (a : A)
| Err (e : exn).
Arguments Ok {A} a.
Arguments Err {A} e.

#[global] Instance result_bind : MBind result :=
  fun A B f m => match m with Ok a => f a | Err e => Err e end.
#[global] Instance result_ret : MRet result := fun A a => Ok a.

Definition state_of {A} (o : outcome A) : A :=
  match o with Returned a => a | Raised _ a => a end.

Definition raised {A} (o : outcome A) : option exn :=
  match o with Returned _ => None | Raised e _ => Some e end.

(** [int(x)] on a float: truncation toward zero. *)
Definition int (x : Q) : Z := Z.quot (Qnum x) (Zpos (Qden x)).

(** [a / b] on numbers: true division. *)
Definition truediv (a b : Q) : result Q :=
  if Qeq_bool b 0 then Err ZeroDivisionError else Ok (a / b)%Q.

(** [l[i]] for a non-negative index. *)
Definition getitem {A} (l : list A) (i : nat) : result A :=
  match l !! i with Some a => Ok a | None => Err IndexError end.

(** [a // b] with a float operand: the floor of the quotient, as a float. *)
Definition floordiv_float (a b : Q) : Q := inject_Z (Qfloor (a / b)).

(** [abs(a) < b] and friends are the ones of [Z]; [a // b] on ints is
    [Z.div], which rounds toward minus infinity as Python does. *)
Definition floordiv (a b : Z) : Z := a / b.

End Py.

(** ** Binary floating point *)

(** The finite values of a Python [float] (IEEE 754 binary64) are the
    rationals [m * 2 ^ e] with [|m| < 2 ^ 53] and [-1074 <= e]; an operation
    returns the value nearest to the exact result, the one with the even [m]
    when two are equally near.  Overflow to an infinity is left out: it
    takes a result of magnitude [2 ^ 1024]. *)
Module Float64.
Import Py.

Definition pow2 (e : Z) : Q := (2 ^ e)%Q.

(** The binary exponent of a number other than zero: the floor of the
    logarithm of its magnitude. *)
Definition ilog2 (x : Q) : Z :=
  let k := Z.log2 (Z.abs (Qnum x)) - Z.log2 (Zpos (Qden x)) in
  if Qle_bool (pow2 k) (Qabs x) then k else k - 1.

(** The nearest integer, the even one of two equally near. *)
Definition nearest_even (x : Q) : Z :=
  let f := Qfloor x in
  match (x - inject_Z f ?= 1 # 2)%Q with
  | Lt => f
  | Gt => f + 1
  | Eq => if Z.even f then f else f + 1
  end.

(** The exponent of the last place of the significand: 53 bits, and the
    fixed exponent of the subnormal numbers at the bottom. *)
Definition exponent (x : Q) : Z := Z.max (ilog2 x - 52) (-1074).

(** The float nearest to a number. *)
Definition round (x : Q) : Q :=
  if Qeq_bool x 0 then 0%Q
  else
    let e := exponent x in
    Qred (inject_Z (nearest_even (x / pow2 e)) * pow2 e).

(** [float(z)], the conversion an [int] operand undergoes. *)
Definition of_int (z : Z) : Q := round (inject_Z z).

Definition mul (a b : Q) : Q := round (a * b).
Definition sub (a b : Q) : Q := round (a - b).
Definition div (a b : Q) : Q := round (a / b).

(** [a / b] on floats. *)
Definition truediv (a b : Q) : result Q :=
  if Qeq_bool b 0 then Err ZeroDivisionError else Ok (div a b).

(** The unit roundoff, and half the smallest subnormal number. *)
Definition u : Q := 1 # 2 ^ 53.
Definition eta : Q := 1 # 2 ^ 1075.

End Float64.

(** ** The Qt value types the handlers use *)

Module Qt.

(** Coordinates of a [QPoint] are C [int]s: arithmetic between points wraps
    at 32 bits. *)
Definition wrap32 (z : Z) : Z := (z + 2 ^ 31) mod 2 ^ 32 - 2 ^ 31.

Record QPoint : Type := mkQPoint { x : Z; y : Z }.

(** [p - q] on points. *)
Definition QPoint_sub (p q : QPoint) : QPoint :=
  mkQPoint (wrap32 (x p - x q)) (wrap32 (y p - y q)).

Definition setX (p : QPoint) (v : Z) : QPoint := mkQPoint v (y p).
Definition setY (p : QPoint) (v : Z) : QPoint := mkQPoint (x p) v.

Record QSize : Type := mkQSize { width : Z; height : Z }.

(** [qRound]: to the nearest integer, halves away from zero. *)
Definition qRound (d : Q) : Z :=
  if Qle_bool 0 d then Py.int (d + (1 # 2)) else Py.int (d - (1 # 2)).

(** [size * factor]: both extents multiplied and rounded. *)
Definition QSize_mul (s : QSize) (c : Q) : QSize :=
  mkQSize (qRound (inject_Z (width s) * c)) (qRound (inject_Z (height s) * c)).

(** [QSize.scaled(to, KeepAspectRatio)]: the largest size of the same
    aspect ratio inside [to]. *)
Definition QSize_scaled_keep (s to : QSize) : QSize :=
  if (width s =? 0) || (height s =? 0) then to
  else
    let rw := Z.quot (height to * width s) (height s) in
    if rw <=? width to then mkQSize rw (height to)
    else mkQSize (width to) (Z.quot (width to * height s) (width s)).

(** [pixmap.scaled(w, h, KeepAspectRatio, SmoothTransformation)], on sizes:
    a null pixmap stays null, an empty request gives a null pixmap, and
    the result is at least one pixel in each direction. *)
Definition QPixmap_scaled (s : QSize) (w h : Z) : QSize :=
  if (width s <=? 0) || (height s <=? 0) then s
  else if (w <=? 0) || (h <=? 0) then mkQSize 0 0
  else
    let r := QSize_scaled_keep s (mkQSize w h) in
    mkQSize (Z.max (width r) 1) (Z.max (height r) 1).

(** [pixmap.copy(x, y, w, h)], on sizes: the part of the pixmap inside the
    rectangle.  An empty rectangle stands for the whole pixmap, and so does
    a rectangle that misses the pixmap: their intersection is the null
    rectangle, which [QImage::copy] takes for the whole image. *)
Definition QPixmap_copy (s : QSize) (x y w h : Z) : QSize :=
  if (width s <=? 0) || (height s <=? 0) then mkQSize 0 0
  else if (w <=? 0) || (h <=? 0) then s
  else
    let iw := Z.min (width s) (x + w) - Z.max 0 x in
    let ih := Z.min (height s) (y + h) - Z.max 0 y in
    if (iw <=? 0) || (ih <=? 0) then s else mkQSize iw ih.

Inductive MouseButton : Type := LeftButton | RightButton | MiddleButton | NoButton.

Definition MouseButton_eqb (a b : MouseButton) : bool :=
  match a, b with
  | LeftButton, LeftButton | RightButton, RightButton
  | MiddleButton, MiddleButton | NoButton, NoButton => true
  | _, _ => false
  end.

(** The set of buttons held down, [event.buttons()]. *)
Record MouseButtons : Type :=
  mkButtons { left_down : bool; right_down : bool; middle_down : bool }.

(** [event.buttons() == Qt.MouseButton.LeftButton] *)
Definition buttons_eq_left (b : MouseButtons) : bool :=
  left_down b && negb (right_down b) && negb (middle_down b).

(** The set of modifier keys held down, [event.modifiers()]. *)
Record KeyboardModifiers : Type :=
  mkModifiers { shift : bool; control : bool; alt : bool; meta : bool }.

(** [event.modifiers() == Qt.KeyboardModifier.ControlModifier] *)
Definition modifiers_eq_control (m : KeyboardModifiers) : bool :=
  control m && negb (shift m) && negb (alt m) && negb (meta m).

(** [event.modifiers() & Qt.KeyboardModifier.ControlModifier] *)
Definition modifiers_has_control (m : KeyboardModifiers) : bool := control m.

Record QMouseEvent : Type := mkMouseEvent {
  pos : QPoint;
  button : MouseButton;
  buttons : MouseButtons;
  modifiers : KeyboardModifiers
}.

Record QWheelEvent : Type := mkWheelEvent {
  angleDelta_y : Z;
  wheel_modifiers : KeyboardModifiers
}.

End Qt.

(** ** viewer/scroll_viewer.py: the scroll/zoom base widget *)

Module ScrollViewer.
Import Py.

Definition PAGE_SPACING : Z := 10.
Definition min_zoom : Q := 1 # 10.
Definition max_zoom : Q := 5 # 1.

(** The attributes of the base class, with the widget geometry
    ([self.width()], [self.height()]) it reads.  [drag_start] holds
    [drag_start_pos] and [drag_start_offset], which exist only after the
    first left press. *)
Record t : Type := mk {
  widget_width : Z;
  widget_height : Z;
  scroll_offset : Z;
  zoom_factor : Q;
  drag_start : option (Qt.QPoint * Z)
}.

(** [__init__] *)
Definition init (w h : Z) : t := mk w h (- PAGE_SPACING) 1 None.

Definition set_scroll_offset (o : Z) (b : t) : t :=
  mk (widget_width b) (widget_height b) o (zoom_factor b) (drag_start b).
Definition set_zoom_factor (z : Q) (b : t) : t :=
  mk (widget_width b) (widget_height b) (scroll_offset b) z (drag_start b).
Definition set_drag_start (d : option (Qt.QPoint * Z)) (b : t) : t :=
  mk (widget_width b) (widget_height b) (scroll_offset b) (zoom_factor b) d.
Definition set_geometry (w h : Z) (b : t) : t :=
  mk w h (scroll_offset b) (zoom_factor b) (drag_start b).

(** The virtual methods a subclass supplies, and the access to the base
    attributes inside the subclass object. *)
Class Viewer (V : Type) : Type := {
  viewer_base : V -> t;
  with_base : t -> V -> V;
  get_content_height : V -> Z;
  on_zoom_changed : V -> V;
  on_scroll_changed : V -> V
}.

(** The hooks rebuild caches of the subclass; they leave the base
    attributes alone. *)
Class ViewerLaws (V : Type) `{Viewer V} : Prop := {
  viewer_base_with_base : forall b v, viewer_base (with_base b v) = b;
  with_base_with_base : forall b b' v, with_base b (with_base b' v) = with_base b v;
  on_zoom_changed_base : forall v, viewer_base (on_zoom_changed v) = viewer_base v;
  on_scroll_changed_base : forall v, viewer_base (on_scroll_changed v) = viewer_base v
}.

Section Methods.
Context {V : Type} `{Viewer V}.

(** [max_offset = max(0, total_height - self.height() // 2)] *)
Definition max_offset (v : V) : Z :=
  let total_height := get_content_height v in
  Z.max 0 (total_height - floordiv (widget_height (viewer_base v)) 2).

(** [min_offset = -self.height() // 2]: the unary minus binds tighter
    than [//], so this is the floor of [-height / 2]. *)
Definition min_offset (v : V) : Z :=
  floordiv (- widget_height (viewer_base v)) 2.

(** [clamp_scroll_offset] *)
Definition clamp_scroll_offset (v : V) : V :=
  with_base
    (set_scroll_offset
       (Z.max (min_offset v) (Z.min (scroll_offset (viewer_base v)) (max_offset v)))
       (viewer_base v))
    v.

(** The zoom factor after one wheel notch, clamped to the zoom range. *)
Definition stepped_zoom (delta : Z) (zoom : Q) : Q :=
  let zoom_step := 11 # 10 in
  let z := if delta >? 0 then (zoom * zoom_step)%Q else (zoom / zoom_step)%Q in
  Qmax min_zoom (Qmin max_zoom z).

(** [wheelEvent] *)
Definition wheelEvent (v : V) (event : Qt.QWheelEvent) : outcome V :=
  if Qt.modifiers_eq_control (Qt.wheel_modifiers event) then
    let delta := Qt.angleDelta_y event in
    let old_zoom := zoom_factor (viewer_base v) in
    let old_scroll_offset := scroll_offset (viewer_base v) in
    let center_y := floordiv (widget_height (viewer_base v)) 2 in
    let content_y_before := center_y + old_scroll_offset in
    let v1 := with_base (set_zoom_factor (stepped_zoom delta old_zoom) (viewer_base v)) v in
    match truediv (zoom_factor (viewer_base v1)) old_zoom with
    | Err e => Raised e v1
    | Ok scale_ratio =>
        let content_y_after := (inject_Z content_y_before * scale_ratio)%Q in
        let v2 :=
          with_base
            (set_scroll_offset (int (content_y_after - inject_Z center_y)) (viewer_base v1))
            v1 in
        Returned (on_zoom_changed (clamp_scroll_offset v2))
    end
  else
    let delta := Qt.angleDelta_y event in
    let v1 :=
      with_base
        (set_scroll_offset (scroll_offset (viewer_base v) - delta) (viewer_base v)) v in
    Returned (on_scroll_changed (clamp_scroll_offset v1)).

(** [mousePressEvent] *)
Definition mousePressEvent (v : V) (event : Qt.QMouseEvent) : V :=
  if Qt.MouseButton_eqb (Qt.button event) Qt.LeftButton then
    with_base
      (set_drag_start (Some (Qt.pos event, scroll_offset (viewer_base v))) (viewer_base v))
      v
  else v.

(** [mouseMoveEvent] *)
Definition mouseMoveEvent (v : V) (event : Qt.QMouseEvent) : V :=
  match drag_start (viewer_base v) with
  | Some (drag_start_pos, drag_start_offset) =>
      if Qt.buttons_eq_left (Qt.buttons event) then
        let delta_y := Qt.y (Qt.pos event) - Qt.y drag_start_pos in
        let v1 :=
          with_base (set_scroll_offset (drag_start_offset - delta_y) (viewer_base v)) v in
        on_scroll_changed (clamp_scroll_offset v1)
      else v
  | None => v
  end.

End Methods.

End ScrollViewer.

(** *** The zoom step in binary floating point *)

(** [wheelEvent] once more, on the same widget record, with the float
    literals and operations of the source rounded to binary64.  [1.1] and
    [0.1] are not binary fractions; [5.0] is. *)
Module ScrollViewer64.
Import Py.
Import ScrollViewer.

Definition min_zoom : Q := Float64.round (1 # 10).
Definition max_zoom : Q := 5 # 1.

Section Methods.
Context {V : Type} `{Viewer V}.

(** The zoom factor after one wheel notch, clamped to the zoom range. *)
Definition stepped_zoom (delta : Z) (zoom : Q) : Q :=
  let zoom_step := Float64.round (11 # 10) in
  let z := if delta >? 0 then Float64.mul zoom zoom_step else Float64.div zoom zoom_step in
  Qmax min_zoom (Qmin max_zoom z).

(** [wheelEvent] *)
Definition wheelEvent (v : V) (event : Qt.QWheelEvent) : outcome V :=
  if Qt.modifiers_eq_control (Qt.wheel_modifiers event) then
    let delta := Qt.angleDelta_y event in
    let old_zoom := zoom_factor (viewer_base v) in
    let old_scroll_offset := scroll_offset (viewer_base v) in
    let center_y := floordiv (widget_height (viewer_base v)) 2 in
    let content_y_before := center_y + old_scroll_offset in
    let v1 := with_base (set_zoom_factor (stepped_zoom delta old_zoom) (viewer_base v)) v in
    match Float64.truediv (zoom_factor (viewer_base v1)) old_zoom with
    | Err e => Raised e v1
    | Ok scale_ratio =>
        let content_y_after := Float64.mul (Float64.of_int content_y_before) scale_ratio in
        let v2 :=
          with_base
            (set_scroll_offset
               (int (Float64.sub content_y_after (Float64.of_int center_y)))
               (viewer_base v1))
            v1 in
        Returned (on_zoom_changed (clamp_scroll_offset v2))
    end
  else
    let delta := Qt.angleDelta_y event in
    let v1 :=
      with_base
        (set_scroll_offset (scroll_offset (viewer_base v) - delta) (viewer_base v)) v in
    Returned (on_scroll_changed (clamp_scroll_offset v1)).

End Methods.

End ScrollViewer64.

(** ** viewer/image_pages_viewer.py: the source viewer and its selection *)

(** [SelectedRect]: a rectangle as fractions of a page.  The page index comes
    from [enumerate], so it is a natural number. *)
Record SelectedRect : Type := mkSelectedRect {
  page_index : nat;
  x_min : Q;
  x_max : Q;
  y_min : Q;
  y_max : Q
}.

Module ClipSelectViewer.
Import Py.
Import ScrollViewer (PAGE_SPACING, min_zoom, max_zoom).

(** [ImagePagesViewer] and its subclass [ClipSelectViewer] in one record.
    The cache [scaled_pixmaps] is only painted and is left out. *)
Record t : Type := mk {
  base : ScrollViewer.t;
  images : list Qt.QSize;
  selecting : bool;
  select_start_pos : option Qt.QPoint;
  select_end_pos : option Qt.QPoint
}.

(** [__init__] *)
Definition init (w h : Z) : t := mk (ScrollViewer.init w h) [] false None None.

Definition set_base (b : ScrollViewer.t) (v : t) : t :=
  mk b (images v) (selecting v) (select_start_pos v) (select_end_pos v).
Definition set_images_attr (imgs : list Qt.QSize) (v : t) : t :=
  mk (base v) imgs (selecting v) (select_start_pos v) (select_end_pos v).
Definition set_selecting (s : bool) (v : t) : t :=
  mk (base v) (images v) s (select_start_pos v) (select_end_pos v).
Definition set_select_start_pos (p : option Qt.QPoint) (v : t) : t :=
  mk (base v) (images v) (selecting v) p (select_end_pos v).
Definition set_select_end_pos (p : option Qt.QPoint) (v : t) : t :=
  mk (base v) (images v) (selecting v) (select_start_pos v) p.

(** The running total of [get_content_height]. *)
Fixpoint content_height_from (total_height : Z) (zoom : Q) (imgs : list Qt.QSize) : Z :=
  match imgs with
  | [] => total_height
  | pixmap :: rest =>
      let scaled_height := int (inject_Z (Qt.height pixmap) * zoom) in
      content_height_from (total_height + (scaled_height + PAGE_SPACING)) zoom rest
  end.

(** [get_content_height] *)
Definition get_content_height (v : t) : Z :=
  match images v with
  | [] => 0
  | _ => content_height_from 0 (ScrollViewer.zoom_factor (base v)) (images v)
  end.

#[global] Instance viewer : ScrollViewer.Viewer t := {
  ScrollViewer.viewer_base := base;
  ScrollViewer.with_base := set_base;
  ScrollViewer.get_content_height := get_content_height;
  ScrollViewer.on_zoom_changed := fun v => v;
  ScrollViewer.on_scroll_changed := fun v => v
}.

(** [set_images] *)
Definition set_images (v : t) (imgs : list Qt.QSize) : outcome t :=
  let v1 := set_images_attr imgs v in
  let v2 := set_base (ScrollViewer.set_scroll_offset (- PAGE_SPACING) (base v1)) v1 in
  match imgs with
  | first_image :: _ =>
      if ScrollViewer.widget_width (base v2) >? 0 then
        let available_width := ScrollViewer.widget_width (base v2) - 2 * PAGE_SPACING in
        match truediv (inject_Z available_width) (inject_Z (Qt.width first_image)) with
        | Err e => Raised e v2
        | Ok zoom =>
            Returned
              (set_base
                 (ScrollViewer.set_zoom_factor (Qmax min_zoom (Qmin max_zoom zoom)) (base v2))
                 v2)
        end
      else Returned (set_base (ScrollViewer.set_zoom_factor 1 (base v2)) v2)
  | [] => Returned (set_base (ScrollViewer.set_zoom_factor 1 (base v2)) v2)
  end.

(** The loop of [get_page_positions]: one [(y_start, y_end, scaled_width)]
    per page. *)
Fixpoint page_positions_from (y_offset : Q) (zoom : Q) (imgs : list Qt.QSize)
  : list (Q * Q * Q) :=
  match imgs with
  | [] => []
  | pixmap :: rest =>
      let scaled_width := (inject_Z (Qt.width pixmap) * zoom)%Q in
      let scaled_height := (inject_Z (Qt.height pixmap) * zoom)%Q in
      let y_start := y_offset in
      let y_end := (y_offset + scaled_height)%Q in
      (y_start, y_end, scaled_width)
        :: page_positions_from (y_offset + scaled_height + inject_Z PAGE_SPACING) zoom rest
  end.

(** [get_page_positions] *)
Definition get_page_positions (v : t) : list (Q * Q * Q) :=
  page_positions_from
    (inject_Z (- ScrollViewer.scroll_offset (base v)))
    (ScrollViewer.zoom_factor (base v)) (images v).

(** [a < b] on numbers. *)
Definition ltb (a b : Q) : bool := negb (Qle_bool b a).

(** The body of the loop of [process_selection] for one page: nothing for
    a page the rectangle misses, otherwise the emitted rectangle. *)
Definition select_on_page (widget_width : Z)
    (rect_left rect_right rect_top rect_bottom : Z)
    (page_index : nat) (position : Q * Q * Q) : result (option SelectedRect) :=
  let '(y_start, y_end, scaled_width) := position in
  if ltb (inject_Z rect_bottom) y_start || ltb y_end (inject_Z rect_top) then Ok None
  else
    let page_x_start := floordiv_float (inject_Z widget_width - scaled_width) 2 in
    let page_x_end := (page_x_start + scaled_width)%Q in
    if ltb (inject_Z rect_right) page_x_start || ltb page_x_end (inject_Z rect_left)
    then Ok None
    else
      let clipped_left := Qmax (inject_Z rect_left) page_x_start in
      let clipped_right := Qmin (inject_Z rect_right) page_x_end in
      let clipped_top := Qmax (inject_Z rect_top) y_start in
      let clipped_bottom := Qmin (inject_Z rect_bottom) y_end in
      x_min ← truediv (clipped_left - page_x_start) (page_x_end - page_x_start);
      x_max ← truediv (clipped_right - page_x_start) (page_x_end - page_x_start);
      y_min ← truediv (clipped_top - y_start) (y_end - y_start);
      y_max ← truediv (clipped_bottom - y_start) (y_end - y_start);
      Ok (Some (mkSelectedRect page_index x_min x_max y_min y_max)).

(** The loop of [process_selection] over [enumerate(positions)]: the
    signals emitted so far, and the exception that ended the loop, if
    any. *)
Fixpoint select_on_pages (widget_width : Z)
    (rect_left rect_right rect_top rect_bottom : Z)
    (page_index : nat) (positions : list (Q * Q * Q))
  : list SelectedRect * option exn :=
  match positions with
  | [] => ([], None)
  | position :: rest =>
      match select_on_page widget_width rect_left rect_right rect_top rect_bottom
              page_index position with
      | Err e => ([], Some e)
      | Ok emitted =>
          let '(later, e) :=
            select_on_pages widget_width rect_left rect_right rect_top rect_bottom
              (S page_index) rest in
          (match emitted with Some r => r :: later | None => later end, e)
      end
  end.

(** [process_selection]: the [clip_selected] signals it emits, in order. *)
Definition process_selection (v : t) (select_start_pos select_end_pos : Qt.QPoint)
  : list SelectedRect * option exn :=
  let '(x1, y1) := (Qt.x select_start_pos, Qt.y select_start_pos) in
  let '(x2, y2) := (Qt.x select_end_pos, Qt.y select_end_pos) in
  let rect_left := Z.min x1 x2 in
  let rect_right := Z.max x1 x2 in
  let rect_top := Z.min y1 y2 in
  let rect_bottom := Z.max y1 y2 in
  let positions := get_page_positions v in
  select_on_pages (ScrollViewer.widget_width (base v))
    rect_left rect_right rect_top rect_bottom 0%nat positions.

(** [mousePressEvent] *)
Definition mousePressEvent (v : t) (event : Qt.QMouseEvent) : t :=
  if Qt.modifiers_eq_control (Qt.modifiers event)
     && Qt.MouseButton_eqb (Qt.button event) Qt.LeftButton
  then
    set_select_end_pos (Some (Qt.pos event))
      (set_select_start_pos (Some (Qt.pos event)) (set_selecting true v))
  else ScrollViewer.mousePressEvent v event.

(** [mouseMoveEvent] *)
Definition mouseMoveEvent (v : t) (event : Qt.QMouseEvent) : t :=
  if selecting v then set_select_end_pos (Some (Qt.pos event)) v
  else ScrollViewer.mouseMoveEvent v event.

(** [mouseReleaseEvent]: the viewer afterwards, and the [clip_selected]
    signals emitted. *)
Definition mouseReleaseEvent (v : t) (event : Qt.QMouseEvent)
  : outcome t * list SelectedRect :=
  if selecting v && Qt.MouseButton_eqb (Qt.button event) Qt.LeftButton then
    match select_start_pos v, select_end_pos v with
    | Some start_pos, Some end_pos =>
        let v1 := set_selecting false v in
        let delta := Qt.QPoint_sub end_pos start_pos in
        if (Z.abs (Qt.x delta) <? 4) && (Z.abs (Qt.y delta) <? 4) then (Returned v1, [])
        else
          match process_selection v1 start_pos end_pos with
          | (emitted, None) => (Returned v1, emitted)
          | (emitted, Some e) => (Raised e v1, emitted)
          end
    | _, _ => (Raised AssertionError v, [])
    end
  else (Returned v, []).

End ClipSelectViewer.

(** ** viewer/segment_viewer.py: the target viewer and its segments *)

(** [Segment]: the source rectangle, the clipped image (its size) and the
    placement rectangle. *)
Record Segment : Type := mkSegment {
  selected_rect : SelectedRect;
  clipped_pixmap : Qt.QSize;
  target_rect : SelectedRect;
  x_offset : Q;
  y_offset : Q
}.

(** [Segment(selected_rect, clipped_pixmap)]: [__post_init__] sets
    [target_rect] to a copy of [selected_rect], a separate object. *)
Definition new_Segment (selected_rect : SelectedRect) (clipped_pixmap : Qt.QSize) : Segment :=
  mkSegment selected_rect clipped_pixmap selected_rect 0 0.

Definition set_target_rect (r : SelectedRect) (s : Segment) : Segment :=
  mkSegment (selected_rect s) (clipped_pixmap s) r (x_offset s) (y_offset s).

Definition set_page_index (i : nat) (r : SelectedRect) : SelectedRect :=
  mkSelectedRect i (x_min r) (x_max r) (y_min r) (y_max r).

(** The four [+=] at the end of a segment drop. *)
Definition shift_rect (x_offset y_offset : Q) (r : SelectedRect) : SelectedRect :=
  mkSelectedRect (page_index r)
    (x_min r + x_offset) (x_max r + x_offset)
    (y_min r + y_offset) (y_max r + y_offset).

Module SegmentViewer.
Import Py.
Import ScrollViewer (PAGE_SPACING, min_zoom, max_zoom).

(** An entry of [page_rects]: [(page_index, x, y, scaled_width, scaled_height)]. *)
Definition page_rect : Type := (nat * Z * Z * Z * Z)%type.

(** The attributes of the viewer.  [segment_drag_start_pos] and
    [segment_drag_end_pos] do not exist before they are first assigned. *)
Record t : Type := mk {
  base : ScrollViewer.t;
  pages : list Qt.QSize;
  segments : list Segment;
  scaled_segments : list Qt.QSize;
  page_rects : list page_rect;
  hovered_segment_index : option nat;
  dragging_segment : bool;
  segment_drag_start_pos : option Qt.QPoint;
  segment_drag_end_pos : option Qt.QPoint
}.

(** [__init__] *)
Definition init (w h : Z) : t :=
  mk (ScrollViewer.init w h) [] [] [] [] None false None None.

Definition set_base (b : ScrollViewer.t) (v : t) : t :=
  mk b (pages v) (segments v) (scaled_segments v) (page_rects v)
     (hovered_segment_index v) (dragging_segment v)
     (segment_drag_start_pos v) (segment_drag_end_pos v).
Definition set_pages (p : list Qt.QSize) (v : t) : t :=
  mk (base v) p (segments v) (scaled_segments v) (page_rects v)
     (hovered_segment_index v) (dragging_segment v)
     (segment_drag_start_pos v) (segment_drag_end_pos v).
Definition set_segments (s : list Segment) (v : t) : t :=
  mk (base v) (pages v) s (scaled_segments v) (page_rects v)
     (hovered_segment_index v) (dragging_segment v)
     (segment_drag_start_pos v) (segment_drag_end_pos v).
Definition set_scaled_segments (s : list Qt.QSize) (v : t) : t :=
  mk (base v) (pages v) (segments v) s (page_rects v)
     (hovered_segment_index v) (dragging_segment v)
     (segment_drag_start_pos v) (segment_drag_end_pos v).
Definition set_page_rects (r : list page_rect) (v : t) : t :=
  mk (base v) (pages v) (segments v) (scaled_segments v) r
     (hovered_segment_index v) (dragging_segment v)
     (segment_drag_start_pos v) (segment_drag_end_pos v).
Definition set_hovered_segment_index (h : option nat) (v : t) : t :=
  mk (base v) (pages v) (segments v) (scaled_segments v) (page_rects v)
     h (dragging_segment v)
     (segment_drag_start_pos v) (segment_drag_end_pos v).
Definition set_dragging_segment (d : bool) (v : t) : t :=
  mk (base v) (pages v) (segments v) (scaled_segments v) (page_rects v)
     (hovered_segment_index v) d
     (segment_drag_start_pos v) (segment_drag_end_pos v).
Definition set_segment_drag_start_pos (p : option Qt.QPoint) (v : t) : t :=
  mk (base v) (pages v) (segments v) (scaled_segments v) (page_rects v)
     (hovered_segment_index v) (dragging_segment v)
     p (segment_drag_end_pos v).
Definition set_segment_drag_end_pos (p : option Qt.QPoint) (v : t) : t :=
  mk (base v) (pages v) (segments v) (scaled_segments v) (page_rects v)
     (hovered_segment_index v) (dragging_segment v)
     (segment_drag_start_pos v) p.

(** The running total of [get_content_height]. *)
Fixpoint content_height_from (total_height : Z) (zoom : Q) (pgs : list Qt.QSize) : Z :=
  match pgs with
  | [] => total_height
  | page_rect :: rest =>
      let scaled_height := int (inject_Z (Qt.height page_rect) * zoom) in
      content_height_from (total_height + (scaled_height + PAGE_SPACING)) zoom rest
  end.

(** [get_content_height] *)
Definition get_content_height (v : t) : Z :=
  match pages v with
  | [] => 0
  | _ => content_height_from 0 (ScrollViewer.zoom_factor (base v)) (pages v)
  end.

(** [pages_count] *)
Definition pages_count (v : t) : nat := length (pages v).

(** [update_scaled_segments] *)
Definition update_scaled_segments (v : t) : t :=
  let zoom := ScrollViewer.zoom_factor (base v) in
  set_scaled_segments
    (map (fun segment =>
            let img_width := int (inject_Z (Qt.width (clipped_pixmap segment)) * zoom) in
            let img_height := int (inject_Z (Qt.height (clipped_pixmap segment)) * zoom) in
            Qt.QPixmap_scaled (clipped_pixmap segment) img_width img_height)
         (segments v))
    v.

(** The loop of [update_page_rects] over [enumerate(self.pages)]. *)
Fixpoint page_rects_from (widget_width : Z) (zoom : Q)
    (page_index : nat) (y_offset : Z) (pgs : list Qt.QSize) : list page_rect :=
  match pgs with
  | [] => []
  | page_rect :: rest =>
      let scaled_width := int (inject_Z (Qt.width page_rect) * zoom) in
      let scaled_height := int (inject_Z (Qt.height page_rect) * zoom) in
      let x := floordiv (widget_width - scaled_width) 2 in
      (page_index, x, y_offset, scaled_width, scaled_height)
        :: page_rects_from widget_width zoom (S page_index)
             (y_offset + (scaled_height + PAGE_SPACING)) rest
  end.

(** [update_page_rects] *)
Definition update_page_rects (v : t) : t :=
  set_page_rects
    (page_rects_from (ScrollViewer.widget_width (base v))
       (ScrollViewer.zoom_factor (base v)) 0%nat
       (- ScrollViewer.scroll_offset (base v)) (pages v))
    v.

#[global] Instance viewer : ScrollViewer.Viewer t := {
  ScrollViewer.viewer_base := base;
  ScrollViewer.with_base := set_base;
  ScrollViewer.get_content_height := get_content_height;
  ScrollViewer.on_zoom_changed := fun v => update_page_rects (update_scaled_segments v);
  ScrollViewer.on_scroll_changed := update_page_rects
}.

(** [add_page] *)
Definition add_page (v : t) (rect : Qt.QSize) : outcome t :=
  let is_first_page := (length (pages v) =? 0)%nat in
  let v1 := set_pages (pages v ++ [rect]) v in
  if is_first_page && (ScrollViewer.widget_width (base v1) >? 0) then
    let available_width := ScrollViewer.widget_width (base v1) - 2 * PAGE_SPACING in
    match truediv (inject_Z available_width) (inject_Z (Qt.width rect)) with
    | Err e => Raised e v1
    | Ok zoom =>
        let b1 := ScrollViewer.set_zoom_factor (Qmax min_zoom (Qmin max_zoom zoom)) (base v1) in
        let b2 := ScrollViewer.set_scroll_offset (- PAGE_SPACING) b1 in
        Returned (update_page_rects (set_base b2 v1))
    end
  else Returned (update_page_rects v1).

(** [add_segment] *)
Definition add_segment (v : t) (segment : Segment) : t :=
  update_scaled_segments (set_segments (segments v ++ [segment]) v).

(** [clear] *)
Definition clear (v : t) : t :=
  update_scaled_segments (update_page_rects (set_segments [] (set_pages [] v))).

(** The first entry of [page_rects] for a page index. *)
Fixpoint find_page_rect (rects : list page_rect) (page_index : nat) : option page_rect :=
  match rects with
  | [] => None
  | (pi, px, py, pw, ph) :: rest =>
      if (pi =? page_index)%nat then Some (pi, px, py, pw, ph)
      else find_page_rect rest page_index
  end.

(** The test of [get_hovered_segment] for one segment: is the pointer
    inside the drawn image of the segment? *)
Definition segment_hit (v : t) (mouse_pos : Qt.QPoint) (segment_index : nat) : bool :=
  match segments v !! segment_index, scaled_segments v !! segment_index with
  | Some segment, Some scaled_pixmap =>
      match find_page_rect (page_rects v) (page_index (target_rect segment)) with
      | Some (pi, px, py, pw, ph) =>
          let img_x := px + int (x_min (target_rect segment) * inject_Z pw) in
          let img_y := py + int (y_min (target_rect segment) * inject_Z ph) in
          let img_width := Qt.width scaled_pixmap in
          let img_height := Qt.height scaled_pixmap in
          (img_x <=? Qt.x mouse_pos) && (Qt.x mouse_pos <=? img_x + img_width)
          && (img_y <=? Qt.y mouse_pos) && (Qt.y mouse_pos <=? img_y + img_height)
      | None => false
      end
  | _, _ => false
  end.

(** The descending loop of [get_hovered_segment] over the indices below
    [n]. *)
Fixpoint hovered_below (v : t) (mouse_pos : Qt.QPoint) (n : nat) : option nat :=
  match n with
  | O => None
  | S segment_index =>
      if segment_hit v mouse_pos segment_index then Some segment_index
      else hovered_below v mouse_pos segment_index
  end.

(** [get_hovered_segment] *)
Definition get_hovered_segment (v : t) (mouse_pos : Qt.QPoint) : option nat :=
  match pages v, segments v with
  | [], _ | _, [] => None
  | _, _ => hovered_below v mouse_pos (length (segments v))
  end.

(** The axis lock of [get_segment_dragging_offset], on the two recorded
    pointer positions. *)
Definition dragging_offset
    (segment_drag_start_pos segment_drag_end_pos : Qt.QPoint) : Qt.QPoint :=
  let offset := Qt.QPoint_sub segment_drag_end_pos segment_drag_start_pos in
  if Z.abs (Qt.x offset) >? Z.abs (Qt.y offset) then Qt.setY offset 0
  else Qt.setX offset 0.

(** [get_segment_dragging_offset]: it reads the two attributes, which raises
    when one of them does not exist yet. *)
Definition get_segment_dragging_offset (v : t) : result Qt.QPoint :=
  match segment_drag_end_pos v, segment_drag_start_pos v with
  | Some end_pos, Some start_pos => Ok (dragging_offset start_pos end_pos)
  | _, _ => Err AttributeError
  end.

(** The loop of [get_current_page_index]. *)
Fixpoint current_page_index_in (rects : list page_rect) (pos : Qt.QPoint) : option nat :=
  match rects with
  | [] => None
  | (pi, px, py, pw, ph) :: rest =>
      if (0 <=? Qt.x pos - px) && (Qt.x pos - px <=? pw)
         && (0 <=? Qt.y pos - py) && (Qt.y pos - py <=? ph)
      then Some pi
      else current_page_index_in rest pos
  end.

(** [get_current_page_index] *)
Definition get_current_page_index (v : t) (pos : Qt.QPoint) : option nat :=
  current_page_index_in (page_rects v) pos.

(** [mousePressEvent] *)
Definition mousePressEvent (v : t) (event : Qt.QMouseEvent) : t :=
  match hovered_segment_index v with
  | Some _ =>
      if Qt.MouseButton_eqb (Qt.button event) Qt.LeftButton
         && Qt.modifiers_has_control (Qt.modifiers event)
      then
        set_segment_drag_end_pos (Some (Qt.pos event))
          (set_segment_drag_start_pos (Some (Qt.pos event)) (set_dragging_segment true v))
      else ScrollViewer.mousePressEvent v event
  | None => ScrollViewer.mousePressEvent v event
  end.

(** [mouseMoveEvent] *)
Definition mouseMoveEvent (v : t) (event : Qt.QMouseEvent) : t :=
  if dragging_segment v then set_segment_drag_end_pos (Some (Qt.pos event)) v
  else
    let v1 := set_hovered_segment_index (get_hovered_segment v (Qt.pos event)) v in
    ScrollViewer.mouseMoveEvent v1 event.

(** The same-page branch of [mouseReleaseEvent]: the fractional offsets of
    the axis-locked drag. *)
Definition same_page_offsets (v : t) (hovered : nat) (segment : Segment) : result (Q * Q) :=
  scaled ← getitem (scaled_segments v) hovered;
  scaled_factor ← truediv (inject_Z (Qt.width scaled))
                          (inject_Z (Qt.width (clipped_pixmap segment)));
  page_size ← getitem (pages v) (page_index (selected_rect segment));
  let scaled_page_size := Qt.QSize_mul page_size scaled_factor in
  offset ← get_segment_dragging_offset v;
  x_offset ← truediv (inject_Z (Qt.x offset)) (inject_Z (Qt.width scaled_page_size));
  y_offset ← truediv (inject_Z (Qt.y offset)) (inject_Z (Qt.height scaled_page_size));
  Ok (x_offset, y_offset).

(** [mouseReleaseEvent] *)
Definition mouseReleaseEvent (v : t) (event : Qt.QMouseEvent) : outcome t :=
  if dragging_segment v then
    let v1 := set_dragging_segment false v in
    match hovered_segment_index v1 with
    | None => Raised AssertionError v1
    | Some hovered =>
        match get_current_page_index v1 (Qt.pos event) with
        | None => Returned v1
        | Some current_page_index =>
            match segments v1 !! hovered with
            | None => Raised IndexError v1
            | Some segment =>
                let target := target_rect segment in
                if negb (page_index target =? current_page_index)%nat then
                  let target1 := set_page_index current_page_index target in
                  let x_offset := ((1 # 2) - (x_min target1 + x_max target1) / 2)%Q in
                  let y_offset := ((1 # 2) - (y_min target1 + y_max target1) / 2)%Q in
                  Returned
                    (set_segments
                       (<[hovered := set_target_rect (shift_rect x_offset y_offset target1)
                                       segment]> (segments v1))
                       v1)
                else
                  match same_page_offsets v1 hovered segment with
                  | Err e => Raised e v1
                  | Ok (x_offset, y_offset) =>
                      Returned
                        (set_segments
                           (<[hovered := set_target_rect (shift_rect x_offset y_offset target)
                                           segment]> (segments v1))
                           v1)
                  end
            end
        end
    end
  else Returned v.

(** What [paintEvent] hands to the painter: [fillRect], [drawPixmap] and
    [drawRect] calls.  Colours and render hints have no counterpart. *)
Inductive Draw : Type :=
| FillRect (x y w h : Z)
| DrawPixmap (x y : Z) (pixmap : Qt.QSize)
| DrawRect (x y w h : Z).

(** The first loop of [paintEvent]: the background of the pages in view. *)
Fixpoint page_fills (widget_height : Z) (rects : list page_rect) : list Draw :=
  match rects with
  | [] => []
  | (page_index, px, py, pw, ph) :: rest =>
      if (py + ph >? 0) && (py <? widget_height)
      then FillRect px py pw ph :: page_fills widget_height rest
      else page_fills widget_height rest
  end.

(** The second loop of [paintEvent], over [enumerate(self.segments)]: the
    image of every segment whose page has an entry in [page_rects], with the
    index of the segment; the loop ends at the first index without a scaled
    image. *)
Fixpoint segment_draws_from (v : t) (index : nat) (segs : list Segment)
  : list (nat * Z * Z * Qt.QSize) :=
  match segs with
  | [] => []
  | segment :: rest =>
      match scaled_segments v !! index with
      | None => []
      | Some scaled_pixmap =>
          match find_page_rect (page_rects v) (page_index (target_rect segment)) with
          | Some (pi, px, py, pw, ph) =>
              let img_x := px + int (x_min (target_rect segment) * inject_Z pw) in
              let img_y := py + int (y_min (target_rect segment) * inject_Z ph) in
              (index, img_x, img_y, scaled_pixmap) :: segment_draws_from v (S index) rest
          | None => segment_draws_from v (S index) rest
          end
      end
  end.

Definition segment_draws (v : t) : list (nat * Z * Z * Qt.QSize) :=
  segment_draws_from v 0 (segments v).

(** The border of the hovered segment, moved by the axis-locked offset
    while the segment is dragged. *)
Definition hovered_border (v : t) : result (list Draw) :=
  match hovered_segment_index v with
  | None => Ok []
  | Some hovered =>
      segment ← getitem (segments v) hovered;
      match find_page_rect (page_rects v) (page_index (target_rect segment)) with
      | None => Ok []
      | Some (pi, px, py, pw, ph) =>
          let img_x := px + int (x_min (target_rect segment) * inject_Z pw) in
          let img_y := py + int (y_min (target_rect segment) * inject_Z ph) in
          position ← (if dragging_segment v then
                        offset ← get_segment_dragging_offset v;
                        Ok (img_x + Qt.x offset, img_y + Qt.y offset)
                      else Ok (img_x, img_y));
          scaled_pixmap ← getitem (scaled_segments v) hovered;
          Ok [DrawRect (fst position) (snd position)
                (Qt.width scaled_pixmap) (Qt.height scaled_pixmap)]
      end
  end.

(** The last loop of [paintEvent]: the border of every page. *)
Definition page_borders (rects : list page_rect) : list Draw :=
  map (fun r : page_rect => let '(_, px, py, pw, ph) := r in DrawRect px py pw ph) rects.

(** [paintEvent]: the calls made on the painter, in order, or the exception
    that escapes. *)
Definition paintEvent (v : t) : result (list Draw) :=
  match pages v with
  | [] => Ok []
  | _ =>
      let fills := page_fills (ScrollViewer.widget_height (base v)) (page_rects v) in
      let images :=
        map (fun d : nat * Z * Z * Qt.QSize =>
               let '(_, img_x, img_y, scaled_pixmap) := d in
               DrawPixmap img_x img_y scaled_pixmap)
            (segment_draws v) in
      border ← hovered_border v;
      Ok (fills ++ images ++ border ++ page_borders (page_rects v))
  end.

End SegmentViewer.

(** ** The PDF backend (pymupdf), as far as the export pass uses it *)

Module Pdf.
Import Py.

(** [pdf.Rect(x0, y0, x1, y1)] *)
Record Rect : Type := mkRect { x0 : Q; y0 : Q; x1 : Q; y1 : Q }.

(** One [show_pdf_page] call on an output page: where to paint, which
    source page, and the clip on it. *)
Record Instr : Type := mkInstr { dest : Rect; src_page : nat; clip : Rect }.

(** A page of the output document: its size and what was painted on it. *)
Record Page : Type := mkPage { page_width : Q; page_height : Q; contents : list Instr }.

(** The world the export pass acts on.  [source_pages] are the page sizes
    of the document stored at the opened path; [fault_at] is the number of
    the backend call that raises, if any; [calls] counts the backend calls
    made so far. *)
Record World : Type := mkWorld {
  source_pages : list (Q * Q);
  fault_at : option nat;
  calls : nat;
  doc_open : bool;
  new_doc_open : bool;
  new_doc_pages : list Page;
  saved : list (String.string * list Page);
  printed : list exn
}.

Definition initial_world (source_pages : list (Q * Q)) (fault_at : option nat) : World :=
  mkWorld source_pages fault_at 0 false false [] [] [].

(** State and exceptions. *)
Definition M (A : Type) : Type := World -> result A * World.

#[global] Instance M_ret : MRet M := fun A a w => (Ok a, w).
#[global] Instance M_bind : MBind M :=
  fun A B f m w =>
    match m w with
    | (Ok a, w1) => f a w1
    | (Err e, w1) => (Err e, w1)
    end.

Definition raise {A} (e : exn) : M A := fun w => (Err e, w).

(** [try: body except Exception as e: handler e] *)
Definition try_except (body : M unit) (handler : exn -> M unit) : M unit :=
  fun w =>
    match body w with
    | (Ok tt, w1) => (Ok tt, w1)
    | (Err e, w1) => handler e w1
    end.

(** Entering a backend call: it raises when its number is the faulty one. *)
Definition backend_call : M unit :=
  fun w =>
    let w1 := mkWorld (source_pages w) (fault_at w) (S (calls w)) (doc_open w)
                (new_doc_open w) (new_doc_pages w) (saved w) (printed w) in
    if decide (fault_at w = Some (calls w)) then (Err BackendError, w1) else (Ok tt, w1).

Definition modify (f : World -> World) : M unit := fun w => (Ok tt, f w).
Definition gets {A} (f : World -> A) : M A := fun w => (Ok (f w), w).

Definition set_doc_open (b : bool) (w : World) : World :=
  mkWorld (source_pages w) (fault_at w) (calls w) b
    (new_doc_open w) (new_doc_pages w) (saved w) (printed w).
Definition set_new_doc_open (b : bool) (w : World) : World :=
  mkWorld (source_pages w) (fault_at w) (calls w) (doc_open w)
    b (new_doc_pages w) (saved w) (printed w).
Definition set_new_doc_pages (p : list Page) (w : World) : World :=
  mkWorld (source_pages w) (fault_at w) (calls w) (doc_open w)
    (new_doc_open w) p (saved w) (printed w).
Definition add_saved (f : String.string * list Page) (w : World) : World :=
  mkWorld (source_pages w) (fault_at w) (calls w) (doc_open w)
    (new_doc_open w) (new_doc_pages w) (saved w ++ [f]) (printed w).
Definition add_printed (e : exn) (w : World) : World :=
  mkWorld (source_pages w) (fault_at w) (calls w) (doc_open w)
    (new_doc_open w) (new_doc_pages w) (saved w) (printed w ++ [e]).

(** [doc = pdf.open(path)] *)
Definition open_file : M unit := backend_call;; modify (set_doc_open true).

(** [new_doc = pdf.open()] *)
Definition open_new : M unit :=
  backend_call;; modify (fun w => set_new_doc_pages [] (set_new_doc_open true w)).

(** [doc[i]]: the size of the page ([page.rect.width], [page.rect.height]). *)
Definition doc_getitem (i : nat) : M (Q * Q) :=
  backend_call;;
  pgs ← gets source_pages;
  match pgs !! i with Some p => mret p | None => raise IndexError end.

(** [new_doc.new_page(width=w, height=h)]: the new page goes last; the
    result is its position in the output document. *)
Definition new_page (w h : Q) : M nat :=
  backend_call;;
  pgs ← gets new_doc_pages;
  modify (set_new_doc_pages (pgs ++ [mkPage w h []]));;
  mret (length pgs).

(** [page.rect] of an output page. *)
Definition page_rect (page : nat) : M (Q * Q) :=
  pgs ← gets new_doc_pages;
  match pgs !! page with
  | Some p => mret (page_width p, page_height p)
  | None => raise IndexError
  end.

(** [rect.is_empty]: [x0 >= x1 or y0 >= y1]. *)
Definition Rect_is_empty (r : Rect) : bool :=
  Qle_bool (x1 r) (x0 r) || Qle_bool (y1 r) (y0 r).

(** [bool(rect)]: false exactly for the rectangle of four zeros. *)
Definition Rect_bool (r : Rect) : bool :=
  negb (Qeq_bool (x0 r) 0 && Qeq_bool (y0 r) 0 && Qeq_bool (x1 r) 0 && Qeq_bool (y1 r) 0).

(** [a & b]: an empty operand is the result; otherwise the common area. *)
Definition Rect_and (a b : Rect) : Rect :=
  if Rect_is_empty b then b
  else if Rect_is_empty a then a
  else mkRect (Qmax (x0 a) (x0 b)) (Qmax (y0 a) (y0 b))
              (Qmin (x1 a) (x1 b)) (Qmin (y1 a) (y1 b)).

(** The source rectangle of [show_pdf_page]:
    [src_page.rect if not clip else src_page.rect & clip]. *)
Definition source_rect (src_size : Q * Q) (clip : Rect) : Rect :=
  let src_page_rect := mkRect 0 0 (fst src_size) (snd src_size) in
  if Rect_bool clip then Rect_and src_page_rect clip else src_page_rect.

(** [page.show_pdf_page(dest, doc, pno, clip=clip)].  The library rejects
    its arguments before it paints: an empty target rectangle raises
    [ValueError], a source page number outside the document raises
    [IndexError], and a clip that leaves nothing of the source page raises
    [ValueError].  Whatever else can go wrong inside the call (a source page
    without contents, a damaged file) is a failure of the backend call. *)
Definition show_pdf_page (page : nat) (dest : Rect) (pno : nat) (clip : Rect) : M unit :=
  backend_call;;
  (if Rect_is_empty dest then raise ValueError else mret tt);;
  pgs ← gets source_pages;
  src_size ← match pgs !! pno with Some p => mret p | None => raise IndexError end;
  (if Rect_is_empty (source_rect src_size clip) then raise ValueError else mret tt);;
  modify (fun w =>
    set_new_doc_pages
      (alter (fun p => mkPage (page_width p) (page_height p)
                         (contents p ++ [mkInstr dest pno clip]))
             page (new_doc_pages w))
      w).

(** [new_doc.save(path)] *)
Definition save (path : String.string) : M unit :=
  backend_call;;
  pgs ← gets new_doc_pages;
  modify (add_saved (path, pgs)).

(** [new_doc.close()] and [doc.close()] *)
Definition close_new : M unit := backend_call;; modify (set_new_doc_open false).
Definition close_doc : M unit := backend_call;; modify (set_doc_open false).

(** [print(...)] and [traceback.print_exc()] *)
Definition print_error (e : exn) : M unit := modify (add_printed e).

(** [page.get_pixmap(matrix=...)] and [pix.tobytes("ppm")]: backend calls
    whose results are only passed on. *)
Definition get_pixmap : M unit := backend_call.
Definition tobytes : M unit := backend_call.

End Pdf.

(** ** main_window.py: from a selection to a segment, and the export pass *)

Module MainWindow.
Import Py.

Record t : Type := mk {
  viewer_left : ClipSelectViewer.t;
  viewer_right : SegmentViewer.t;
  file_path : option String.string
}.

(** [not path] for an optional string: [None] and the empty string. *)
Definition falsy (path : option String.string) : bool :=
  match path with
  | None => true
  | Some p => String.eqb p String.EmptyString
  end.

(** The loop [for i in range(...): add_page(images[i].size())] of
    [on_clip_selected]. *)
Fixpoint add_pages (imgs : list Qt.QSize) (right : SegmentViewer.t) (indices : list nat)
  : outcome SegmentViewer.t :=
  match indices with
  | [] => Returned right
  | i :: rest =>
      match getitem imgs i with
      | Err e => Raised e right
      | Ok image =>
          match SegmentViewer.add_page right image with
          | Raised e right1 => Raised e right1
          | Returned right1 => add_pages imgs right1 rest
          end
      end
  end.

(** [on_clip_selected], on the images of the left viewer and the right
    viewer. *)
Definition on_clip_selected (imgs : list Qt.QSize) (right : SegmentViewer.t)
    (rect : SelectedRect) : outcome SegmentViewer.t :=
  let first := SegmentViewer.pages_count right in
  match add_pages imgs right (seq first (page_index rect + 1 - first)) with
  | Raised e right1 => Raised e right1
  | Returned right1 =>
      match getitem imgs (page_index rect) with
      | Err e => Raised e right1
      | Ok source_pixmap =>
          let source_width := Qt.width source_pixmap in
          let source_height := Qt.height source_pixmap in
          let x := int (x_min rect * inject_Z source_width) in
          let y := int (y_min rect * inject_Z source_height) in
          let width := int ((x_max rect - x_min rect) * inject_Z source_width) in
          let height := int ((y_max rect - y_min rect) * inject_Z source_height) in
          let clipped := Qt.QPixmap_copy source_pixmap x y width height in
          Returned (SegmentViewer.add_segment right1 (new_Segment rect clipped))
      end
  end.

(** [sorted(l, key=key)]: Python's sort is stable; insertion from the
    right keeps equal keys in their original order. *)
Fixpoint insert_by {A} (key : A -> nat) (a : A) (l : list A) : list A :=
  match l with
  | [] => [a]
  | b :: rest =>
      if (key a <=? key b)%nat then a :: b :: rest else b :: insert_by key a rest
  end.

Definition sorted {A} (l : list A) (key : A -> nat) : list A :=
  foldr (insert_by key) [] l.

(** [get_pdf_rect], on the size of the page. *)
Definition get_pdf_rect (page_size : Q * Q) (rect : SelectedRect) : Pdf.Rect :=
  let '(page_width, page_height) := page_size in
  let x1 := (page_width * x_min rect)%Q in
  let x2 := (page_width * x_max rect)%Q in
  let y1 := (page_height * y_min rect)%Q in
  let y2 := (page_height * y_max rect)%Q in
  Pdf.mkRect x1 y1 x2 y2.

(** The body of the [for] loop of [on_export_file] on one segment: the new
    [(current_page_index, current_page)]. *)
Definition export_segment (segment : Segment) (current : Z * option nat)
  : Pdf.M (Z * option nat) :=
  let '(current_page_index, current_page) := current in
  let target_page_index := page_index (target_rect segment) in
  let page_index := page_index (selected_rect segment) in
  '(current_page_index, current_page) ←
    (if negb (Z.of_nat target_page_index =? current_page_index) then
       source_page ← Pdf.doc_getitem target_page_index;
       page ← Pdf.new_page (fst source_page) (snd source_page);
       mret (Z.of_nat target_page_index, Some page)
     else mret (current_page_index, current_page));
  match current_page with
  | None => Pdf.raise AttributeError
  | Some page =>
      dest_size ← Pdf.page_rect page;
      clip_size ← Pdf.page_rect page;
      Pdf.show_pdf_page page
        (get_pdf_rect dest_size (target_rect segment))
        page_index
        (get_pdf_rect clip_size (selected_rect segment));;
      mret (current_page_index, Some page)
  end.

(** The [for] loop of [on_export_file]. *)
Fixpoint export_segments (segments_sorted : list Segment) (current : Z * option nat)
  : Pdf.M (Z * option nat) :=
  match segments_sorted with
  | [] => mret current
  | segment :: rest =>
      current1 ← export_segment segment current;
      export_segments rest current1
  end.

(** [on_export_file], given the answer of the save dialog. *)
Definition on_export_file (w : t) (dialog_path : String.string) : Pdf.M unit :=
  if falsy (file_path w) then mret tt
  else if falsy (Some dialog_path) then mret tt
  else
    let segments := SegmentViewer.segments (viewer_right w) in
    match segments with
    | [] => mret tt
    | _ =>
        let segments_sorted := sorted segments (fun t => page_index (target_rect t)) in
        Pdf.try_except
          (Pdf.open_file;;
           Pdf.open_new;;
           export_segments segments_sorted (-1, None);;
           Pdf.save dialog_path;;
           Pdf.close_new;;
           Pdf.close_doc)
          (fun e => Pdf.print_error e)
    end.

(** The loop of [on_open_file] over [range(len(doc))]: the images rendered
    so far.  [render] stands for the rasterizer: the size of the [QImage]
    loaded from the rendering of a page of the given size (a null image, of
    size 0 by 0, when the data does not load). *)
Fixpoint render_pages (render : Q * Q -> Qt.QSize) (page_nums : list nat)
    (images : list Qt.QSize) : Pdf.M (list Qt.QSize) :=
  match page_nums with
  | [] => mret images
  | page_num :: rest =>
      page ← Pdf.doc_getitem page_num;
      Pdf.get_pixmap;;
      Pdf.tobytes;;
      render_pages render rest (images ++ [render page])
  end.

(** The part of the [try] body of [on_open_file] that talks to the backend:
    open, render every page, close. *)
Definition load_images (render : Q * Q -> Qt.QSize) : Pdf.M (list Qt.QSize) :=
  Pdf.open_file;;
  n ← Pdf.gets (fun world => length (Pdf.source_pages world));
  images ← render_pages render (seq 0 n) [];
  Pdf.close_doc;;
  mret images.

(** [on_open_file], given the answer of the open dialog: the window and the
    world afterwards. *)
Definition on_open_file (render : Q * Q -> Qt.QSize) (w : t)
    (dialog_path : String.string) (world : Pdf.World) : t * Pdf.World :=
  if falsy (Some dialog_path) then (w, world)
  else
    match load_images render world with
    | (Err e, world1) => (w, snd (Pdf.print_error e world1))
    | (Ok images, world1) =>
        match ClipSelectViewer.set_images (viewer_left w) images with
        | Raised e left1 =>
            (mk left1 (viewer_right w) (file_path w), snd (Pdf.print_error e world1))
        | Returned left1 =>
            (mk left1 (SegmentViewer.clear (viewer_right w)) (Some dialog_path), world1)
        end
    end.

End MainWindow.


(** ** A session on the target viewer *)

Module Session.
Import Py.

(** What can happen to the target viewer between two moments of rest: a
    selection signal from the source viewer, direct calls of its methods, a
    resize of the widget, and the wheel and mouse events. *)
Inductive event : Type :=
| ClipSelected (images : list Qt.QSize) (rect : SelectedRect)
| AddPage (rect : Qt.QSize)
| AddSegment (selected_rect : SelectedRect) (clipped_pixmap : Qt.QSize)
| Clear
| Resize (w h : Z)
| Wheel (e : Qt.QWheelEvent)
| MousePress (e : Qt.QMouseEvent)
| MouseMove (e : Qt.QMouseEvent)
| MouseRelease (e : Qt.QMouseEvent).

Definition step (v : SegmentViewer.t) (ev : event) : outcome SegmentViewer.t :=
  match ev with
  | ClipSelected images rect => MainWindow.on_clip_selected images v rect
  | AddPage rect => SegmentViewer.add_page v rect
  | AddSegment selected_rect clipped_pixmap =>
      Returned (SegmentViewer.add_segment v (new_Segment selected_rect clipped_pixmap))
  | Clear => Returned (SegmentViewer.clear v)
  | Resize w h =>
      Returned (SegmentViewer.set_base (ScrollViewer.set_geometry w h (SegmentViewer.base v)) v)
  | Wheel e => ScrollViewer.wheelEvent v e
  | MousePress e => Returned (SegmentViewer.mousePressEvent v e)
  | MouseMove e => Returned (SegmentViewer.mouseMoveEvent v e)
  | MouseRelease e => SegmentViewer.mouseReleaseEvent v e
  end.

(** An exception that escapes a handler is reported and the event loop goes
    on with the widget as the handler left it. *)
Definition run (v : SegmentViewer.t) (evs : list event) : SegmentViewer.t :=
  foldl (fun v ev => state_of (step v ev)) v evs.

(** The rectangle a selection may hand over: what the rubber band emits. *)
Definition selection_of (ev : event) : option SelectedRect :=
  match ev with
  | ClipSelected _ rect => Some rect
  | AddSegment rect _ => Some rect
  | _ => None
  end.

End Session.

(** ** A session on the source viewer *)

Module SourceSession.
Import Py.

Inductive event : Type :=
| SetImages (images : list Qt.QSize)
| Resize (w h : Z)
| Wheel (e : Qt.QWheelEvent)
| MousePress (e : Qt.QMouseEvent)
| MouseMove (e : Qt.QMouseEvent)
| MouseRelease (e : Qt.QMouseEvent).

(** The viewer as the handler left it, and the [clip_selected] signals the
    handler emitted. *)
Definition step (v : ClipSelectViewer.t) (ev : event)
  : outcome ClipSelectViewer.t * list SelectedRect :=
  match ev with
  | SetImages images => (ClipSelectViewer.set_images v images, [])
  | Resize w h =>
      (Returned (ClipSelectViewer.set_base
                   (ScrollViewer.set_geometry w h (ClipSelectViewer.base v)) v), [])
  | Wheel e => (ScrollViewer.wheelEvent v e, [])
  | MousePress e => (Returned (ClipSelectViewer.mousePressEvent v e), [])
  | MouseMove e => (Returned (ClipSelectViewer.mouseMoveEvent v e), [])
  | MouseRelease e => ClipSelectViewer.mouseReleaseEvent v e
  end.

(** The viewer after the events, the signals emitted along the way, and
    the exceptions that escaped a handler. *)
Fixpoint run (v : ClipSelectViewer.t) (evs : list event)
  : ClipSelectViewer.t * list SelectedRect * list exn :=
  match evs with
  | [] => (v, [], [])
  | ev :: rest =>
      let '(o, emitted) := step v ev in
      let '(v', later, errors) := run (state_of o) rest in
      (v', emitted ++ later,
       match raised o with Some e => e :: errors | None => errors end)
  end.

End SourceSession.

(** ** Properties of rectangles *)

(** [0 <= x_min <= x_max <= 1] and [0 <= y_min <= y_max <= 1]. *)
Definition in_unit_square (r : SelectedRect) : Prop :=
  (0 <= x_min r /\ x_min r <= x_max r /\ x_max r <= 1 /\
   0 <= y_min r /\ y_min r <= y_max r /\ y_max r <= 1)%Q.

(** [x_min <= x_max] and [y_min <= y_max]. *)
Definition ordered (r : SelectedRect) : Prop :=
  (x_min r <= x_max r /\ y_min r <= y_max r)%Q.

(** ** Vocabulary of the properties, and example states *)


(** A pointer position is inside an entry of [page_rects]. *)
Definition inside_page_rect (pos : Qt.QPoint) (r : SegmentViewer.page_rect) : Prop :=
  let '(_, px, py, pw, ph) := r in
  0 <= Qt.x pos - px <= pw /\ 0 <= Qt.y pos - py <= ph.

(** A viewer with one page, one segment on it, and a drag of that segment
    under way. *)
Definition dragging_example : SegmentViewer.t :=
  let rect := mkSelectedRect 0 (1 # 4) (1 # 2) (1 # 4) (1 # 2) in
  let v0 := SegmentViewer.init 400 300 in
  let v1 := Py.state_of (SegmentViewer.add_page v0 (Qt.mkQSize 200 200)) in
  let v2 := SegmentViewer.add_segment v1 (new_Segment rect (Qt.mkQSize 50 50)) in
  SegmentViewer.set_segment_drag_end_pos (Some (Qt.mkQPoint 5 5))
    (SegmentViewer.set_segment_drag_start_pos (Some (Qt.mkQPoint 60 60))
       (SegmentViewer.set_dragging_segment true
          (SegmentViewer.set_hovered_segment_index (Some 0%nat) v2))).

(** The rectangle a cross-page drop commits: on page [p], moved so that its
    centre is the centre of the page.  Neither pointer position of the drag
    occurs in it. *)
Definition recentered (p : nat) (r : SelectedRect) : SelectedRect :=
  mkSelectedRect p
    (x_min r + ((1 # 2) - (x_min r + x_max r) / 2))
    (x_max r + ((1 # 2) - (x_min r + x_max r) / 2))
    (y_min r + ((1 # 2) - (y_min r + y_max r) / 2))
    (y_max r + ((1 # 2) - (y_min r + y_max r) / 2)).

(** The viewer of [dragging_example] with a second page below the first. *)
Definition two_page_dragging_example : SegmentViewer.t :=
  let rect := mkSelectedRect 0 (1 # 4) (1 # 2) (1 # 4) (1 # 2) in
  let v0 := SegmentViewer.init 400 300 in
  let v1 := Py.state_of (SegmentViewer.add_page v0 (Qt.mkQSize 200 200)) in
  let v2 := Py.state_of (SegmentViewer.add_page v1 (Qt.mkQSize 200 200)) in
  let v3 := SegmentViewer.add_segment v2 (new_Segment rect (Qt.mkQSize 50 50)) in
  SegmentViewer.set_segment_drag_end_pos (Some (Qt.mkQPoint 150 450))
    (SegmentViewer.set_segment_drag_start_pos (Some (Qt.mkQPoint 120 120))
       (SegmentViewer.set_dragging_segment true
          (SegmentViewer.set_hovered_segment_index (Some 0%nat) v3))).

(** The rubber band [rect_left..rect_right] by [rect_top..rect_bottom]
    reaches the layout band of a page, and the page itself. *)
Definition band_overlaps (rect_top rect_bottom : Z) (position : Q * Q * Q) : Prop :=
  let '(y_start, y_end, _) := position in
  (y_start <= inject_Z rect_bottom /\ inject_Z rect_top <= y_end)%Q.

Definition page_overlaps (widget_width : Z) (rect_left rect_right rect_top rect_bottom : Z)
    (position : Q * Q * Q) : Prop :=
  let '(y_start, y_end, scaled_width) := position in
  let page_x_start := Py.floordiv_float (inject_Z widget_width - scaled_width) 2 in
  (y_start <= inject_Z rect_bottom /\ inject_Z rect_top <= y_end /\
   page_x_start <= inject_Z rect_right /\
   inject_Z rect_left <= page_x_start + scaled_width)%Q.

(** A source viewer showing two pages of 200 by 200 pixels, with a rubber
    band from [start_pos] to [end_pos] under way. *)
Definition selecting_example (start_pos end_pos : Qt.QPoint) : ClipSelectViewer.t :=
  let v0 := ClipSelectViewer.init 400 300 in
  let v1 := Py.state_of (ClipSelectViewer.set_images v0 [Qt.mkQSize 200 200; Qt.mkQSize 200 200]) in
  ClipSelectViewer.set_select_end_pos (Some end_pos)
    (ClipSelectViewer.set_select_start_pos (Some start_pos)
       (ClipSelectViewer.set_selecting true v1)).

(** A source viewer of 400 by 300 pixels after loading one image of 200 by
    256 pixels: the fit to width has set the zoom factor to the float
    [380 / 200], that is 1.9, and the scroll offset to [-PAGE_SPACING]. *)
Definition fitted_source_example : ClipSelectViewer.t :=
  let v :=
    Py.state_of (ClipSelectViewer.set_images (ClipSelectViewer.init 400 300)
                   [Qt.mkQSize 200 256]) in
  ClipSelectViewer.set_base
    (ScrollViewer.set_zoom_factor (Float64.div 380 200) (ClipSelectViewer.base v)) v.

(** A target viewer of 400 by 300 pixels showing one page of 200 by 200. *)
Definition one_page_example : SegmentViewer.t :=
  Py.state_of (SegmentViewer.add_page (SegmentViewer.init 400 300) (Qt.mkQSize 200 200)).






(** The world after [n] more successful backend calls that left the output
    document with [pages]. *)
Definition after_calls (n : nat) (pages : list Pdf.Page) (w : Pdf.World) : Pdf.World :=
  Pdf.mkWorld (Pdf.source_pages w) (Pdf.fault_at w) (n + Pdf.calls w) (Pdf.doc_open w)
    (Pdf.new_doc_open w) pages (Pdf.saved w) (Pdf.printed w).


(** Two selections, on source pages 0 and 1, each left on its own page; the
    source document has two A4 pages. *)
Definition two_selections_example : MainWindow.t :=
  let s0 := new_Segment (mkSelectedRect 0 (1 # 10) (4 # 10) (1 # 10) (3 # 10))
              (Qt.mkQSize 60 40) in
  let s1 := new_Segment (mkSelectedRect 1 (1 # 2) (3 # 4) (1 # 4) (1 # 2))
              (Qt.mkQSize 50 50) in
  MainWindow.mk (ClipSelectViewer.init 700 900)
    (SegmentViewer.add_segment
       (SegmentViewer.add_segment (SegmentViewer.init 700 900) s0) s1)
    (Some "in.pdf"%string).

(** What holds of a segment at rest. *)
Definition segment_at_rest (s : Segment) : Prop :=
  in_unit_square (selected_rect s) /\ ordered (target_rect s).

(** A session: one selection of the right half of the upper half of a page
    of 200 by 200 pixels, shown at zoom 1; the segment is hovered, grabbed
    with Ctrl held, dragged 80 pixels to the right and 5 down, and dropped
    on the same page. *)
Definition drag_right_session : list Session.event :=
  let ctrl := Qt.mkModifiers false true false false in
  let none := Qt.mkModifiers false false false false in
  let up := Qt.mkButtons false false false in
  let left := Qt.mkButtons true false false in
  [ Session.ClipSelected [Qt.mkQSize 200 200] (mkSelectedRect 0 (1 # 2) 1 0 (1 # 2));
    Session.MouseMove (Qt.mkMouseEvent (Qt.mkQPoint 120 20) Qt.NoButton up none);
    Session.MousePress (Qt.mkMouseEvent (Qt.mkQPoint 120 20) Qt.LeftButton left ctrl);
    Session.MouseMove (Qt.mkMouseEvent (Qt.mkQPoint 200 25) Qt.NoButton left ctrl);
    Session.MouseRelease (Qt.mkMouseEvent (Qt.mkQPoint 200 25) Qt.LeftButton up ctrl) ].

(** A backend computation that never changes a field of the world, and one
    that does not change it when it raises. *)
Definition keeps {F A : Type} (field : Pdf.World -> F) (m : Pdf.M A) : Prop :=
  forall w r w1, m w = (r, w1) -> field w1 = field w.

Definition keeps_on_error {F A : Type} (field : Pdf.World -> F) (m : Pdf.M A) : Prop :=
  forall w e w1, m w = (Py.Err e, w1) -> field w1 = field w.

(** The zoom factor is within the zoom range. *)
Definition zoom_in_range (b : ScrollViewer.t) : Prop :=
  (ScrollViewer.min_zoom <= ScrollViewer.zoom_factor b /\
   ScrollViewer.zoom_factor b <= ScrollViewer.max_zoom)%Q.

(** The scroll offset is within the range the clamp enforces, for the
    geometry and the content of the viewer itself. *)
Definition scroll_in_range {V : Type} `{ScrollViewer.Viewer V} (v : V) : Prop :=
  let height := ScrollViewer.widget_height (ScrollViewer.viewer_base v) in
  (- height) / 2
  <= ScrollViewer.scroll_offset (ScrollViewer.viewer_base v)
  <= Z.max 0 (ScrollViewer.get_content_height v - height / 2).

(** The content height of a viewer depends neither on its scroll offset nor
    on the caches its hooks rebuild. *)
Definition content_height_stable (V : Type) `{ScrollViewer.Viewer V} : Prop :=
  (forall (v : V) o,
     ScrollViewer.get_content_height
       (ScrollViewer.with_base
          (ScrollViewer.set_scroll_offset o (ScrollViewer.viewer_base v)) v)
     = ScrollViewer.get_content_height v) /\
  (forall v : V,
     ScrollViewer.get_content_height (ScrollViewer.on_zoom_changed v)
     = ScrollViewer.get_content_height v) /\
  (forall v : V,
     ScrollViewer.get_content_height (ScrollViewer.on_scroll_changed v)
     = ScrollViewer.get_content_height v).

(** The source viewer of [selecting_example] before any rubber band, after
    a plain left press at (100, 100). *)
Definition panning_example : ClipSelectViewer.t :=
  let v0 := ClipSelectViewer.init 400 300 in
  let v1 := Py.state_of (ClipSelectViewer.set_images v0 [Qt.mkQSize 200 200; Qt.mkQSize 200 200]) in
  ClipSelectViewer.mousePressEvent v1
    (Qt.mkMouseEvent (Qt.mkQPoint 100 100) Qt.LeftButton (Qt.mkButtons true false false)
       (Qt.mkModifiers false false false false)).

(** A rectangle of fractions, taken back to the pixels of a page at
    [position], is the rubber band clipped to that page. *)
Definition projects_to_clipped_band (widget_width : Z)
    (rect_left rect_right rect_top rect_bottom : Z)
    (position : Q * Q * Q) (r : SelectedRect) : Prop :=
  let '(y_start, y_end, scaled_width) := position in
  let page_x_start := Py.floordiv_float (inject_Z widget_width - scaled_width) 2 in
  (page_x_start + x_min r * scaled_width == Qmax (inject_Z rect_left) page_x_start /\
   page_x_start + x_max r * scaled_width
   == Qmin (inject_Z rect_right) (page_x_start + scaled_width) /\
   y_start + y_min r * (y_end - y_start) == Qmax (inject_Z rect_top) y_start /\
   y_start + y_max r * (y_end - y_start) == Qmin (inject_Z rect_bottom) y_end)%Q.

(** The images have positive dimensions. *)
Definition positive_sizes (sizes : list Qt.QSize) : Prop :=
  Forall (fun size => 0 < Qt.width size /\ 0 < Qt.height size) sizes.

(** What every session of the source viewer keeps. *)
Definition source_invariant (v : ClipSelectViewer.t) : Prop :=
  zoom_in_range (ClipSelectViewer.base v) /\
  positive_sizes (ClipSelectViewer.images v) /\
  (ClipSelectViewer.selecting v = true ->
   is_Some (ClipSelectViewer.select_start_pos v) /\
   is_Some (ClipSelectViewer.select_end_pos v)).

(** The page index of an entry of [page_rects]. *)
Definition rect_index (r : SegmentViewer.page_rect) : nat :=
  let '(pi, _, _, _, _) := r in pi.

(** The pointer is on the drawn image of segment [i]: the segment and its
    scaled image exist, the page of its [target_rect] has an entry in
    [page_rects], and the pointer is inside the image drawn at the fraction
    [(x_min, y_min)] of that entry, borders included. *)
Definition pointer_on_segment (v : SegmentViewer.t) (mouse_pos : Qt.QPoint) (i : nat) : Prop :=
  exists segment scaled_pixmap pi px py pw ph,
    SegmentViewer.segments v !! i = Some segment /\
    SegmentViewer.scaled_segments v !! i = Some scaled_pixmap /\
    SegmentViewer.find_page_rect (SegmentViewer.page_rects v)
      (page_index (target_rect segment)) = Some (pi, px, py, pw, ph) /\
    let img_x := px + Py.int (x_min (target_rect segment) * inject_Z pw) in
    let img_y := py + Py.int (y_min (target_rect segment) * inject_Z ph) in
    img_x <= Qt.x mouse_pos <= img_x + Qt.width scaled_pixmap /\
    img_y <= Qt.y mouse_pos <= img_y + Qt.height scaled_pixmap.

(** What every session of the target viewer keeps: the zoom factor is in
    range, there is one scaled image per segment, every entry of
    [page_rects] names a page the viewer has, and a drag under way has its
    segment and its two pointer positions. *)
Definition target_invariant (v : SegmentViewer.t) : Prop :=
  zoom_in_range (SegmentViewer.base v) /\
  length (SegmentViewer.scaled_segments v) = length (SegmentViewer.segments v) /\
  Forall (fun r => (rect_index r < SegmentViewer.pages_count v)%nat)
         (SegmentViewer.page_rects v) /\
  (SegmentViewer.dragging_segment v = true ->
   is_Some (SegmentViewer.hovered_segment_index v) /\
   is_Some (SegmentViewer.segment_drag_start_pos v) /\
   is_Some (SegmentViewer.segment_drag_end_pos v)).

(** The segments are selected from, and placed on, pages below [n]. *)
Definition segments_within (n : nat) (segs : list Segment) : Prop :=
  Forall (fun s => (page_index (selected_rect s) < n)%nat /\
                   (page_index (target_rect s) < n)%nat) segs.

(** The pointer is inside an image painted at [(x, y)], borders
    included. *)
Definition inside_image (pos : Qt.QPoint) (x y : Z) (pixmap : Qt.QSize) : Prop :=
  x <= Qt.x pos <= x + Qt.width pixmap /\ y <= Qt.y pos <= y + Qt.height pixmap.

(** The hover index, if any, names a segment. *)
Definition hover_valid (v : SegmentViewer.t) : Prop :=
  forall i, SegmentViewer.hovered_segment_index v = Some i ->
            (i < length (SegmentViewer.segments v))%nat.

(** An event other than a call of [clear]. *)
Definition not_clear (ev : Session.event) : Prop :=
  match ev with Session.Clear => False | _ => True end.

(** An event other than a direct call of [add_segment]. *)
Definition not_add_segment (ev : Session.event) : Prop :=
  match ev with Session.AddSegment _ _ => False | _ => True end.

(** What a run of the [try] body of the export pass, from [w] to [w'] with
    result [r], does to the world: it prints nothing and leaves the source
    pages alone; when it returns, the output pages have been saved at the
    dialog path and both documents are closed; when it raises, either
    nothing has been saved or the output pages have. *)
Definition export_effect (dialog_path : String.string)
    (w : Pdf.World) (r : Py.result unit) (w' : Pdf.World) : Prop :=
  Pdf.printed w' = Pdf.printed w /\
  Pdf.source_pages w' = Pdf.source_pages w /\
  match r with
  | Py.Ok _ =>
      Pdf.saved w' = Pdf.saved w ++ [(dialog_path, Pdf.new_doc_pages w')] /\
      Pdf.doc_open w' = false /\ Pdf.new_doc_open w' = false
  | Py.Err _ =>
      Pdf.saved w' = Pdf.saved w \/
      Pdf.saved w' = Pdf.saved w ++ [(dialog_path, Pdf.new_doc_pages w')]
  end.

(** The guards of [on_export_file] pass: a file is open, the save dialog was
    answered, and there is a segment. *)
Definition export_guards_pass (w : MainWindow.t) (dialog_path : String.string) : Prop :=
  MainWindow.falsy (MainWindow.file_path w) = false /\
  MainWindow.falsy (Some dialog_path) = false /\
  SegmentViewer.segments (MainWindow.viewer_right w) <> [].

(** * Properties *)

(** ** Arithmetic of the primitives *)

Lemma int_inject_Z (z : Z) : Py.int (inject_Z z) = z.
Proof. unfold Py.int, inject_Z; simpl. apply Z.quot_1_r. Qed.

(** [int] moves a number by less than one. *)
Lemma int_within_one (q : Q) : (Qabs (inject_Z (Py.int q) - q) < 1)%Q.
Proof.
  destruct q as [n d]. unfold Py.int; simpl.
  pose proof (Z.quot_rem' n (Zpos d)) as Hqr.
  pose proof (Z.rem_bound_abs n (Zpos d) ltac:(lia)) as Hb.
  set (k := Z.quot n (Zpos d)) in *. set (r := Z.rem n (Zpos d)) in *.
  assert (Heq : (inject_Z k - (n # d) == - (r # d))%Q).
  { unfold Qeq, Qminus, Qplus, Qopp, inject_Z; simpl. nia. }
  apply Qle_lt_trans with (Qabs (- (r # d))).
  - apply Qle_lteq; right. exact (Qabs_wd _ _ Heq).
  - apply Qle_lt_trans with (Qabs (r # d)).
    + apply Qle_lteq; right. exact (Qabs_opp (r # d)).
    + unfold Qabs, Qlt; simpl. lia.
Qed.

(** ** Arithmetic of binary floating point *)

Lemma pow2_pos (e : Z) : (0 < Float64.pow2 e)%Q.
Proof. apply Qpower_0_lt. reflexivity. Qed.

Lemma pow2_le (a b : Z) : a <= b -> (Float64.pow2 a <= Float64.pow2 b)%Q.
Proof. intros Hab. apply Qpower_le_compat_l; [exact Hab|]. unfold Qle; simpl; lia. Qed.

Lemma pow2_nonneg_Z (a : Z) : 0 <= a -> (Float64.pow2 a == inject_Z (2 ^ a))%Q.
Proof. intros Ha. unfold Float64.pow2. rewrite (Zpower_Qpower 2 a Ha). reflexivity. Qed.

Lemma pow2_plus (a b : Z) : (Float64.pow2 (a + b) == Float64.pow2 a * Float64.pow2 b)%Q.
Proof. apply Qpower_plus. intros Hc. discriminate Hc. Qed.

Lemma pow2_opp (a : Z) : (Float64.pow2 (- a) == / Float64.pow2 a)%Q.
Proof. apply Qpower_opp. Qed.

(** [ilog2] does not overshoot. *)
Lemma pow2_ilog2_le (x : Q) : ~ (x == 0)%Q -> (Float64.pow2 (Float64.ilog2 x) <= Qabs x)%Q.
Proof.
  intros Hx. unfold Float64.ilog2.
  destruct (Qle_bool _ _) eqn:E; [apply Qle_bool_iff, E|].
  destruct x as [n d]. cbn [Qnum Qden].
  assert (Hn : 0 < Z.abs n).
  { assert (n <> 0); [|lia]. intros ->. apply Hx. reflexivity. }
  pose proof (Z.log2_spec (Z.abs n) Hn) as [Hlow _].
  pose proof (Z.log2_spec (Zpos d) ltac:(lia)) as [_ Hhigh].
  pose proof (Z.log2_nonneg (Z.abs n)) as Ha.
  pose proof (Z.log2_nonneg (Zpos d)) as Hb.
  set (a := Z.log2 (Z.abs n)) in *. set (b := Z.log2 (Zpos d)) in *.
  replace (a - b - 1) with (a + - (b + 1)) by lia.
  rewrite pow2_plus, pow2_opp, (pow2_nonneg_Z a Ha), (pow2_nonneg_Z (b + 1)) by lia.
  replace (Z.succ b) with (b + 1) in Hhigh by lia.
  assert (Hp : 0 < 2 ^ (b + 1)) by (apply Z.pow_pos_nonneg; lia).
  destruct (2 ^ (b + 1)) as [|p|p] eqn:Ep; try lia.
  unfold Qabs, Qle, Qmult, Qinv, inject_Z; simpl.
  nia.
Qed.

Lemma ilog2_le (x : Q) (k : Z) :
  ~ (x == 0)%Q -> (Qabs x < Float64.pow2 (k + 1))%Q -> Float64.ilog2 x <= k.
Proof.
  intros Hx Hlt.
  destruct (Z_le_gt_dec (Float64.ilog2 x) k) as [Hle|Hgt]; [exact Hle|exfalso].
  pose proof (pow2_ilog2_le x Hx) as Hlow.
  pose proof (pow2_le (k + 1) (Float64.ilog2 x) ltac:(lia)) as Hmono.
  lra.
Qed.

Lemma nearest_even_cases (x : Q) :
  Float64.nearest_even x = Qfloor x \/
  (Float64.nearest_even x = Qfloor x + 1 /\ (inject_Z (Qfloor x) < x)%Q).
Proof.
  unfold Float64.nearest_even.
  destruct (Qcompare_spec (x - inject_Z (Qfloor x)) (1 # 2)) as [Heq|Hlt|Hgt].
  - destruct (Z.even (Qfloor x)); [left; reflexivity|right; split; [reflexivity|lra]].
  - left; reflexivity.
  - right; split; [reflexivity|lra].
Qed.

Lemma nearest_even_error (x : Q) :
  (Qabs (inject_Z (Float64.nearest_even x) - x) <= 1 # 2)%Q.
Proof.
  pose proof (Qfloor_le x) as Hlow. pose proof (Qlt_floor x) as Hhigh.
  rewrite inject_Z_plus in Hhigh. change (inject_Z 1) with 1%Q in Hhigh.
  apply Qabs_Qle_condition. unfold Float64.nearest_even.
  destruct (Qcompare_spec (x - inject_Z (Qfloor x)) (1 # 2)) as [Heq|Hlt|Hgt].
  - destruct (Z.even (Qfloor x)); [|rewrite inject_Z_plus; change (inject_Z 1) with 1%Q];
      split; lra.
  - split; lra.
  - rewrite inject_Z_plus; change (inject_Z 1) with 1%Q. split; lra.
Qed.

Lemma round_eq (x : Q) :
  ~ (x == 0)%Q ->
  (Float64.round x
   == inject_Z (Float64.nearest_even (x / Float64.pow2 (Float64.exponent x)))
      * Float64.pow2 (Float64.exponent x))%Q.
Proof.
  intros Hx. unfold Float64.round.
  destruct (Qeq_bool x 0) eqn:E; [apply Qeq_bool_iff in E; contradiction|].
  cbv zeta. apply Qred_correct.
Qed.

Lemma round_zero (x : Q) : (x == 0)%Q -> Float64.round x = 0%Q.
Proof.
  intros Hx. unfold Float64.round.
  destruct (Qeq_bool x 0) eqn:E; [reflexivity|].
  apply Qeq_bool_neq in E. contradiction.
Qed.

(** The rounding error is at most half a unit in the last place. *)
Lemma round_half_ulp (x : Q) :
  ~ (x == 0)%Q ->
  (Qabs (Float64.round x - x) <= (1 # 2) * Float64.pow2 (Float64.exponent x))%Q.
Proof.
  intros Hx. rewrite (round_eq x Hx).
  set (e := Float64.exponent x). pose proof (pow2_pos e) as He.
  pose proof (nearest_even_error (x / Float64.pow2 e)) as Hm.
  set (m := inject_Z (Float64.nearest_even (x / Float64.pow2 e))) in *.
  assert (Heq : (m * Float64.pow2 e - x == (m - x / Float64.pow2 e) * Float64.pow2 e)%Q)
    by (field; lra).
  rewrite Heq, Qabs_Qmult, (Qabs_pos (Float64.pow2 e)) by lra.
  apply Qmult_le_compat_r; [exact Hm|lra].
Qed.

Lemma pow2_max (a b : Z) :
  (Float64.pow2 (Z.max a b) <= Float64.pow2 a + Float64.pow2 b)%Q.
Proof.
  pose proof (pow2_pos a). pose proof (pow2_pos b).
  destruct (Z.max_spec a b) as [[_ ->]|[_ ->]]; lra.
Qed.

Lemma round_error (x : Q) :
  (Qabs (Float64.round x - x) <= Float64.u * Qabs x + Float64.eta)%Q.
Proof.
  destruct (Qeq_dec x 0) as [Hz|Hx].
  - rewrite (round_zero x Hz). rewrite Hz. vm_compute. discriminate.
  - pose proof (round_half_ulp x Hx) as Hhalf.
    pose proof (pow2_ilog2_le x Hx) as Hlog.
    pose proof (pow2_max (Float64.ilog2 x - 52) (-1074)) as Hmax.
    fold (Float64.exponent x) in Hmax.
    assert (Hshift : (Float64.pow2 (Float64.ilog2 x - 52)
                      == Float64.pow2 (Float64.ilog2 x) * (1 # 2 ^ 52))%Q).
    { replace (Float64.ilog2 x - 52) with (Float64.ilog2 x + - 52) by lia.
      rewrite pow2_plus. reflexivity. }
    assert (Hsub : (Float64.pow2 (-1074) == 2 * Float64.eta)%Q) by (vm_compute; reflexivity).
    assert (Hu : (Float64.u == (1 # 2) * (1 # 2 ^ 52))%Q) by (vm_compute; reflexivity).
    rewrite Hshift, Hsub in Hmax. rewrite Hu.
    set (p := Float64.pow2 (Float64.ilog2 x)) in *.
    set (E := Float64.pow2 (Float64.exponent x)) in *.
    set (ax := Qabs x) in *. set (err := Qabs (Float64.round x - x)) in *.
    set (c := (1 # 2 ^ 52)%Q) in *.
    assert (Hc : (0 <= c)%Q) by (vm_compute; discriminate).
    assert (Hpc : (p * c <= ax * c)%Q) by (apply Qmult_le_compat_r; assumption).
    lra.
Qed.

(** Below [2 ^ 53] the floats include the integers, so rounding does not
    cross one. *)
Lemma round_between (x : Q) :
  (Qabs x < Float64.pow2 53)%Q ->
  (inject_Z (Qfloor x) <= Float64.round x <= inject_Z (Qceiling x))%Q.
Proof.
  intros Hbound.
  pose proof (Qfloor_le x) as Hfloor. pose proof (Qle_ceiling x) as Hceil.
  destruct (Qeq_dec x 0) as [Hz|Hx].
  { rewrite (round_zero x Hz). lra. }
  rewrite (round_eq x Hx).
  assert (He : Float64.exponent x <= 0).
  { unfold Float64.exponent. pose proof (ilog2_le x 52 Hx Hbound). lia. }
  set (e := Float64.exponent x) in *.
  set (S := 2 ^ (- e)).
  assert (HS : 0 < S) by (apply Z.pow_pos_nonneg; lia).
  assert (Hinv : (Float64.pow2 e == / inject_Z S)%Q).
  { replace e with (- - e) by lia. rewrite pow2_opp, (pow2_nonneg_Z (- e)) by lia.
    replace (- - - e) with (- e) by lia. reflexivity. }
  assert (HSq : (0 < inject_Z S)%Q) by (unfold Qlt, inject_Z; simpl; lia).
  assert (Hdiv : (x / Float64.pow2 e == x * inject_Z S)%Q) by (rewrite Hinv; field; lra).
  set (y := (x / Float64.pow2 e)%Q) in *.
  assert (Hlow : Qfloor x * S <= Qfloor y).
  { rewrite <- (Qfloor_Z (Qfloor x * S)). apply Qfloor_resp_le.
    rewrite Hdiv, inject_Z_mult. apply Qmult_le_compat_r; lra. }
  assert (Hhigh : forall k : Z, (inject_Z k < y)%Q -> k + 1 <= Qceiling x * S).
  { intros k Hk.
    assert (Hlt : (inject_Z k < inject_Z (Qceiling x * S))%Q).
    { rewrite inject_Z_mult. apply Qlt_le_trans with y; [exact Hk|].
      rewrite Hdiv. apply Qmult_le_compat_r; lra. }
    rewrite <- Zlt_Qlt in Hlt. lia. }
  assert (Hfy : Qfloor y <= Qceiling x * S).
  { assert (Hle : (inject_Z (Qfloor y) <= inject_Z (Qceiling x * S))%Q).
    { rewrite inject_Z_mult. apply Qle_trans with y; [apply Qfloor_le|].
      rewrite Hdiv. apply Qmult_le_compat_r; lra. }
    rewrite <- Zle_Qle in Hle. exact Hle. }
  assert (Hm : Qfloor x * S <= Float64.nearest_even y <= Qceiling x * S).
  { destruct (nearest_even_cases y) as [->|[-> Hlt]].
    - lia.
    - split; [lia|]. apply Hhigh, Hlt. }
  destruct Hm as [Hm1 Hm2].
  rewrite Zle_Qle, inject_Z_mult in Hm1, Hm2.
  set (m := inject_Z (Float64.nearest_even y)) in *.
  rewrite Hinv. split.
  - apply Qle_shift_div_l; [exact HSq|exact Hm1].
  - apply Qle_shift_div_r; [exact HSq|exact Hm2].
Qed.

(** [int] is monotone and leaves the integers where they are. *)
Lemma int_between (q : Q) (a b : Z) :
  (inject_Z a <= q <= inject_Z b)%Q -> a <= Py.int q <= b.
Proof.
  destruct q as [n d]. unfold Py.int, Qle, inject_Z; simpl. intros [Ha Hb].
  rewrite !Z.mul_1_r in *.
  destruct (Z_le_gt_dec 0 n) as [Hn|Hn].
  - rewrite Z.quot_div_nonneg by lia. split.
    + apply Z.div_le_lower_bound; lia.
    + assert (n / Z.pos d < b + 1); [|lia].
      apply Z.div_lt_upper_bound; [lia|]. nia.
  - replace n with (- - n) by lia. rewrite Z.quot_opp_l, Z.quot_div_nonneg by lia.
    split.
    + assert (- n / Z.pos d < - a + 1); [|lia].
      apply Z.div_lt_upper_bound; [lia|]. nia.
    + assert (- b <= - n / Z.pos d); [|lia].
      apply Z.div_le_lower_bound; lia.
Qed.

(** Truncating a rounded number moves it by less than one, as truncating the
    number itself does. *)
Lemma int_round_within_one (x : Q) :
  (Qabs x < Float64.pow2 53)%Q ->
  (Qabs (inject_Z (Py.int (Float64.round x)) - x) < 1)%Q.
Proof.
  intros Hbound.
  pose proof (int_between _ _ _ (round_between x Hbound)) as [Hlow Hhigh].
  rewrite Zle_Qle in Hlow, Hhigh.
  pose proof (Qlt_floor x) as Hfloor. pose proof (Qceiling_lt x) as Hceil.
  rewrite inject_Z_plus in Hfloor.
  replace (Qceiling x - 1) with (Qceiling x + -1) in Hceil by lia.
  rewrite inject_Z_plus in Hceil.
  change (inject_Z 1) with 1%Q in *. change (inject_Z (-1)) with (-1 # 1)%Q in *.
  pose proof (Qfloor_le x). pose proof (Qle_ceiling x).
  apply Qabs_case; intros _; lra.
Qed.

Lemma round_inject_Z (z : Z) :
  Z.abs z < 2 ^ 53 -> (Float64.round (inject_Z z) == inject_Z z)%Q.
Proof.
  intros Hz.
  assert (Hbound : (Qabs (inject_Z z) < Float64.pow2 53)%Q).
  { rewrite (pow2_nonneg_Z 53) by lia. unfold Qabs, Qlt, inject_Z; simpl. lia. }
  pose proof (round_between _ Hbound) as [Hlow Hhigh].
  rewrite Qfloor_Z in Hlow. rewrite Qceiling_Z in Hhigh. lra.
Qed.

(** ** The two viewers obey the laws of the base class *)

#[global] Instance ClipSelectViewer_laws : ScrollViewer.ViewerLaws ClipSelectViewer.t.
Proof. split; reflexivity. Qed.

#[global] Instance SegmentViewer_laws : ScrollViewer.ViewerLaws SegmentViewer.t.
Proof. split; reflexivity. Qed.

(** ** Segment drags (viewer/segment_viewer.py) *)

(** C10. When the raw pixel delta of a segment drag has equal absolute
    horizontal and vertical magnitudes (the zero delta included), the
    axis-locked offset has its horizontal component zeroed and keeps the
    vertical component: ties resolve to the vertical axis. *)
Theorem C10_axis_lock_tie_keeps_vertical
    (v : SegmentViewer.t) (start_pos end_pos : Qt.QPoint) :
  SegmentViewer.segment_drag_start_pos v = Some start_pos ->
  SegmentViewer.segment_drag_end_pos v = Some end_pos ->
  let delta := Qt.QPoint_sub end_pos start_pos in
  Z.abs (Qt.x delta) = Z.abs (Qt.y delta) ->
  SegmentViewer.get_segment_dragging_offset v = Py.Ok (Qt.mkQPoint 0 (Qt.y delta)).
Proof.
  intros Hstart Hend delta Htie.
  unfold SegmentViewer.get_segment_dragging_offset, SegmentViewer.dragging_offset.
  rewrite Hstart, Hend. fold delta. rewrite Htie.
  replace (Z.abs (Qt.y delta) >? Z.abs (Qt.y delta)) with false
    by (symmetry; rewrite Z.gtb_ltb; apply Z.ltb_irrefl).
  reflexivity.
Qed.

Lemma C10_axis_lock_tie_witness :
  let v :=
    SegmentViewer.set_segment_drag_end_pos (Some (Qt.mkQPoint 107 193))
      (SegmentViewer.set_segment_drag_start_pos (Some (Qt.mkQPoint 100 200))
         (SegmentViewer.init 400 300)) in
  SegmentViewer.get_segment_dragging_offset v = Py.Ok (Qt.mkQPoint 0 (-7)).
Proof.
  intros v.
  apply (C10_axis_lock_tie_keeps_vertical v (Qt.mkQPoint 100 200) (Qt.mkQPoint 107 193));
    reflexivity.
Defined.

Lemma current_page_index_outside (rects : list SegmentViewer.page_rect) (pos : Qt.QPoint) :
  Forall (fun r => ~ inside_page_rect pos r) rects ->
  SegmentViewer.current_page_index_in rects pos = None.
Proof.
  induction 1 as [|[[[[pi px] py] pw] ph] rects Hout _ IH]; simpl; [reflexivity|].
  rewrite IH.
  destruct ((0 <=? Qt.x pos - px) && (Qt.x pos - px <=? pw)
            && (0 <=? Qt.y pos - py) && (Qt.y pos - py <=? ph)) eqn:E; [|reflexivity].
  exfalso. apply Hout. simpl.
  repeat (apply andb_prop in E; destruct E as [E ?]). lia.
Qed.

(** C7. A segment drag released at a pointer position outside every target
    page's on-screen rectangle is discarded: the handler only ends the drag,
    so the dragged segment's [target_rect] and every other segment and page
    are exactly as before. *)
Theorem C7_release_outside_is_discarded (v : SegmentViewer.t) (event : Qt.QMouseEvent) :
  SegmentViewer.dragging_segment v = true ->
  Forall (fun r => ~ inside_page_rect (Qt.pos event) r) (SegmentViewer.page_rects v) ->
  let v' := Py.state_of (SegmentViewer.mouseReleaseEvent v event) in
  v' = SegmentViewer.set_dragging_segment false v /\
  SegmentViewer.segments v' = SegmentViewer.segments v /\
  SegmentViewer.pages v' = SegmentViewer.pages v /\
  SegmentViewer.dragging_segment v' = false.
Proof.
  intros Hdrag Hout v'.
  assert (Hv' : v' = SegmentViewer.set_dragging_segment false v).
  { subst v'. unfold SegmentViewer.mouseReleaseEvent. rewrite Hdrag.
    unfold SegmentViewer.get_current_page_index.
    destruct (SegmentViewer.hovered_segment_index _); [|reflexivity].
    simpl SegmentViewer.page_rects.
    rewrite (current_page_index_outside _ _ Hout). reflexivity. }
  rewrite Hv'. repeat split.
Qed.

Lemma C7_release_outside_witness :
  let event :=
    Qt.mkMouseEvent (Qt.mkQPoint 5 5) Qt.LeftButton (Qt.mkButtons false false false)
      (Qt.mkModifiers false true false false) in
  SegmentViewer.segments (Py.state_of (SegmentViewer.mouseReleaseEvent dragging_example event))
  = SegmentViewer.segments dragging_example.
Proof.
  intros event.
  refine (proj1 (proj2 (C7_release_outside_is_discarded dragging_example event _ _))).
  - reflexivity.
  - replace (SegmentViewer.page_rects dragging_example)
      with [(0%nat, 10, 10, 380, 380)] by (vm_compute; reflexivity).
    constructor; [|constructor]. unfold inside_page_rect, event; simpl. lia.
Defined.

Lemma recentered_span (p : nat) (r : SelectedRect) :
  (x_min (recentered p r) == (1 # 2) - (x_max r - x_min r) / 2 /\
   x_max (recentered p r) == (1 # 2) + (x_max r - x_min r) / 2 /\
   y_min (recentered p r) == (1 # 2) - (y_max r - y_min r) / 2 /\
   y_max (recentered p r) == (1 # 2) + (y_max r - y_min r) / 2)%Q.
Proof. simpl. repeat split; field. Qed.

(** C6. A segment drag released inside a target page other than the
    segment's current one returns normally; afterwards the [target_rect] of
    the dragged segment has the drop page as [page_index] and its [x_min],
    [x_max] shifted by [0.5 - (x_min + x_max)/2] and [y_min], [y_max] by
    [0.5 - (y_min + y_max)/2], so that it spans [0.5 -/+ half-width] by
    [0.5 -/+ half-height] with its centre at [(0.5, 0.5)]; the committed
    rectangle is a function of the old rectangle and the drop page alone,
    so the axis-locked pixel delta of the drag is not applied; the segment
    keeps its [selected_rect] and its image, and every other segment, the
    pages and the number of segments are as before. *)
Theorem C6_cross_page_drop_recenters
    (v : SegmentViewer.t) (event : Qt.QMouseEvent)
    (hovered : nat) (segment : Segment) (drop_page : nat) :
  SegmentViewer.dragging_segment v = true ->
  SegmentViewer.hovered_segment_index v = Some hovered ->
  SegmentViewer.segments v !! hovered = Some segment ->
  SegmentViewer.get_current_page_index v (Qt.pos event) = Some drop_page ->
  page_index (target_rect segment) <> drop_page ->
  let target := target_rect segment in
  let target' := recentered drop_page target in
  exists v',
    SegmentViewer.mouseReleaseEvent v event = Py.Returned v' /\
    target_rect <$> SegmentViewer.segments v' !! hovered = Some target' /\
    selected_rect <$> SegmentViewer.segments v' !! hovered = Some (selected_rect segment) /\
    clipped_pixmap <$> SegmentViewer.segments v' !! hovered = Some (clipped_pixmap segment) /\
    (forall i, i <> hovered ->
       SegmentViewer.segments v' !! i = SegmentViewer.segments v !! i) /\
    length (SegmentViewer.segments v') = length (SegmentViewer.segments v) /\
    SegmentViewer.pages v' = SegmentViewer.pages v /\
    SegmentViewer.dragging_segment v' = false /\
    page_index target' = drop_page /\
    (x_min target' == (1 # 2) - (x_max target - x_min target) / 2 /\
     x_max target' == (1 # 2) + (x_max target - x_min target) / 2 /\
     y_min target' == (1 # 2) - (y_max target - y_min target) / 2 /\
     y_max target' == (1 # 2) + (y_max target - y_min target) / 2)%Q /\
    ((x_min target' + x_max target') / 2 == 1 # 2 /\
     (y_min target' + y_max target') / 2 == 1 # 2)%Q.
Proof.
  intros Hdrag Hhov Hseg Hdrop Hne target target'.
  assert (Hlt : (hovered < length (SegmentViewer.segments v))%nat)
    by (eapply lookup_lt_Some, Hseg).
  eexists. split.
  { unfold SegmentViewer.mouseReleaseEvent. rewrite Hdrag.
    change (SegmentViewer.hovered_segment_index (SegmentViewer.set_dragging_segment false v))
      with (SegmentViewer.hovered_segment_index v).
    rewrite Hhov.
    change (SegmentViewer.get_current_page_index (SegmentViewer.set_dragging_segment false v)
              (Qt.pos event))
      with (SegmentViewer.get_current_page_index v (Qt.pos event)).
    rewrite Hdrop.
    change (SegmentViewer.segments (SegmentViewer.set_dragging_segment false v))
      with (SegmentViewer.segments v).
    rewrite Hseg.
    destruct (Nat.eqb_spec (page_index (target_rect segment)) drop_page) as [E|_];
      [contradiction|].
    reflexivity. }
  cbn [SegmentViewer.segments SegmentViewer.set_segments SegmentViewer.set_dragging_segment
       SegmentViewer.pages SegmentViewer.dragging_segment].
  rewrite list_lookup_insert_eq by exact Hlt.
  split; [reflexivity|]. split; [reflexivity|]. split; [reflexivity|].
  split; [intros i Hi; apply list_lookup_insert_ne; congruence|].
  split; [apply length_insert|]. split; [reflexivity|]. split; [reflexivity|].
  split; [reflexivity|]. split; [apply recentered_span|].
  subst target'. simpl. split; field.
Qed.

Lemma C6_cross_page_drop_witness :
  let event :=
    Qt.mkMouseEvent (Qt.mkQPoint 150 450) Qt.LeftButton (Qt.mkButtons false false false)
      (Qt.mkModifiers false true false false) in
  exists v',
    SegmentViewer.mouseReleaseEvent two_page_dragging_example event = Py.Returned v' /\
    target_rect <$> SegmentViewer.segments v' !! 0%nat
    = Some (mkSelectedRect 1 ((1 # 4) + ((1 # 2) - ((1 # 4) + (1 # 2)) / 2))
                             ((1 # 2) + ((1 # 2) - ((1 # 4) + (1 # 2)) / 2))
                             ((1 # 4) + ((1 # 2) - ((1 # 4) + (1 # 2)) / 2))
                             ((1 # 2) + ((1 # 2) - ((1 # 4) + (1 # 2)) / 2))) /\
    selected_rect <$> SegmentViewer.segments v' !! 0%nat
    = Some (mkSelectedRect 0 (1 # 4) (1 # 2) (1 # 4) (1 # 2)).
Proof.
  intros event.
  destruct (C6_cross_page_drop_recenters two_page_dragging_example event 0
              (new_Segment (mkSelectedRect 0 (1 # 4) (1 # 2) (1 # 4) (1 # 2))
                 (Qt.mkQSize 50 50)) 1)
    as (v' & Hrun & Htarget & Hselected & _).
  - reflexivity.
  - reflexivity.
  - reflexivity.
  - vm_compute. reflexivity.
  - simpl. lia.
  - exists v'. split; [exact Hrun|]. split; [exact Htarget|exact Hselected].
Defined.

(** ** Rubber-band selection (viewer/image_pages_viewer.py) *)

Lemma ltb_true (a b : Q) : ClipSelectViewer.ltb a b = true <-> (a < b)%Q.
Proof.
  unfold ClipSelectViewer.ltb. rewrite negb_true_iff.
  split; intros H.
  - apply Qnot_le_lt. intros Hle. apply Qle_bool_iff in Hle. congruence.
  - destruct (Qle_bool b a) eqn:E; [|reflexivity].
    apply Qle_bool_iff in E. exfalso. exact (Qlt_not_le _ _ H E).
Qed.

Lemma ltb_false (a b : Q) : ClipSelectViewer.ltb a b = false <-> (b <= a)%Q.
Proof.
  unfold ClipSelectViewer.ltb. rewrite negb_false_iff. apply Qle_bool_iff.
Qed.

Lemma truediv_nonzero (a b : Q) : ~ (b == 0)%Q -> Py.truediv a b = Py.Ok (a / b)%Q.
Proof.
  intros Hb. unfold Py.truediv.
  destruct (Qeq_bool b 0) eqn:E; [|reflexivity].
  apply Qeq_bool_iff in E. contradiction.
Qed.

Lemma fraction_bounds (a lo hi : Q) :
  (lo < hi -> lo <= a -> a <= hi ->
   0 <= (a - lo) / (hi - lo) /\ (a - lo) / (hi - lo) <= 1)%Q.
Proof.
  intros Hlh Hla Hah. split.
  - apply Qle_shift_div_l; lra.
  - apply Qle_shift_div_r; lra.
Qed.

Lemma fraction_mono (a b lo hi : Q) :
  (lo < hi -> a <= b -> (a - lo) / (hi - lo) <= (b - lo) / (hi - lo))%Q.
Proof.
  intros Hlh Hab. unfold Qdiv. apply Qmult_le_compat_r; [lra|].
  apply Qlt_le_weak, Qinv_lt_0_compat. lra.
Qed.

(** One page of the loop, for a page of positive extent. *)
Lemma select_on_page_spec (widget_width rect_left rect_right rect_top rect_bottom : Z)
    (i : nat) (position : Q * Q * Q) :
  rect_left <= rect_right -> rect_top <= rect_bottom ->
  (let '(y_start, y_end, scaled_width) := position in
   y_start < y_end /\ 0 < scaled_width)%Q ->
  (exists r,
     ClipSelectViewer.select_on_page widget_width rect_left rect_right rect_top rect_bottom
       i position = Py.Ok (Some r) /\
     page_index r = i /\ in_unit_square r /\
     page_overlaps widget_width rect_left rect_right rect_top rect_bottom position) \/
  (ClipSelectViewer.select_on_page widget_width rect_left rect_right rect_top rect_bottom
     i position = Py.Ok None /\
   ~ page_overlaps widget_width rect_left rect_right rect_top rect_bottom position).
Proof.
  intros Hx Hy. destruct position as [[y_start y_end] scaled_width]. intros [Hband Hsw].
  unfold ClipSelectViewer.select_on_page, page_overlaps.
  set (page_x_start := Py.floordiv_float (inject_Z widget_width - scaled_width) 2).
  assert (HxQ : (inject_Z rect_left <= inject_Z rect_right)%Q) by (rewrite <- Zle_Qle; exact Hx).
  assert (HyQ : (inject_Z rect_top <= inject_Z rect_bottom)%Q) by (rewrite <- Zle_Qle; exact Hy).
  destruct (ClipSelectViewer.ltb (inject_Z rect_bottom) y_start) eqn:E1.
  { right. split; [reflexivity|]. apply ltb_true in E1. intros (H1 & _). lra. }
  destruct (ClipSelectViewer.ltb y_end (inject_Z rect_top)) eqn:E2.
  { right. split; [reflexivity|]. apply ltb_true in E2. intros (_ & H2 & _). lra. }
  destruct (ClipSelectViewer.ltb (inject_Z rect_right) page_x_start) eqn:E3.
  { right. split; [reflexivity|]. apply ltb_true in E3. intros (_ & _ & H3 & _). lra. }
  destruct (ClipSelectViewer.ltb (page_x_start + scaled_width) (inject_Z rect_left)) eqn:E4.
  { right. split; [reflexivity|]. apply ltb_true in E4. intros (_ & _ & _ & H4). lra. }
  apply ltb_false in E1, E2, E3, E4. left. simpl orb. cbv iota.
  assert (Hdx : ~ (page_x_start + scaled_width - page_x_start == 0)%Q) by lra.
  assert (Hdy : ~ (y_end - y_start == 0)%Q) by lra.
  rewrite !(truediv_nonzero _ _ Hdx), !(truediv_nonzero _ _ Hdy).
  eexists. split; [reflexivity|]. split; [reflexivity|]. split; [|lra].
  destruct (Q.max_spec (inject_Z rect_left) page_x_start) as [[? Hl]|[? Hl]],
           (Q.min_spec (inject_Z rect_right) (page_x_start + scaled_width)) as [[? Hr]|[? Hr]],
           (Q.max_spec (inject_Z rect_top) y_start) as [[? Ht]|[? Ht]],
           (Q.min_spec (inject_Z rect_bottom) y_end) as [[? Hb]|[? Hb]];
    unfold in_unit_square; simpl;
    repeat split;
    first [ apply fraction_bounds; lra | apply fraction_mono; lra ].
Qed.

(** The whole loop, over pages of positive extent: it ends normally, and
    the emitted rectangles are the overlapping pages in ascending order. *)
Lemma select_on_pages_spec (widget_width rect_left rect_right rect_top rect_bottom : Z)
    (positions : list (Q * Q * Q)) :
  rect_left <= rect_right -> rect_top <= rect_bottom ->
  Forall (fun '(y_start, y_end, scaled_width) =>
            (y_start < y_end /\ 0 < scaled_width)%Q) positions ->
  forall k : nat,
  exists emitted,
    ClipSelectViewer.select_on_pages widget_width rect_left rect_right rect_top rect_bottom
      k positions = (emitted, None) /\
    Forall in_unit_square emitted /\
    Forall (fun r => (k <= page_index r < k + length positions)%nat) emitted /\
    StronglySorted lt (map page_index emitted) /\
    (forall i position, positions !! i = Some position ->
       page_overlaps widget_width rect_left rect_right rect_top rect_bottom position
       <-> (k + i)%nat ∈ map page_index emitted).
Proof.
  intros Hx Hy Hpos. induction Hpos as [|position rest Hhead _ IH]; intros k.
  - exists []. simpl. repeat split; try constructor.
    + intros _. discriminate.
    + intros Hin. discriminate.
  - destruct (IH (S k)) as (later & Hrun & Hunit & Hrange & Hsorted & Hmem).
    assert (Hlater : forall j, j ∈ map page_index later -> (S k <= j)%nat).
    { intros j Hj. apply list_elem_of_fmap in Hj as (r & -> & Hr).
      rewrite Forall_forall in Hrange. apply Hrange in Hr. lia. }
    simpl ClipSelectViewer.select_on_pages. rewrite Hrun.
    destruct (select_on_page_spec widget_width rect_left rect_right rect_top rect_bottom
                k position Hx Hy) as [(r & -> & Hidx & Hr & Hov)|(-> & Hnov)].
    { destruct position as [[? ?] ?]. exact Hhead. }
    + exists (r :: later). split; [reflexivity|]. split; [constructor; assumption|].
      split; [|split].
      * constructor; [simpl; lia|].
        eapply Forall_impl; [exact Hrange|]. simpl. intros; lia.
      * simpl. constructor; [exact Hsorted|].
        rewrite Forall_forall. intros j Hj. apply Hlater in Hj. lia.
      * intros [|i] pos Hlook; simpl in Hlook.
        -- injection Hlook as <-. rewrite Nat.add_0_r. simpl. rewrite Hidx.
           split; [intros _; apply list_elem_of_here|intros _; exact Hov].
        -- rewrite (Hmem i pos Hlook). simpl. rewrite elem_of_cons.
           replace (k + S i)%nat with (S k + i)%nat by lia.
           split; [intros H; right; exact H|intros [H|H]; [lia|exact H]].
    + exists later. split; [reflexivity|]. split; [assumption|]. split; [|split].
      * eapply Forall_impl; [exact Hrange|]. simpl. intros; lia.
      * exact Hsorted.
      * intros [|i] pos Hlook; simpl in Hlook.
        -- injection Hlook as <-. rewrite Nat.add_0_r.
           split; [intros H; contradiction|intros H; apply Hlater in H; lia].
        -- rewrite (Hmem i pos Hlook).
           replace (k + S i)%nat with (S k + i)%nat by lia. reflexivity.
Qed.

Lemma page_positions_positive (zoom : Q) (imgs : list Qt.QSize) :
  (0 < zoom)%Q ->
  Forall (fun img => 0 < Qt.width img /\ 0 < Qt.height img) imgs ->
  forall y_offset,
  Forall (fun '(y_start, y_end, scaled_width) =>
            (y_start < y_end /\ 0 < scaled_width)%Q)
         (ClipSelectViewer.page_positions_from y_offset zoom imgs).
Proof.
  intros Hzoom Himgs. induction Himgs as [|img rest [Hw Hh] _ IH]; intros y_offset; simpl.
  - constructor.
  - constructor; [|apply IH].
    assert (0 < inject_Z (Qt.width img))%Q by (rewrite Zlt_Qlt in Hw; exact Hw).
    assert (0 < inject_Z (Qt.height img))%Q by (rewrite Zlt_Qlt in Hh; exact Hh).
    split; [|nra]. 
    assert (0 < inject_Z (Qt.height img) * zoom)%Q by nra. lra.
Qed.

(** C8. In a viewer with a positive zoom factor and pages of positive
    dimensions, a processed rubber-band selection ends normally; every
    [SelectedRect] it emits satisfies [0 <= x_min <= x_max <= 1] and
    [0 <= y_min <= y_max <= 1]; its [page_index] is the index of a page whose
    layout band overlaps the selection rectangle; and exactly one rectangle
    is emitted per overlapping page, in ascending page order. *)
Theorem C8_selection_emits_unit_rects
    (v : ClipSelectViewer.t) (select_start_pos select_end_pos : Qt.QPoint) :
  (0 < ScrollViewer.zoom_factor (ClipSelectViewer.base v))%Q ->
  Forall (fun img => 0 < Qt.width img /\ 0 < Qt.height img) (ClipSelectViewer.images v) ->
  let rect_left := Z.min (Qt.x select_start_pos) (Qt.x select_end_pos) in
  let rect_right := Z.max (Qt.x select_start_pos) (Qt.x select_end_pos) in
  let rect_top := Z.min (Qt.y select_start_pos) (Qt.y select_end_pos) in
  let rect_bottom := Z.max (Qt.y select_start_pos) (Qt.y select_end_pos) in
  let positions := ClipSelectViewer.get_page_positions v in
  let widget_width := ScrollViewer.widget_width (ClipSelectViewer.base v) in
  exists emitted,
    ClipSelectViewer.process_selection v select_start_pos select_end_pos = (emitted, None) /\
    Forall in_unit_square emitted /\
    Forall (fun r => exists position,
              positions !! page_index r = Some position /\
              band_overlaps rect_top rect_bottom position) emitted /\
    StronglySorted lt (map page_index emitted) /\
    (forall i position, positions !! i = Some position ->
       page_overlaps widget_width rect_left rect_right rect_top rect_bottom position
       <-> i ∈ map page_index emitted).
Proof.
  intros Hzoom Himgs rect_left rect_right rect_top rect_bottom positions widget_width.
  destruct (select_on_pages_spec widget_width rect_left rect_right rect_top rect_bottom
              positions ltac:(lia) ltac:(lia)
              (page_positions_positive _ _ Hzoom Himgs _) 0%nat)
    as (emitted & Hrun & Hunit & Hrange & Hsorted & Hmem).
  exists emitted. split; [exact Hrun|]. split; [exact Hunit|].
  split; [|split; [exact Hsorted|exact Hmem]].
  rewrite Forall_forall in Hrange |- *. intros r Hr.
  destruct (Hrange r Hr) as [_ Hlt]. simpl in Hlt.
  destruct (lookup_lt_is_Some_2 positions (page_index r) Hlt) as [position Hlook].
  exists position. split; [exact Hlook|].
  assert (Hov : page_overlaps widget_width rect_left rect_right rect_top rect_bottom position).
  { apply (Hmem _ _ Hlook). simpl. apply list_elem_of_fmap. exists r. split; [reflexivity|exact Hr]. }
  destruct position as [[y_start y_end] scaled_width]. simpl in Hov |- *.
  destruct Hov as (H1 & H2 & _). split; assumption.
Qed.

Lemma C8_selection_witness :
  exists emitted,
    ClipSelectViewer.process_selection
      (selecting_example (Qt.mkQPoint 50 50) (Qt.mkQPoint 150 500))
      (Qt.mkQPoint 50 50) (Qt.mkQPoint 150 500) = (emitted, None) /\
    Forall in_unit_square emitted /\
    map page_index emitted = [0%nat; 1%nat].
Proof.
  destruct (C8_selection_emits_unit_rects
              (selecting_example (Qt.mkQPoint 50 50) (Qt.mkQPoint 150 500))
              (Qt.mkQPoint 50 50) (Qt.mkQPoint 150 500))
    as (emitted & Hrun & Hunit & _).
  - reflexivity.
  - simpl. repeat constructor.
  - exists emitted. split; [exact Hrun|]. split; [exact Hunit|].
    vm_compute in Hrun. injection Hrun as <-. reflexivity.
Defined.

(** C9. On the release that ends a rubber band: when the pixel delta between
    the recorded end and start positions is below 4 in both axes, the
    gesture is discarded and no selection signal is emitted; otherwise the
    signals are those of [process_selection] on the two positions.  Either
    way the rubber band is over. *)
Theorem C9_release_threshold
    (v : ClipSelectViewer.t) (event : Qt.QMouseEvent) (start_pos end_pos : Qt.QPoint) :
  ClipSelectViewer.selecting v = true ->
  Qt.button event = Qt.LeftButton ->
  ClipSelectViewer.select_start_pos v = Some start_pos ->
  ClipSelectViewer.select_end_pos v = Some end_pos ->
  let delta := Qt.QPoint_sub end_pos start_pos in
  let v1 := ClipSelectViewer.set_selecting false v in
  (Z.abs (Qt.x delta) < 4 /\ Z.abs (Qt.y delta) < 4 ->
   ClipSelectViewer.mouseReleaseEvent v event = (Py.Returned v1, [])) /\
  (~ (Z.abs (Qt.x delta) < 4 /\ Z.abs (Qt.y delta) < 4) ->
   snd (ClipSelectViewer.mouseReleaseEvent v event)
   = fst (ClipSelectViewer.process_selection v1 start_pos end_pos) /\
   Py.state_of (fst (ClipSelectViewer.mouseReleaseEvent v event)) = v1).
Proof.
  intros Hsel Hbutton Hstart Hend delta v1.
  unfold ClipSelectViewer.mouseReleaseEvent.
  rewrite Hsel, Hbutton, Hstart, Hend. cbn [andb Qt.MouseButton_eqb]. subst delta v1.
  split.
  - intros [Hx Hy].
    apply Z.ltb_lt in Hx, Hy. rewrite Hx, Hy. reflexivity.
  - intros Hbig.
    destruct ((Z.abs (Qt.x (Qt.QPoint_sub end_pos start_pos)) <? 4)
              && (Z.abs (Qt.y (Qt.QPoint_sub end_pos start_pos)) <? 4)) eqn:E.
    + exfalso. apply Hbig. apply andb_prop in E as [Hx Hy].
      apply Z.ltb_lt in Hx, Hy. split; assumption.
    + destruct (ClipSelectViewer.process_selection _ start_pos end_pos) as [emitted [e|]];
        split; reflexivity.
Qed.

Lemma C9_release_threshold_witness :
  let event :=
    Qt.mkMouseEvent (Qt.mkQPoint 52 52) Qt.LeftButton (Qt.mkButtons false false false)
      (Qt.mkModifiers false true false false) in
  snd (ClipSelectViewer.mouseReleaseEvent
         (selecting_example (Qt.mkQPoint 50 50) (Qt.mkQPoint 52 52)) event) = [].
Proof.
  intros event.
  rewrite (proj1 (C9_release_threshold
                    (selecting_example (Qt.mkQPoint 50 50) (Qt.mkQPoint 52 52)) event
                    (Qt.mkQPoint 50 50) (Qt.mkQPoint 52 52)
                    eq_refl eq_refl eq_refl eq_refl)).
  - reflexivity.
  - split; vm_compute; reflexivity.
Defined.

(** ** Scrolling and zooming (viewer/scroll_viewer.py) *)

Section ScrollViewerProperties.
Context {V : Type} `{ScrollViewer.ViewerLaws V}.

(** What the clamp guarantees, for a widget of non-negative height: the
    offset ends between [min_offset] and [max_offset] as the code computes
    them. *)
Lemma clamp_scroll_offset_range (v : V) :
  0 <= ScrollViewer.widget_height (ScrollViewer.viewer_base v) ->
  let v' := ScrollViewer.clamp_scroll_offset v in
  ScrollViewer.min_offset v
  <= ScrollViewer.scroll_offset (ScrollViewer.viewer_base v')
  <= ScrollViewer.max_offset v.
Proof.
  intros Hh v'. subst v'. unfold ScrollViewer.clamp_scroll_offset.
  rewrite ScrollViewer.viewer_base_with_base. simpl.
  assert (ScrollViewer.min_offset v <= 0).
  { unfold ScrollViewer.min_offset, Py.floordiv.
    apply Z.div_le_upper_bound; lia. }
  assert (0 <= ScrollViewer.max_offset v) by (unfold ScrollViewer.max_offset; lia).
  lia.
Qed.

(** The clamp does nothing to an offset already in range. *)
Lemma clamp_scroll_offset_in_range (v : V) :
  ScrollViewer.min_offset v
  <= ScrollViewer.scroll_offset (ScrollViewer.viewer_base v)
  <= ScrollViewer.max_offset v ->
  ScrollViewer.scroll_offset (ScrollViewer.viewer_base (ScrollViewer.clamp_scroll_offset v))
  = ScrollViewer.scroll_offset (ScrollViewer.viewer_base v).
Proof.
  intros Hrange. unfold ScrollViewer.clamp_scroll_offset.
  rewrite ScrollViewer.viewer_base_with_base. simpl. lia.
Qed.

(** The lower end of the clamp range: [-(height // 2)] for an even height,
    one pixel lower for an odd height. *)
Lemma min_offset_even (v : V) :
  Z.even (ScrollViewer.widget_height (ScrollViewer.viewer_base v)) = true ->
  ScrollViewer.min_offset v = - (ScrollViewer.widget_height (ScrollViewer.viewer_base v) / 2).
Proof.
  intros Heven. unfold ScrollViewer.min_offset, Py.floordiv.
  apply Z.even_spec in Heven as [k ->].
  rewrite <- Z.mul_opp_r, !(Z.mul_comm 2), !Z.div_mul by lia. reflexivity.
Qed.

Lemma min_offset_odd (v : V) :
  Z.odd (ScrollViewer.widget_height (ScrollViewer.viewer_base v)) = true ->
  ScrollViewer.min_offset v
  = - (ScrollViewer.widget_height (ScrollViewer.viewer_base v) / 2) - 1.
Proof.
  intros Hodd. unfold ScrollViewer.min_offset, Py.floordiv.
  apply Z.odd_spec in Hodd as [k ->].
  replace (- (2 * k + 1)) with (1 + (- k - 1) * 2) by lia.
  replace (2 * k + 1) with (1 + k * 2) by lia.
  rewrite !Z.div_add by lia. change (1 / 2) with 0. lia.
Qed.

(** For an even height the clamp range is the interval
    [[-(height // 2), max(0, content_height - height // 2)]]; for an odd
    height its lower end is one pixel lower. *)
Lemma clamp_scroll_offset_even_height (v : V) :
  let height := ScrollViewer.widget_height (ScrollViewer.viewer_base v) in
  0 <= height -> Z.even height = true ->
  - (height / 2)
  <= ScrollViewer.scroll_offset (ScrollViewer.viewer_base (ScrollViewer.clamp_scroll_offset v))
  <= Z.max 0 (ScrollViewer.get_content_height v - height / 2).
Proof.
  intros height Hh Heven.
  pose proof (clamp_scroll_offset_range v Hh) as Hrange. cbv zeta in Hrange.
  rewrite (min_offset_even v Heven) in Hrange. exact Hrange.
Qed.

Lemma clamp_scroll_offset_odd_height (v : V) :
  let height := ScrollViewer.widget_height (ScrollViewer.viewer_base v) in
  0 <= height -> Z.odd height = true ->
  - (height / 2) - 1
  <= ScrollViewer.scroll_offset (ScrollViewer.viewer_base (ScrollViewer.clamp_scroll_offset v))
  <= Z.max 0 (ScrollViewer.get_content_height v - height / 2).
Proof.
  intros height Hh Hodd.
  pose proof (clamp_scroll_offset_range v Hh) as Hrange. cbv zeta in Hrange.
  rewrite (min_offset_odd v Hodd) in Hrange. exact Hrange.
Qed.

(** The zoom range in binary64. *)
Lemma min_zoom64_bounds :
  (1 # 10 <= ScrollViewer64.min_zoom /\ ScrollViewer64.min_zoom <= ScrollViewer64.max_zoom)%Q.
Proof. split; vm_compute; intros Hc; discriminate Hc. Qed.

Lemma stepped_zoom64_in_range (delta : Z) (zoom : Q) :
  (ScrollViewer64.min_zoom <= ScrollViewer64.stepped_zoom delta zoom /\
   ScrollViewer64.stepped_zoom delta zoom <= ScrollViewer64.max_zoom)%Q.
Proof.
  unfold ScrollViewer64.stepped_zoom. split.
  - apply Q.le_max_l.
  - apply Q.max_lub; [apply min_zoom64_bounds|apply Q.le_min_l].
Qed.

Lemma Qabs_mult_le (a b A B : Q) :
  (Qabs a <= A -> Qabs b <= B -> Qabs (a * b) <= A * B)%Q.
Proof.
  intros Ha Hb. rewrite Qabs_Qmult.
  pose proof (Qabs_nonneg a). pose proof (Qabs_nonneg b).
  apply Qle_trans with (Qabs a * B)%Q.
  - rewrite !(Qmult_comm (Qabs a)). apply Qmult_le_compat_r; assumption.
  - apply Qmult_le_compat_r; [assumption|lra].
Qed.

(** The rescaled content coordinate, as the two float operations compute
    it, against the exact product: for a coordinate below [2 ^ 32] and zoom
    factors in the zoom range the two differ by less than a ten-thousandth
    of a pixel. *)
Lemma content_y_after_error (content_y_before : Z) (new_zoom old_zoom : Q) :
  Z.abs content_y_before < 2 ^ 32 ->
  (ScrollViewer64.min_zoom <= old_zoom)%Q ->
  (0 <= new_zoom)%Q -> (new_zoom <= ScrollViewer64.max_zoom)%Q ->
  let content_y_after :=
    Float64.mul (Float64.of_int content_y_before) (Float64.div new_zoom old_zoom) in
  (Qabs (content_y_after - inject_Z content_y_before * (new_zoom / old_zoom))
   <= 1 # 10000)%Q /\
  (Qabs content_y_after < Float64.pow2 38)%Q.
Proof.
  intros Hn Hold Hnew0 Hnew content_y_after.
  destruct min_zoom64_bounds as [Hmin _]. unfold ScrollViewer64.max_zoom in Hnew.
  assert (Hpos : (0 < old_zoom)%Q) by lra.
  set (q := (new_zoom / old_zoom)%Q) in *.
  assert (Hq : (0 <= q /\ q <= 50)%Q).
  { subst q. split.
    - apply Qle_shift_div_l; [exact Hpos|lra].
    - apply Qle_shift_div_r; [exact Hpos|lra]. }
  assert (Heta : (0 <= Float64.eta /\ Float64.eta <= 1 # 2 ^ 60)%Q)
    by (split; vm_compute; intros Hc; discriminate Hc).
  pose proof (round_error q) as Hratio.
  set (scale_ratio := Float64.div new_zoom old_zoom) in *.
  change (Float64.round q) with scale_ratio in Hratio.
  rewrite (Qabs_pos q) in Hratio by lra.
  assert (Hint : (Float64.of_int content_y_before == inject_Z content_y_before)%Q)
    by (apply round_inject_Z; lia).
  assert (Hnabs : (Qabs (inject_Z content_y_before) <= inject_Z (2 ^ 32))%Q).
  { unfold Qabs, Qle, inject_Z; simpl. lia. }
  change (inject_Z (2 ^ 32)) with (4294967296 # 1)%Q in Hnabs.
  change Float64.u with (1 # 9007199254740992)%Q in *.
  change (1 # 2 ^ 60)%Q with (1 # 1152921504606846976)%Q in Heta.
  set (eta := Float64.eta) in *.
  assert (Hdelta : (Qabs (scale_ratio - q) <= 51 # 9007199254740992)%Q) by lra.
  assert (Hscale : (Qabs scale_ratio <= 51)%Q).
  { apply Qabs_Qle_condition in Hdelta. apply Qabs_Qle_condition. lra. }
  pose proof (round_error (Float64.of_int content_y_before * scale_ratio)) as Hproduct.
  change (Float64.round (Float64.of_int content_y_before * scale_ratio))
    with content_y_after in Hproduct.
  change Float64.u with (1 # 9007199254740992)%Q in Hproduct.
  change Float64.eta with eta in Hproduct.
  assert (Hp : (Qabs (Float64.of_int content_y_before * scale_ratio) <= 4294967296 * 51)%Q).
  { apply Qabs_mult_le; [rewrite Hint; exact Hnabs|exact Hscale]. }
  assert (Hshift : (Qabs (inject_Z content_y_before * (scale_ratio - q))
                    <= 4294967296 * (51 # 9007199254740992))%Q)
    by (apply Qabs_mult_le; assumption).
  assert (Hexact : (Qabs (inject_Z content_y_before * q) <= 4294967296 * 50)%Q).
  { apply Qabs_mult_le; [exact Hnabs|]. rewrite Qabs_pos; lra. }
  assert (Hsplit : (content_y_after - inject_Z content_y_before * q
                    == (content_y_after - Float64.of_int content_y_before * scale_ratio)
                       + inject_Z content_y_before * (scale_ratio - q))%Q)
    by (rewrite Hint; ring).
  assert (Herror : (Qabs (content_y_after - inject_Z content_y_before * q) <= 1 # 10000)%Q).
  { rewrite Hsplit.
    eapply Qle_trans; [apply Qabs_triangle|]. lra. }
  split; [exact Herror|].
  assert (Hafter : (Qabs content_y_after <= 4294967296 * 50 + 1)%Q).
  { apply Qabs_Qle_condition in Herror, Hexact. apply Qabs_Qle_condition. lra. }
  apply Qle_lt_trans with (4294967296 * 50 + 1)%Q; [exact Hafter|].
  vm_compute. reflexivity.
Qed.

(** C1. A Ctrl+wheel zoom gesture, in binary floating point as the code
    runs it: on a viewer whose zoom factor is in the zoom range, whose
    height is a non-negative 32-bit number and whose scroll offset is below
    [2 ^ 31] in magnitude, the handler returns normally.  With
    [center_y = height // 2], the old zoom and offset, and the new zoom
    clamped to the zoom range, the offset is set to
    [int((center_y + old_offset) * (new_zoom / old_zoom) - center_y)], each
    operation rounded to a float, and then clamped.  When that value lies
    inside the clamp range it is the final offset, and the content
    coordinate at the viewport centre after the step is less than one pixel
    away from the rescaled coordinate [content_y_after] of the point that
    was at the centre before it, which itself is the exact product
    [(center_y + old_offset) * (new_zoom / old_zoom)] to within a
    ten-thousandth of a pixel of float rounding. *)
Theorem C1_zoom_keeps_center_anchor (v : V) (event : Qt.QWheelEvent) :
  Qt.modifiers_eq_control (Qt.wheel_modifiers event) = true ->
  let height := ScrollViewer.widget_height (ScrollViewer.viewer_base v) in
  let old_zoom := ScrollViewer.zoom_factor (ScrollViewer.viewer_base v) in
  let old_offset := ScrollViewer.scroll_offset (ScrollViewer.viewer_base v) in
  (ScrollViewer64.min_zoom <= old_zoom)%Q -> (old_zoom <= ScrollViewer64.max_zoom)%Q ->
  0 <= height < 2 ^ 31 ->
  Z.abs old_offset < 2 ^ 31 ->
  let center_y := height / 2 in
  let new_zoom := ScrollViewer64.stepped_zoom (Qt.angleDelta_y event) old_zoom in
  let scale_ratio := Float64.div new_zoom old_zoom in
  let content_y_after := Float64.mul (Float64.of_int (center_y + old_offset)) scale_ratio in
  let new_offset := Py.int (Float64.sub content_y_after (Float64.of_int center_y)) in
  let zoomed :=
    ScrollViewer.with_base
      (ScrollViewer.set_scroll_offset new_offset
         (ScrollViewer.set_zoom_factor new_zoom (ScrollViewer.viewer_base v))) v in
  let v' := Py.state_of (ScrollViewer64.wheelEvent v event) in
  ScrollViewer64.wheelEvent v event
  = Py.Returned (ScrollViewer.on_zoom_changed (ScrollViewer.clamp_scroll_offset zoomed)) /\
  ScrollViewer.zoom_factor (ScrollViewer.viewer_base v') = new_zoom /\
  (ScrollViewer.min_offset zoomed <= new_offset <= ScrollViewer.max_offset zoomed ->
   ScrollViewer.scroll_offset (ScrollViewer.viewer_base v') = new_offset /\
   (Qabs (inject_Z (center_y + ScrollViewer.scroll_offset (ScrollViewer.viewer_base v'))
          - content_y_after) < 1)%Q /\
   (Qabs (content_y_after - inject_Z (center_y + old_offset) * (new_zoom / old_zoom))
    <= 1 # 10000)%Q).
Proof.
  intros Hctrl height old_zoom old_offset Hlow Hhigh Hheight Hoffset
    center_y new_zoom scale_ratio content_y_after new_offset zoomed v'.
  destruct min_zoom64_bounds as [Hmin _].
  assert (Hrun : ScrollViewer64.wheelEvent v event
                 = Py.Returned (ScrollViewer.on_zoom_changed
                                  (ScrollViewer.clamp_scroll_offset zoomed))).
  { unfold ScrollViewer64.wheelEvent. rewrite Hctrl.
    rewrite !ScrollViewer.viewer_base_with_base. simpl ScrollViewer.zoom_factor.
    unfold Float64.truediv. fold old_zoom.
    destruct (Qeq_bool old_zoom 0) eqn:Ezero.
    - apply Qeq_bool_iff in Ezero. exfalso. lra.
    - rewrite ScrollViewer.with_base_with_base. reflexivity. }
  assert (Hbase : ScrollViewer.viewer_base zoomed
                  = ScrollViewer.set_scroll_offset new_offset
                      (ScrollViewer.set_zoom_factor new_zoom (ScrollViewer.viewer_base v))).
  { apply ScrollViewer.viewer_base_with_base. }
  subst v'. rewrite Hrun. simpl Py.state_of.
  rewrite ScrollViewer.on_zoom_changed_base.
  split; [reflexivity|split].
  - unfold ScrollViewer.clamp_scroll_offset.
    rewrite ScrollViewer.viewer_base_with_base, Hbase. reflexivity.
  - intros Hrange.
    assert (Hfinal : ScrollViewer.scroll_offset
                       (ScrollViewer.viewer_base (ScrollViewer.clamp_scroll_offset zoomed))
                     = new_offset).
    { rewrite clamp_scroll_offset_in_range; rewrite Hbase; [reflexivity|exact Hrange]. }
    split; [exact Hfinal|]. rewrite Hfinal.
    assert (Hcenter : 0 <= center_y < 2 ^ 30).
    { subst center_y. split; [apply Z.div_pos; lia|].
      apply Z.div_lt_upper_bound; lia. }
    destruct (stepped_zoom64_in_range (Qt.angleDelta_y event) old_zoom) as [Hnew1 Hnew2].
    fold new_zoom in Hnew1, Hnew2.
    destruct (content_y_after_error (center_y + old_offset) new_zoom old_zoom)
      as [Herror Hafter]; [lia|exact Hlow|lra|exact Hnew2|].
    fold scale_ratio in Herror, Hafter. fold content_y_after in Herror, Hafter.
    split; [|exact Herror].
    assert (Hint : (Float64.of_int center_y == inject_Z center_y)%Q)
      by (apply round_inject_Z; lia).
    assert (Hcabs : (Qabs (inject_Z center_y) <= Float64.pow2 30)%Q).
    { rewrite (pow2_nonneg_Z 30) by lia. unfold Qabs, Qle, inject_Z; simpl. lia. }
    assert (Hbound : (Qabs (content_y_after - Float64.of_int center_y) < Float64.pow2 53)%Q).
    { assert (Hsum : (Float64.pow2 38 + Float64.pow2 30 < Float64.pow2 53)%Q)
        by (vm_compute; reflexivity).
      apply Qabs_Qlt_condition in Hafter. apply Qabs_Qle_condition in Hcabs.
      apply Qabs_Qlt_condition. rewrite Hint. lra. }
    pose proof (int_round_within_one _ Hbound) as Hone.
    fold (Float64.sub content_y_after (Float64.of_int center_y)) in Hone.
    fold new_offset in Hone.
    apply Qle_lt_trans
      with (Qabs (inject_Z new_offset - (content_y_after - Float64.of_int center_y)));
      [|exact Hone].
    apply Qle_lteq; right. apply Qabs_wd.
    rewrite inject_Z_plus, Hint. ring.
Qed.

End ScrollViewerProperties.

Lemma C1_zoom_anchor_witness :
  let event := Qt.mkWheelEvent 120 (Qt.mkModifiers false true false false) in
  let v' := Py.state_of (ScrollViewer64.wheelEvent fitted_source_example event) in
  ScrollViewer.scroll_offset (ClipSelectViewer.base fitted_source_example) = -10 /\
  ScrollViewer.zoom_factor (ClipSelectViewer.base fitted_source_example)
  = (4278419646001971 # 2251799813685248)%Q /\
  ScrollViewer.scroll_offset (ClipSelectViewer.base v') = 3 /\
  (Qabs (inject_Z (150 + 3) - (5418393301680127 # 35184372088832)) < 1)%Q.
Proof.
  intros event v'. split; [reflexivity|]. split; [vm_compute; reflexivity|].
  destruct (C1_zoom_keeps_center_anchor fitted_source_example event) as (_ & _ & Hanchor).
  - reflexivity.
  - vm_compute. intros Hc; discriminate Hc.
  - vm_compute. intros Hc; discriminate Hc.
  - vm_compute. split; [intros Hc; discriminate Hc|reflexivity].
  - vm_compute. reflexivity.
  - destruct Hanchor as (Hoffset & Hnear & _).
    + vm_compute. split; intros Hc; discriminate Hc.
    + split.
      * subst v'. etransitivity; [exact Hoffset|]. vm_compute. reflexivity.
      * vm_compute. reflexivity.
Defined.

Lemma content_height_stable_source : content_height_stable ClipSelectViewer.t.
Proof. repeat split. Qed.

Lemma content_height_stable_target : content_height_stable SegmentViewer.t.
Proof. repeat split. Qed.

Section ClampRange.
Context {V : Type} `{ScrollViewer.ViewerLaws V}.
Hypothesis Hstable : content_height_stable V.

Lemma clamp_scroll_offset_scroll_in_range (u : V) :
  0 <= ScrollViewer.widget_height (ScrollViewer.viewer_base u) ->
  scroll_in_range (ScrollViewer.clamp_scroll_offset u).
Proof.
  intros Hu. destruct Hstable as (Hscroll & _ & _).
  pose proof (clamp_scroll_offset_range u Hu) as Hrange. cbv zeta in Hrange.
  assert (Hbase : ScrollViewer.viewer_base (ScrollViewer.clamp_scroll_offset u)
                  = ScrollViewer.set_scroll_offset
                      (Z.max (ScrollViewer.min_offset u)
                         (Z.min (ScrollViewer.scroll_offset (ScrollViewer.viewer_base u))
                            (ScrollViewer.max_offset u)))
                      (ScrollViewer.viewer_base u))
    by apply ScrollViewer.viewer_base_with_base.
  assert (Hcontent : ScrollViewer.get_content_height (ScrollViewer.clamp_scroll_offset u)
                     = ScrollViewer.get_content_height u) by apply Hscroll.
  unfold scroll_in_range. rewrite Hcontent. rewrite Hbase in Hrange |- *.
  exact Hrange.
Qed.

(** C2 (as amended). On a viewer of non-negative height, after every state
    change that runs the clamp (a wheel event that returns, scrolling or
    zooming, and a drag-to-pan move), [scroll_offset] lies in the interval
    from the floor of [-height / 2] to
    [max(0, content_height - height // 2)], for the height of the viewport,
    which the change leaves as it was, and the content height of the viewer
    afterwards.  The lower end is [-(height // 2)] for an even height and
    [-(height // 2) - 1] for an odd one. *)
Theorem C2_scroll_offset_within_clamp_range (v : V) :
  0 <= ScrollViewer.widget_height (ScrollViewer.viewer_base v) ->
  (forall event v', ScrollViewer.wheelEvent v event = Py.Returned v' ->
     scroll_in_range v' /\
     ScrollViewer.widget_height (ScrollViewer.viewer_base v')
     = ScrollViewer.widget_height (ScrollViewer.viewer_base v)) /\
  (forall event drag_start_pos drag_start_offset,
     ScrollViewer.drag_start (ScrollViewer.viewer_base v)
     = Some (drag_start_pos, drag_start_offset) ->
     Qt.buttons_eq_left (Qt.buttons event) = true ->
     scroll_in_range (ScrollViewer.mouseMoveEvent v event) /\
     ScrollViewer.widget_height (ScrollViewer.viewer_base (ScrollViewer.mouseMoveEvent v event))
     = ScrollViewer.widget_height (ScrollViewer.viewer_base v)) /\
  (let height := ScrollViewer.widget_height (ScrollViewer.viewer_base v) in
   (Z.even height = true -> (- height) / 2 = - (height / 2)) /\
   (Z.odd height = true -> (- height) / 2 = - (height / 2) - 1)).
Proof.
  intros Hheight. destruct Hstable as (Hscroll & Hzoomhook & Hscrollhook).
  assert (Hhooked : forall u : V,
            ScrollViewer.widget_height (ScrollViewer.viewer_base u)
            = ScrollViewer.widget_height (ScrollViewer.viewer_base v) ->
            (scroll_in_range (ScrollViewer.on_zoom_changed (ScrollViewer.clamp_scroll_offset u))
             /\ ScrollViewer.widget_height
                  (ScrollViewer.viewer_base
                     (ScrollViewer.on_zoom_changed (ScrollViewer.clamp_scroll_offset u)))
                = ScrollViewer.widget_height (ScrollViewer.viewer_base v)) /\
            (scroll_in_range (ScrollViewer.on_scroll_changed (ScrollViewer.clamp_scroll_offset u))
             /\ ScrollViewer.widget_height
                  (ScrollViewer.viewer_base
                     (ScrollViewer.on_scroll_changed (ScrollViewer.clamp_scroll_offset u)))
                = ScrollViewer.widget_height (ScrollViewer.viewer_base v))).
  { intros u Hu.
    pose proof (clamp_scroll_offset_scroll_in_range u ltac:(lia)) as Hin.
    assert (Hsame : ScrollViewer.widget_height
                      (ScrollViewer.viewer_base (ScrollViewer.clamp_scroll_offset u))
                    = ScrollViewer.widget_height (ScrollViewer.viewer_base v)).
    { unfold ScrollViewer.clamp_scroll_offset.
      rewrite ScrollViewer.viewer_base_with_base. exact Hu. }
    unfold scroll_in_range in *.
    rewrite Hzoomhook, Hscrollhook, ScrollViewer.on_zoom_changed_base,
      ScrollViewer.on_scroll_changed_base.
    repeat split; first [apply Hin|exact Hsame]. }
  split; [|split].
  - intros event v'. unfold ScrollViewer.wheelEvent.
    destruct (Qt.modifiers_eq_control _).
    + destruct (Py.truediv _ _) as [scale_ratio|e]; [|discriminate].
      intros Hv'. injection Hv' as <-. apply Hhooked.
      rewrite !ScrollViewer.viewer_base_with_base. reflexivity.
    + intros Hv'. injection Hv' as <-. apply Hhooked.
      rewrite ScrollViewer.viewer_base_with_base. reflexivity.
  - intros event drag_start_pos drag_start_offset Hstart Hleft.
    unfold ScrollViewer.mouseMoveEvent. rewrite Hstart, Hleft. apply Hhooked.
    rewrite ScrollViewer.viewer_base_with_base. reflexivity.
  - cbv zeta. split.
    + intros Heven. exact (min_offset_even v Heven).
    + intros Hodd. exact (min_offset_odd v Hodd).
Qed.

End ClampRange.

Lemma C2_clamp_range_witness :
  let v := SegmentViewer.init 800 601 in
  let event := Qt.mkWheelEvent 720 (Qt.mkModifiers false false false false) in
  let v' := Py.state_of (ScrollViewer.wheelEvent v event) in
  ScrollViewer.scroll_offset (SegmentViewer.base v') = -301 /\
  (- 601) / 2 <= ScrollViewer.scroll_offset (SegmentViewer.base v')
  <= Z.max 0 (SegmentViewer.get_content_height v' - 601 / 2).
Proof.
  intros v event v'. split; [vm_compute; reflexivity|].
  destruct (C2_scroll_offset_within_clamp_range content_height_stable_target v)
    as (Hwheel & _).
  - vm_compute. discriminate.
  - destruct (Hwheel event v') as [Hrange _]; [vm_compute; reflexivity|].
    exact Hrange.
Defined.

(** C2 as stated fails for an odd height.  In a viewer 601 pixels high and
    without pages, a plain wheel event of 720 units upward runs the clamp
    and leaves [scroll_offset = -301]: below [-(height // 2) = -300], the
    lower end with integer halving, and below [-height / 2 = -300.5] as
    well.  The lower end of the clamp is written [-self.height() // 2],
    which is the floor of [-height / 2]. *)
Lemma C2_counterexample :
  let v := SegmentViewer.init 800 601 in
  let event := Qt.mkWheelEvent 720 (Qt.mkModifiers false false false false) in
  let v' := Py.state_of (ScrollViewer.wheelEvent v event) in
  let height := ScrollViewer.widget_height (SegmentViewer.base v') in
  let content_height := SegmentViewer.get_content_height v' in
  height = 601 /\ content_height = 0 /\
  ScrollViewer.scroll_offset (SegmentViewer.base v') = -301 /\
  ~ (- (height / 2) <= ScrollViewer.scroll_offset (SegmentViewer.base v')
     <= Z.max 0 (content_height - height / 2)) /\
  ~ (- (inject_Z height / 2) <= inject_Z (ScrollViewer.scroll_offset (SegmentViewer.base v')))%Q.
Proof.
  intros v event v' height content_height.
  assert (Hoff : ScrollViewer.scroll_offset (SegmentViewer.base v') = -301)
    by (vm_compute; reflexivity).
  assert (Hh : height = 601) by reflexivity.
  assert (Hc : content_height = 0) by reflexivity.
  rewrite Hoff, Hh, Hc.
  split; [reflexivity|]. split; [reflexivity|]. split; [reflexivity|]. split.
  - change (601 / 2) with 300. lia.
  - intros Hle. vm_compute in Hle. apply Hle. reflexivity.
Qed.

(** ** The stable sort of the export pass (main_window.py) *)

Section Sorted.
Context {A : Type} (key : A -> nat).







End Sorted.

(** ** The export pass (main_window.py) *)

Lemma backend_call_ok (w : Pdf.World) :
  Pdf.fault_at w = None ->
  Pdf.backend_call w = (Py.Ok tt, after_calls 1 (Pdf.new_doc_pages w) w).
Proof.
  intros Hok. unfold Pdf.backend_call.
  destruct (decide (Pdf.fault_at w = Some (Pdf.calls w))); [congruence|reflexivity].
Qed.

Lemma after_calls_after_calls (n m : nat) (p q : list Pdf.Page) (w : Pdf.World) :
  after_calls n p (after_calls m q w) = after_calls (n + m) p w.
Proof. unfold after_calls. simpl. f_equal. lia. Qed.

Lemma bind_ok {A B : Type} (m : Pdf.M A) (f : A -> Pdf.M B) (w w1 : Pdf.World) (a : A) :
  m w = (Py.Ok a, w1) -> (m ≫= f) w = f a w1.
Proof. intros Hm. unfold mbind, Pdf.M_bind. rewrite Hm. reflexivity. Qed.


Lemma doc_getitem_ok (w : Pdf.World) (i : nat) (size : Q * Q) :
  Pdf.fault_at w = None ->
  Pdf.source_pages w !! i = Some size ->
  Pdf.doc_getitem i w = (Py.Ok size, after_calls 1 (Pdf.new_doc_pages w) w).
Proof.
  intros Hok Hsize. unfold Pdf.doc_getitem.
  rewrite (bind_ok _ _ _ _ _ (backend_call_ok w Hok)).
  unfold Pdf.gets, mbind, Pdf.M_bind. cbn [Pdf.source_pages after_calls].
  rewrite Hsize. reflexivity.
Qed.













Lemma open_file_ok (w : Pdf.World) :
  Pdf.fault_at w = None ->
  Pdf.open_file w
  = (Py.Ok tt, Pdf.set_doc_open true (after_calls 1 (Pdf.new_doc_pages w) w)).
Proof.
  intros Hok. unfold Pdf.open_file.
  rewrite (bind_ok _ _ _ _ _ (backend_call_ok w Hok)). reflexivity.
Qed.




Lemma close_doc_ok (w : Pdf.World) :
  Pdf.fault_at w = None ->
  Pdf.close_doc w
  = (Py.Ok tt, Pdf.set_doc_open false (after_calls 1 (Pdf.new_doc_pages w) w)).
Proof.
  intros Hok. unfold Pdf.close_doc.
  rewrite (bind_ok _ _ _ _ _ (backend_call_ok w Hok)). reflexivity.
Qed.






(** A selection without width, which a vertical drag of the rubber band
    gives, is not exported: [show_pdf_page] rejects the empty target
    rectangle, the error is reported and nothing is saved. *)
Lemma zero_width_selection_is_not_exported :
  let segment := new_Segment (mkSelectedRect 0 (1 # 4) (1 # 4) (1 # 10) (1 # 2))
                   (Qt.mkQSize 200 80) in
  let w := MainWindow.mk (ClipSelectViewer.init 700 900)
             (SegmentViewer.add_segment (SegmentViewer.init 700 900) segment)
             (Some "in.pdf"%string) in
  let world' :=
    snd (MainWindow.on_export_file w "out.pdf"%string
           (Pdf.initial_world [(595 # 1, 842 # 1)]%Q None)) in
  Pdf.printed world' = [Py.ValueError] /\ Pdf.saved world' = [].
Proof. vm_compute. split; reflexivity. Qed.

(** *** What a failing export leaves behind *)

Section Keeps.
Context {F : Type} (field : Pdf.World -> F).

Lemma keeps_bind {A B : Type} (m : Pdf.M A) (f : A -> Pdf.M B) :
  keeps field m -> (forall a, keeps field (f a)) -> keeps field (m ≫= f).
Proof.
  intros Hm Hf w r w2. unfold mbind, Pdf.M_bind.
  destruct (m w) as [[a|e] w1] eqn:Em; intros Hrun.
  - rewrite (Hf a w1 r w2 Hrun). exact (Hm w _ w1 Em).
  - injection Hrun as <- <-. exact (Hm w _ w1 Em).
Qed.

Lemma keeps_on_error_bind {A B : Type} (m : Pdf.M A) (f : A -> Pdf.M B) :
  keeps field m -> (forall a, keeps_on_error field (f a)) -> keeps_on_error field (m ≫= f).
Proof.
  intros Hm Hf w e w2. unfold mbind, Pdf.M_bind.
  destruct (m w) as [[a|e1] w1] eqn:Em; intros Hrun.
  - rewrite (Hf a w1 e w2 Hrun). exact (Hm w _ w1 Em).
  - injection Hrun as <- <-. exact (Hm w _ w1 Em).
Qed.

Lemma keeps_ret {A : Type} (a : A) : keeps field (mret a : Pdf.M A).
Proof. intros w r w1 Hrun. injection Hrun as <- <-. reflexivity. Qed.

Lemma keeps_raise {A : Type} (e : Py.exn) : keeps field (Pdf.raise e : Pdf.M A).
Proof. intros w r w1 Hrun. injection Hrun as <- <-. reflexivity. Qed.

Lemma keeps_gets {A : Type} (f : Pdf.World -> A) : keeps field (Pdf.gets f).
Proof. intros w r w1 Hrun. injection Hrun as <- <-. reflexivity. Qed.

Lemma keeps_modify (f : Pdf.World -> Pdf.World) :
  (forall w, field (f w) = field w) -> keeps field (Pdf.modify f).
Proof. intros Hf w r w1 Hrun. injection Hrun as <- <-. apply Hf. Qed.

(** The field is none of the two that a backend call or a change of the
    output pages touches. *)
Hypothesis field_calls :
  forall w n, field (after_calls n (Pdf.new_doc_pages w) w) = field w.
Hypothesis field_new_doc_pages :
  forall w pages, field (Pdf.set_new_doc_pages pages w) = field w.

Lemma keeps_backend_call : keeps field Pdf.backend_call.
Proof.
  intros w r w1. unfold Pdf.backend_call.
  destruct (decide _); intros Hrun; injection Hrun as <- <-;
    apply (field_calls w 1).
Qed.

Lemma keeps_page_rect (page : nat) : keeps field (Pdf.page_rect page).
Proof.
  unfold Pdf.page_rect.
  apply keeps_bind; [apply keeps_gets|intros pgs].
  destruct (pgs !! _); [apply keeps_ret|apply keeps_raise].
Qed.

Lemma keeps_show_pdf_page (page : nat) (dest : Pdf.Rect) (pno : nat) (clip : Pdf.Rect) :
  keeps field (Pdf.show_pdf_page page dest pno clip).
Proof.
  unfold Pdf.show_pdf_page.
  apply keeps_bind; [apply keeps_backend_call|intros _].
  apply keeps_bind;
    [destruct (Pdf.Rect_is_empty dest); [apply keeps_raise|apply keeps_ret]|intros _].
  apply keeps_bind; [apply keeps_gets|intros pgs].
  apply keeps_bind; [destruct (pgs !! pno); [apply keeps_ret|apply keeps_raise]|].
  intros src_size.
  apply keeps_bind;
    [destruct (Pdf.Rect_is_empty _); [apply keeps_raise|apply keeps_ret]|intros _].
  apply keeps_modify. intros w. apply field_new_doc_pages.
Qed.

Lemma keeps_export_segment (segment : Segment) (current : Z * option nat) :
  keeps field (MainWindow.export_segment segment current).
Proof.
  destruct current as [current_page_index current_page].
  unfold MainWindow.export_segment.
  apply keeps_bind.
  - destruct (negb _); [|apply keeps_ret].
    apply keeps_bind.
    + unfold Pdf.doc_getitem.
      apply keeps_bind; [apply keeps_backend_call|intros _].
      apply keeps_bind; [apply keeps_gets|intros pgs].
      destruct (pgs !! _); [apply keeps_ret|apply keeps_raise].
    + intros source_page. apply keeps_bind; [|intros page; apply keeps_ret].
      unfold Pdf.new_page.
      apply keeps_bind; [apply keeps_backend_call|intros _].
      apply keeps_bind; [apply keeps_gets|intros pgs].
      apply keeps_bind; [|intros _; apply keeps_ret].
      apply keeps_modify. intros w. apply field_new_doc_pages.
  - intros [current_page_index1 [page|]]; [|apply keeps_raise].
    apply keeps_bind; [apply keeps_page_rect|intros dest_size].
    apply keeps_bind; [apply keeps_page_rect|intros clip_size].
    apply keeps_bind; [|intros _; apply keeps_ret].
    apply keeps_show_pdf_page.
Qed.

Lemma keeps_export_segments (segs : list Segment) (current : Z * option nat) :
  keeps field (MainWindow.export_segments segs current).
Proof.
  revert current. induction segs as [|segment rest IH]; intros current; simpl.
  - apply keeps_ret.
  - apply keeps_bind; [apply keeps_export_segment|exact IH].
Qed.

End Keeps.

(** Nothing but the handler of the [try] prints. *)
Lemma export_body_prints_nothing (segs : list Segment) (dialog_path : String.string) :
  keeps Pdf.printed
    (Pdf.open_new;; MainWindow.export_segments segs (-1, None);;
     Pdf.save dialog_path;; Pdf.close_new;; Pdf.close_doc).
Proof.
  assert (Hcall : keeps Pdf.printed Pdf.backend_call)
    by (apply keeps_backend_call; reflexivity).
  apply keeps_bind.
  { apply keeps_bind; [exact Hcall|intros _]. apply keeps_modify. reflexivity. }
  intros _. apply keeps_bind; [apply keeps_export_segments; reflexivity|intros _].
  apply keeps_bind.
  { apply keeps_bind; [exact Hcall|intros _].
    apply keeps_bind; [apply keeps_gets|intros pgs]. apply keeps_modify. reflexivity. }
  intros _. apply keeps_bind.
  { apply keeps_bind; [exact Hcall|intros _]. apply keeps_modify. reflexivity. }
  intros _. apply keeps_bind; [exact Hcall|intros _]. apply keeps_modify. reflexivity.
Qed.

(** Until [doc.close()] returns, nothing closes the source document. *)
Lemma export_body_error_keeps_source (segs : list Segment) (dialog_path : String.string) :
  keeps_on_error Pdf.doc_open
    (Pdf.open_new;; MainWindow.export_segments segs (-1, None);;
     Pdf.save dialog_path;; Pdf.close_new;; Pdf.close_doc).
Proof.
  assert (Hcall : keeps Pdf.doc_open Pdf.backend_call)
    by (apply keeps_backend_call; reflexivity).
  apply keeps_on_error_bind.
  { apply keeps_bind; [exact Hcall|intros _]. apply keeps_modify. reflexivity. }
  intros _. apply keeps_on_error_bind; [apply keeps_export_segments; reflexivity|intros _].
  apply keeps_on_error_bind.
  { apply keeps_bind; [exact Hcall|intros _].
    apply keeps_bind; [apply keeps_gets|intros pgs]. apply keeps_modify. reflexivity. }
  intros _. apply keeps_on_error_bind.
  { apply keeps_bind; [exact Hcall|intros _]. apply keeps_modify. reflexivity. }
  intros _. apply keeps_on_error_bind; [exact Hcall|intros _].
  intros w e w1 Hrun. discriminate Hrun.
Qed.

(** Whatever the segments and whichever backend call raises, except the
    opening of the source document itself: when the export pass reports an
    error, the source document is still open afterwards. *)
Lemma export_failure_leaves_source_open
    (w : MainWindow.t) (dialog_path : String.string)
    (source_pages : list (Q * Q)) (fault : option nat) :
  fault <> Some 0%nat ->
  let world :=
    snd (MainWindow.on_export_file w dialog_path (Pdf.initial_world source_pages fault)) in
  Pdf.printed world <> [] -> Pdf.doc_open world = true.
Proof.
  intros Hfault world. subst world. unfold MainWindow.on_export_file.
  destruct (MainWindow.falsy (MainWindow.file_path w)); [intros H; contradiction|].
  destruct (MainWindow.falsy (Some dialog_path)); [intros H; contradiction|].
  destruct (SegmentViewer.segments (MainWindow.viewer_right w)) as [|s0 rest] eqn:Hsegs;
    [intros H; contradiction|].
  set (segs := MainWindow.sorted (s0 :: rest) _).
  set (w0 := Pdf.initial_world source_pages fault).
  set (w1 := Pdf.mkWorld source_pages fault 1 true false [] [] []).
  assert (Hopen : Pdf.open_file w0 = (Py.Ok tt, w1)).
  { unfold Pdf.open_file, Pdf.backend_call, mbind, Pdf.M_bind. simpl.
    destruct (decide (fault = Some 0%nat)); [contradiction|reflexivity]. }
  unfold Pdf.try_except. rewrite (bind_ok _ _ _ _ _ Hopen).
  pose proof (export_body_prints_nothing segs dialog_path w1) as Hprints.
  pose proof (export_body_error_keeps_source segs dialog_path w1) as Hkeeps.
  destruct ((Pdf.open_new;; MainWindow.export_segments segs (-1, None);;
             Pdf.save dialog_path;; Pdf.close_new;; Pdf.close_doc) w1)
    as [[[]|e] w2] eqn:Erun.
  - simpl. rewrite (Hprints _ _ eq_refl). intros H; contradiction.
  - simpl. intros _. rewrite (Hkeeps e w2 eq_refl). reflexivity.
Qed.

(** C5 (defect of the code). Export of the two selections of
    [two_selections_example] makes eleven backend calls: the two [open]s
    (0, 1), three per segment (2 to 7), [save] (8) and the two [close]s
    (9, 10).  Whichever of them raises, the error is reported, and nothing
    is saved unless [save] itself had succeeded.  But the documents are not
    released on the failure path: the source document stays open after a
    failure of any call but the first, and the output document stays open
    after a failure of any of the calls 2 to 9, among them every region
    copy and the [save].  The two [close] calls are the last statements of
    the [try] body, and the exception skips them; without a fault both
    documents end closed. *)
Theorem C5_export_failure_leaves_documents_open :
  let source_pages := [(595 # 1, 842 # 1); (595 # 1, 842 # 1)]%Q in
  let export fault :=
    snd (MainWindow.on_export_file two_selections_example "out.pdf"%string
           (Pdf.initial_world source_pages fault)) in
  Forall (fun k => Pdf.printed (export (Some k)) = [Py.BackendError]) (seq 0 11) /\
  Forall (fun k => Pdf.saved (export (Some k)) = []) (seq 0 9) /\
  Forall (fun k => Pdf.doc_open (export (Some k)) = true) (seq 1 10) /\
  Forall (fun k => Pdf.new_doc_open (export (Some k)) = true) (seq 2 8) /\
  Pdf.printed (export None) = [] /\
  Pdf.doc_open (export None) = false /\
  Pdf.new_doc_open (export None) = false.
Proof.
  intros source_pages export.
  repeat split; try (vm_compute; reflexivity);
    repeat (apply List.Forall_cons; [vm_compute; reflexivity|]); apply List.Forall_nil.
Qed.

(** ** Segments at rest *)

Lemma new_Segment_at_rest (rect : SelectedRect) (pix : Qt.QSize) :
  in_unit_square rect -> segment_at_rest (new_Segment rect pix).
Proof.
  intros Hrect. unfold segment_at_rest, ordered. simpl.
  split; [exact Hrect|]. unfold in_unit_square in Hrect. tauto.
Qed.

Lemma shift_rect_at_rest (s : Segment) (x_offset y_offset : Q) (p : nat) :
  segment_at_rest s ->
  segment_at_rest
    (set_target_rect (shift_rect x_offset y_offset (set_page_index p (target_rect s))) s).
Proof.
  unfold segment_at_rest, ordered. simpl.
  intros (Hsel & [Hx Hy]).
  split; [exact Hsel|]. split; lra.
Qed.

Lemma set_page_index_same (r : SelectedRect) : set_page_index (page_index r) r = r.
Proof. destruct r; reflexivity. Qed.

Lemma add_page_segments (v : SegmentViewer.t) (rect : Qt.QSize) :
  SegmentViewer.segments (Py.state_of (SegmentViewer.add_page v rect))
  = SegmentViewer.segments v.
Proof.
  unfold SegmentViewer.add_page.
  destruct (_ && _); [|reflexivity].
  destruct (Py.truediv _ _); reflexivity.
Qed.

Lemma add_pages_segments (imgs : list Qt.QSize) (indices : list nat) (v : SegmentViewer.t) :
  SegmentViewer.segments (Py.state_of (MainWindow.add_pages imgs v indices))
  = SegmentViewer.segments v.
Proof.
  revert v. induction indices as [|i rest IH]; intros v; simpl; [reflexivity|].
  destruct (Py.getitem imgs i) as [image|e]; [|reflexivity].
  pose proof (add_page_segments v image) as Hpage.
  destruct (SegmentViewer.add_page v image) as [v1|e v1]; simpl in Hpage.
  - rewrite IH. exact Hpage.
  - exact Hpage.
Qed.

Lemma wheelEvent_segments (v : SegmentViewer.t) (e : Qt.QWheelEvent) :
  SegmentViewer.segments (Py.state_of (ScrollViewer.wheelEvent v e))
  = SegmentViewer.segments v.
Proof.
  unfold ScrollViewer.wheelEvent.
  destruct (Qt.modifiers_eq_control _); [|reflexivity].
  destruct (Py.truediv _ _); reflexivity.
Qed.

Lemma mouseMoveEvent_segments (v : SegmentViewer.t) (e : Qt.QMouseEvent) :
  SegmentViewer.segments (SegmentViewer.mouseMoveEvent v e) = SegmentViewer.segments v.
Proof.
  unfold SegmentViewer.mouseMoveEvent.
  destruct (SegmentViewer.dragging_segment v); [reflexivity|].
  - unfold ScrollViewer.mouseMoveEvent. simpl.
    destruct (ScrollViewer.drag_start (SegmentViewer.base v)) as [[? ?]|]; [|reflexivity].
    destruct (Qt.buttons_eq_left _); reflexivity.
Qed.

Lemma mousePressEvent_segments (v : SegmentViewer.t) (e : Qt.QMouseEvent) :
  SegmentViewer.segments (SegmentViewer.mousePressEvent v e) = SegmentViewer.segments v.
Proof.
  unfold SegmentViewer.mousePressEvent, ScrollViewer.mousePressEvent.
  destruct (SegmentViewer.hovered_segment_index v);
    [destruct (_ && _); [reflexivity|]|];
    destruct (Qt.MouseButton_eqb _ _); reflexivity.
Qed.

(** A drop keeps every segment at rest: it replaces one [target_rect] by a
    translate of itself. *)
Lemma mouseReleaseEvent_at_rest (v : SegmentViewer.t) (e : Qt.QMouseEvent) :
  Forall segment_at_rest (SegmentViewer.segments v) ->
  Forall segment_at_rest
    (SegmentViewer.segments (Py.state_of (SegmentViewer.mouseReleaseEvent v e))).
Proof.
  intros Hrest. unfold SegmentViewer.mouseReleaseEvent.
  destruct (SegmentViewer.dragging_segment v); [|exact Hrest].
  destruct (SegmentViewer.hovered_segment_index _) as [hovered|]; [|exact Hrest].
  destruct (SegmentViewer.get_current_page_index _ _) as [current_page_index|];
    [|exact Hrest].
  destruct (SegmentViewer.segments _ !! hovered) as [segment|] eqn:Hseg; [|exact Hrest].
  assert (Hsegment : segment_at_rest segment).
  { rewrite Forall_forall in Hrest. apply Hrest.
    eapply list_elem_of_lookup_2. exact Hseg. }
  destruct (negb _).
  - simpl. apply Forall_insert; [exact Hrest|]. apply shift_rect_at_rest, Hsegment.
  - destruct (SegmentViewer.same_page_offsets _ _ _) as [[x_offset y_offset]|err];
      [|exact Hrest].
    simpl. apply Forall_insert; [exact Hrest|].
    rewrite <- (set_page_index_same (target_rect segment)).
    apply shift_rect_at_rest, Hsegment.
Qed.

Lemma step_at_rest (v : SegmentViewer.t) (ev : Session.event) :
  (forall rect, Session.selection_of ev = Some rect -> in_unit_square rect) ->
  Forall segment_at_rest (SegmentViewer.segments v) ->
  Forall segment_at_rest (SegmentViewer.segments (Py.state_of (Session.step v ev))).
Proof.
  intros Hev Hrest. destruct ev as [imgs rect|size|rect pix| |w h|e|e|e|e]; simpl.
  - unfold MainWindow.on_clip_selected.
    pose proof (add_pages_segments imgs
                  (seq (SegmentViewer.pages_count v)
                       (page_index rect + 1 - SegmentViewer.pages_count v)) v) as Hpages.
    destruct (MainWindow.add_pages _ _ _) as [v1|err v1]; simpl in Hpages.
    + destruct (Py.getitem imgs (page_index rect)) as [source_pixmap|err]; simpl.
      * rewrite Hpages. apply Forall_app. split; [exact Hrest|].
        constructor; [|constructor]. apply new_Segment_at_rest, Hev. reflexivity.
      * rewrite Hpages. exact Hrest.
    + simpl. rewrite Hpages. exact Hrest.
  - rewrite add_page_segments. exact Hrest.
  - apply Forall_app. split; [exact Hrest|].
    constructor; [|constructor]. apply new_Segment_at_rest, Hev. reflexivity.
  - constructor.
  - exact Hrest.
  - rewrite wheelEvent_segments. exact Hrest.
  - rewrite mousePressEvent_segments. exact Hrest.
  - rewrite mouseMoveEvent_segments. exact Hrest.
  - apply mouseReleaseEvent_at_rest, Hrest.
Qed.

(** C4 (as amended). After any sequence of selection signals, [add_page],
    [add_segment] and [clear] calls, resizes, and wheel and mouse events on
    the target viewer, the selected rectangles being within the unit square
    as the selection gesture emits them, every segment satisfies: its
    [selected_rect] has [0 <= x_min <= x_max <= 1] and
    [0 <= y_min <= y_max <= 1]; its [target_rect] has [x_min <= x_max] and
    [y_min <= y_max].  A drop commits a translate of the rectangle; nothing
    clamps it to the page. *)
Theorem C4_segments_at_rest (w h : Z) (evs : list Session.event) :
  Forall (fun ev => forall rect, Session.selection_of ev = Some rect -> in_unit_square rect)
         evs ->
  Forall (fun s => in_unit_square (selected_rect s) /\ ordered (target_rect s))
         (SegmentViewer.segments (Session.run (SegmentViewer.init w h) evs)).
Proof.
  intros Hevs.
  change (Forall segment_at_rest
            (SegmentViewer.segments (Session.run (SegmentViewer.init w h) evs))).
  assert (Hinit : Forall segment_at_rest (SegmentViewer.segments (SegmentViewer.init w h)))
    by constructor.
  revert Hinit. generalize (SegmentViewer.init w h).
  induction Hevs as [|ev evs Hev _ IH]; intros v Hrest; [exact Hrest|].
  simpl. apply IH. apply step_at_rest; assumption.
Qed.

Lemma drag_right_session_valid :
  Forall (fun ev => forall rect, Session.selection_of ev = Some rect -> in_unit_square rect)
         drag_right_session.
Proof.
  unfold drag_right_session.
  repeat (apply List.Forall_cons; [intros rect Hrect; try discriminate|]);
    [|apply List.Forall_nil].
  injection Hrect as <-. unfold in_unit_square; simpl. repeat split; lra.
Qed.

Lemma C4_segments_at_rest_witness :
  Forall (fun s => in_unit_square (selected_rect s) /\ ordered (target_rect s))
         (SegmentViewer.segments
            (Session.run (SegmentViewer.init 220 300) drag_right_session)).
Proof.
  apply (C4_segments_at_rest 220 300 drag_right_session).
  exact drag_right_session_valid.
Defined.

(** C4 as stated fails: after [drag_right_session], whose only selection is
    within the unit square, the segment is at rest with
    [target_rect.x_max = 7/5], outside the page. *)
Lemma C4_counterexample :
  Forall (fun ev => forall rect, Session.selection_of ev = Some rect -> in_unit_square rect)
         drag_right_session /\
  exists s,
    SegmentViewer.segments (Session.run (SegmentViewer.init 220 300) drag_right_session) = [s] /\
    SegmentViewer.dragging_segment
      (Session.run (SegmentViewer.init 220 300) drag_right_session) = false /\
    page_index (target_rect s) = 0%nat /\
    (x_min (target_rect s) == 9 # 10)%Q /\
    (x_max (target_rect s) == 7 # 5)%Q /\
    ~ in_unit_square (target_rect s).
Proof.
  split; [exact drag_right_session_valid|].
  eexists. split; [vm_compute; reflexivity|].
  split; [reflexivity|]. split; [reflexivity|].
  split; [reflexivity|]. split; [reflexivity|].
  unfold in_unit_square; simpl. intros (_ & _ & Hmax & _).
  revert Hmax. unfold Qle; simpl. lia.
Qed.

(** * Further properties of the code *)

(** ** The base widget (viewer/scroll_viewer.py) *)

Lemma stepped_zoom_in_range (delta : Z) (zoom : Q) :
  (ScrollViewer.min_zoom <= ScrollViewer.stepped_zoom delta zoom /\
   ScrollViewer.stepped_zoom delta zoom <= ScrollViewer.max_zoom)%Q.
Proof.
  unfold ScrollViewer.stepped_zoom. split.
  - apply Q.le_max_l.
  - apply Q.max_lub; [unfold ScrollViewer.min_zoom, ScrollViewer.max_zoom, Qle; simpl; lia|].
    apply Q.le_min_l.
Qed.

Section BaseWidget.
Context {V : Type} `{ScrollViewer.ViewerLaws V}.

(** X1. A wheel event keeps the zoom factor within [[min_zoom, max_zoom]]:
    the plain wheel does not touch it, and Ctrl+wheel clamps the stepped
    factor, also when the handler then fails. *)
Theorem X1_wheel_keeps_zoom_in_range (v : V) (event : Qt.QWheelEvent) :
  zoom_in_range (ScrollViewer.viewer_base v) ->
  zoom_in_range (ScrollViewer.viewer_base (Py.state_of (ScrollViewer.wheelEvent v event))).
Proof.
  intros Hrange. unfold ScrollViewer.wheelEvent.
  destruct (Qt.modifiers_eq_control _).
  - rewrite !ScrollViewer.viewer_base_with_base.
    cbn [ScrollViewer.zoom_factor ScrollViewer.set_zoom_factor].
    destruct (Py.truediv _ _); cbn [Py.state_of].
    + rewrite ScrollViewer.on_zoom_changed_base. unfold ScrollViewer.clamp_scroll_offset.
      rewrite !ScrollViewer.viewer_base_with_base. apply stepped_zoom_in_range.
    + rewrite ScrollViewer.viewer_base_with_base. apply stepped_zoom_in_range.
  - cbn [Py.state_of]. rewrite ScrollViewer.on_scroll_changed_base.
    unfold ScrollViewer.clamp_scroll_offset.
    rewrite !ScrollViewer.viewer_base_with_base. exact Hrange.
Qed.

(** X2. Ctrl+wheel zooms in only for a positive vertical delta: every other
    delta, zero included (a purely horizontal wheel movement), divides the
    zoom factor by 1.1.  From a factor in [[1.1 * min_zoom, max_zoom]] the
    result is exactly that quotient, smaller than before. *)
Theorem X2_wheel_zero_delta_zooms_out (v : V) (event : Qt.QWheelEvent) :
  Qt.modifiers_eq_control (Qt.wheel_modifiers event) = true ->
  Qt.angleDelta_y event <= 0 ->
  let zoom := ScrollViewer.zoom_factor (ScrollViewer.viewer_base v) in
  ((11 # 10) * ScrollViewer.min_zoom <= zoom)%Q ->
  (zoom <= ScrollViewer.max_zoom)%Q ->
  let zoom' :=
    ScrollViewer.zoom_factor
      (ScrollViewer.viewer_base (Py.state_of (ScrollViewer.wheelEvent v event))) in
  (zoom' == zoom / (11 # 10) /\ zoom' < zoom)%Q.
Proof.
  intros Hctrl Hdelta zoom Hlow Hhigh zoom'.
  assert (Hzoom' : zoom' = ScrollViewer.stepped_zoom (Qt.angleDelta_y event) zoom).
  { subst zoom'. unfold ScrollViewer.wheelEvent. rewrite Hctrl.
    rewrite !ScrollViewer.viewer_base_with_base.
    cbn [ScrollViewer.zoom_factor ScrollViewer.set_zoom_factor].
    destruct (Py.truediv _ _); cbn [Py.state_of].
    - rewrite ScrollViewer.on_zoom_changed_base. unfold ScrollViewer.clamp_scroll_offset.
      rewrite !ScrollViewer.viewer_base_with_base. reflexivity.
    - rewrite ScrollViewer.viewer_base_with_base. reflexivity. }
  rewrite Hzoom'. unfold ScrollViewer.stepped_zoom.
  destruct (Z.gtb_spec (Qt.angleDelta_y event) 0) as [Hpos|_]; [lia|].
  unfold ScrollViewer.min_zoom, ScrollViewer.max_zoom in *.
  assert (Hpositive : (0 < zoom)%Q) by lra.
  assert (Hquot : (zoom / (11 # 10) == zoom * (10 # 11))%Q) by (field; lra).
  destruct (Q.min_spec (5 # 1) (zoom / (11 # 10))) as [[Hlt Hmin]|[Hle Hmin]].
  - exfalso. lra.
  - destruct (Q.max_spec (1 # 10) (Qmin (5 # 1) (zoom / (11 # 10)))) as [[Hlt Hmax]|[Hge Hmax]].
    + split; lra.
    + split; lra.
Qed.

Hypothesis Hstable : content_height_stable V.

(** X3. On a widget of non-negative height and with a positive zoom factor,
    every wheel event, scrolling or zooming, returns normally and leaves the
    scroll offset between [-height // 2] (the floor of [-height / 2]) and
    [max(0, content_height - height // 2)], for the content height at the
    new zoom factor. *)
Theorem X3_wheel_leaves_scroll_in_range (v : V) (event : Qt.QWheelEvent) :
  0 <= ScrollViewer.widget_height (ScrollViewer.viewer_base v) ->
  (0 < ScrollViewer.zoom_factor (ScrollViewer.viewer_base v))%Q ->
  exists v', ScrollViewer.wheelEvent v event = Py.Returned v' /\ scroll_in_range v'.
Proof.
  intros Hheight Hzoom. destruct Hstable as (Hscroll & Hzoomhook & Hscrollhook).
  assert (Hclamp : forall u : V,
            0 <= ScrollViewer.widget_height (ScrollViewer.viewer_base u) ->
            scroll_in_range (ScrollViewer.clamp_scroll_offset u)).
  { intros u Hu. pose proof (clamp_scroll_offset_range u Hu) as Hrange. cbv zeta in Hrange.
    assert (Hbase : ScrollViewer.viewer_base (ScrollViewer.clamp_scroll_offset u)
                    = ScrollViewer.set_scroll_offset
                        (Z.max (ScrollViewer.min_offset u)
                           (Z.min (ScrollViewer.scroll_offset (ScrollViewer.viewer_base u))
                              (ScrollViewer.max_offset u)))
                        (ScrollViewer.viewer_base u))
      by apply ScrollViewer.viewer_base_with_base.
    assert (Hcontent : ScrollViewer.get_content_height (ScrollViewer.clamp_scroll_offset u)
                       = ScrollViewer.get_content_height u) by apply Hscroll.
    unfold scroll_in_range. rewrite Hcontent. rewrite Hbase in Hrange |- *.
    exact Hrange. }
  unfold ScrollViewer.wheelEvent.
  destruct (Qt.modifiers_eq_control _).
  - rewrite !ScrollViewer.viewer_base_with_base.
    cbn [ScrollViewer.zoom_factor ScrollViewer.set_zoom_factor].
    rewrite truediv_nonzero by lra.
    eexists. split; [reflexivity|].
    unfold scroll_in_range. rewrite Hzoomhook, ScrollViewer.on_zoom_changed_base.
    apply Hclamp. rewrite ScrollViewer.viewer_base_with_base. exact Hheight.
  - eexists. split; [reflexivity|].
    unfold scroll_in_range. rewrite Hscrollhook, ScrollViewer.on_scroll_changed_base.
    apply Hclamp. rewrite ScrollViewer.viewer_base_with_base. exact Hheight.
Qed.

(** X4. Drag-to-pan is anchored at the press: once a left press has been
    recorded, a move with only the left button held sets the scroll offset
    to the clamped [drag_start_offset - (y - drag_start_pos.y())], within
    the clamp range, and changes neither the zoom factor nor the recorded
    press. *)
Theorem X4_pan_is_anchored_and_clamped
    (v : V) (event : Qt.QMouseEvent) (drag_start_pos : Qt.QPoint) (drag_start_offset : Z) :
  0 <= ScrollViewer.widget_height (ScrollViewer.viewer_base v) ->
  ScrollViewer.drag_start (ScrollViewer.viewer_base v)
  = Some (drag_start_pos, drag_start_offset) ->
  Qt.buttons_eq_left (Qt.buttons event) = true ->
  let v' := ScrollViewer.mouseMoveEvent v event in
  let target := drag_start_offset - (Qt.y (Qt.pos event) - Qt.y drag_start_pos) in
  ScrollViewer.scroll_offset (ScrollViewer.viewer_base v')
  = Z.max (ScrollViewer.min_offset v) (Z.min target (ScrollViewer.max_offset v)) /\
  scroll_in_range v' /\
  ScrollViewer.zoom_factor (ScrollViewer.viewer_base v')
  = ScrollViewer.zoom_factor (ScrollViewer.viewer_base v) /\
  ScrollViewer.drag_start (ScrollViewer.viewer_base v')
  = Some (drag_start_pos, drag_start_offset).
Proof.
  intros Hheight Hstart Hleft v' target.
  destruct Hstable as (Hscroll & Hzoomhook & Hscrollhook).
  subst v'. unfold ScrollViewer.mouseMoveEvent. rewrite Hstart, Hleft.
  set (v1 := ScrollViewer.with_base _ v).
  assert (Hbase1 : ScrollViewer.viewer_base v1
                   = ScrollViewer.set_scroll_offset target (ScrollViewer.viewer_base v))
    by apply ScrollViewer.viewer_base_with_base.
  assert (Hmin : ScrollViewer.min_offset v1 = ScrollViewer.min_offset v)
    by (unfold ScrollViewer.min_offset; rewrite Hbase1; reflexivity).
  assert (Hmax : ScrollViewer.max_offset v1 = ScrollViewer.max_offset v).
  { unfold ScrollViewer.max_offset. rewrite Hbase1. subst v1. rewrite Hscroll. reflexivity. }
  rewrite ScrollViewer.on_scroll_changed_base.
  assert (Hclamped : ScrollViewer.viewer_base (ScrollViewer.clamp_scroll_offset v1)
                     = ScrollViewer.set_scroll_offset
                         (Z.max (ScrollViewer.min_offset v)
                            (Z.min target (ScrollViewer.max_offset v)))
                         (ScrollViewer.viewer_base v)).
  { unfold ScrollViewer.clamp_scroll_offset.
    rewrite ScrollViewer.viewer_base_with_base, Hmin, Hmax, Hbase1. reflexivity. }
  rewrite Hclamped. split; [reflexivity|]. split; [|split; [reflexivity|exact Hstart]].
  unfold scroll_in_range. rewrite Hscrollhook, ScrollViewer.on_scroll_changed_base.
  pose proof (clamp_scroll_offset_range v1) as Hrange. cbv zeta in Hrange.
  rewrite Hbase1 in Hrange. specialize (Hrange Hheight).
  assert (Hcontent : ScrollViewer.get_content_height (ScrollViewer.clamp_scroll_offset v1)
                     = ScrollViewer.get_content_height v).
  { unfold ScrollViewer.clamp_scroll_offset. rewrite Hscroll. subst v1. apply Hscroll. }
  rewrite Hcontent. rewrite Hclamped in Hrange |- *. rewrite Hmin, Hmax in Hrange.
  exact Hrange.
Qed.

End BaseWidget.

Lemma X1_wheel_zoom_witness :
  zoom_in_range
    (SegmentViewer.base
       (Py.state_of
          (ScrollViewer.wheelEvent one_page_example
             (Qt.mkWheelEvent 120 (Qt.mkModifiers false true false false))))).
Proof.
  refine (X1_wheel_keeps_zoom_in_range one_page_example
            (Qt.mkWheelEvent 120 (Qt.mkModifiers false true false false)) _).
  split; vm_compute; intros Hc; discriminate Hc.
Defined.

Lemma X2_wheel_zero_delta_witness :
  let event := Qt.mkWheelEvent 0 (Qt.mkModifiers false true false false) in
  let zoom' :=
    ScrollViewer.zoom_factor
      (SegmentViewer.base (Py.state_of (ScrollViewer.wheelEvent one_page_example event))) in
  let zoom := ScrollViewer.zoom_factor (SegmentViewer.base one_page_example) in
  (zoom' == zoom / (11 # 10) /\ zoom' < zoom)%Q.
Proof.
  intros event zoom' zoom.
  refine (X2_wheel_zero_delta_zooms_out one_page_example event _ _ _ _).
  - reflexivity.
  - simpl. lia.
  - vm_compute; intros Hc; discriminate Hc.
  - vm_compute; intros Hc; discriminate Hc.
Defined.

Lemma X3_wheel_scroll_witness :
  exists v',
    ScrollViewer.wheelEvent one_page_example (Qt.mkWheelEvent (-2000) (Qt.mkModifiers false false false false))
    = Py.Returned v' /\ scroll_in_range v'.
Proof.
  apply (X3_wheel_leaves_scroll_in_range content_height_stable_target one_page_example).
  - vm_compute; intros Hc; discriminate Hc.
  - vm_compute; reflexivity.
Defined.

Lemma X4_pan_witness :
  let event :=
    Qt.mkMouseEvent (Qt.mkQPoint 100 60) Qt.NoButton (Qt.mkButtons true false false)
      (Qt.mkModifiers false false false false) in
  ScrollViewer.scroll_offset
    (ClipSelectViewer.base (ClipSelectViewer.mouseMoveEvent panning_example event)) = 30.
Proof.
  intros event.
  destruct (X4_pan_is_anchored_and_clamped content_height_stable_source panning_example event
              (Qt.mkQPoint 100 100) (-10)) as (Hoffset & _).
  - vm_compute; intros Hc; discriminate Hc.
  - reflexivity.
  - reflexivity.
  - etransitivity; [exact Hoffset|]. vm_compute. reflexivity.
Defined.

(** ** The source viewer (viewer/image_pages_viewer.py) *)

Lemma clamped_zoom_in_range (zoom : Q) :
  (ScrollViewer.min_zoom <= Qmax ScrollViewer.min_zoom (Qmin ScrollViewer.max_zoom zoom) /\
   Qmax ScrollViewer.min_zoom (Qmin ScrollViewer.max_zoom zoom) <= ScrollViewer.max_zoom)%Q.
Proof.
  split.
  - apply Q.le_max_l.
  - apply Q.max_lub; [unfold ScrollViewer.min_zoom, ScrollViewer.max_zoom, Qle; simpl; lia|].
    apply Q.le_min_l.
Qed.

Lemma one_in_zoom_range :
  (ScrollViewer.min_zoom <= 1 /\ 1 <= ScrollViewer.max_zoom)%Q.
Proof. unfold ScrollViewer.min_zoom, ScrollViewer.max_zoom, Qle; simpl. lia. Qed.

Lemma truediv_zero (a : Q) (z : Z) :
  Py.truediv a (inject_Z z) = Py.Err Py.ZeroDivisionError <-> z = 0.
Proof.
  unfold Py.truediv. destruct (Qeq_bool (inject_Z z) 0) eqn:E.
  - apply Qeq_bool_iff in E. unfold Qeq in E; simpl in E.
    split; [intros _; lia|reflexivity].
  - apply Qeq_bool_neq in E. split; [discriminate|].
    intros ->. exfalso. apply E. reflexivity.
Qed.

(** X7. What [set_images] always does and when it fails: the images are
    replaced and the scroll offset is reset to [-PAGE_SPACING] in every
    case; the handler raises exactly when the list is not empty, the widget
    has a positive width and the first image has width 0, and then the old
    zoom factor is kept; otherwise the zoom factor ends within
    [[min_zoom, max_zoom]], and it is 1 for an empty list or a widget
    without width. *)
Theorem X7_set_images_outcome (v : ClipSelectViewer.t) (imgs : list Qt.QSize) :
  let o := ClipSelectViewer.set_images v imgs in
  let v' := Py.state_of o in
  let width := ScrollViewer.widget_width (ClipSelectViewer.base v) in
  ClipSelectViewer.images v' = imgs /\
  ScrollViewer.scroll_offset (ClipSelectViewer.base v') = - ScrollViewer.PAGE_SPACING /\
  (Py.raised o <> None <->
   exists first rest, imgs = first :: rest /\ 0 < width /\ Qt.width first = 0) /\
  (forall e, Py.raised o = Some e ->
     e = Py.ZeroDivisionError /\
     ScrollViewer.zoom_factor (ClipSelectViewer.base v')
     = ScrollViewer.zoom_factor (ClipSelectViewer.base v)) /\
  (Py.raised o = None -> zoom_in_range (ClipSelectViewer.base v')) /\
  (imgs = [] \/ width <= 0 -> ScrollViewer.zoom_factor (ClipSelectViewer.base v') = 1%Q).
Proof.
  intros o v' width. subst o v'. unfold ClipSelectViewer.set_images.
  destruct imgs as [|first rest].
  { simpl. repeat split; try reflexivity; try (intros; congruence).
    - intros (? & ? & ? & _). discriminate.
    - apply one_in_zoom_range.
    - apply one_in_zoom_range. }
  cbn [ClipSelectViewer.base ClipSelectViewer.set_base ClipSelectViewer.set_images_attr
       ScrollViewer.widget_width ScrollViewer.set_scroll_offset].
  fold width.
  destruct (Z.gtb_spec width 0) as [Hpos|Hnonpos].
  - pose proof (truediv_zero (inject_Z (width - 2 * ScrollViewer.PAGE_SPACING))
                  (Qt.width first)) as Hzero.
    destruct (Py.truediv _ _) as [zoom|e] eqn:Ediv; simpl.
    + repeat split; try reflexivity; try (intros; congruence).
      * intros (first' & rest' & Heq & _ & Hw). injection Heq as <- _.
        apply Hzero in Hw. discriminate.
      * apply clamped_zoom_in_range.
      * apply clamped_zoom_in_range.
      * intros [Hempty|Hwidth]; [discriminate|lia].
    + assert (He : e = Py.ZeroDivisionError).
      { unfold Py.truediv in Ediv. destruct (Qeq_bool _ _); congruence. }
      subst e. repeat split; try reflexivity; try (intros; congruence).
      * intros _. exists first, rest. repeat split; [lia|]. apply Hzero. reflexivity.
      * intros [Hempty|Hwidth]; [discriminate|lia].
  - simpl. repeat split; try reflexivity; try (intros; congruence).
    + intros (? & ? & _ & Hw & _). lia.
    + apply one_in_zoom_range.
    + apply one_in_zoom_range.
Qed.

(** X9. A Ctrl+left press directly followed by a left release, with no move
    in between, is a click: whatever the positions of the two events, no
    selection signal is emitted and the rubber band is over. *)
Theorem X9_ctrl_click_selects_nothing
    (v : ClipSelectViewer.t) (press release : Qt.QMouseEvent) :
  Qt.modifiers_eq_control (Qt.modifiers press) = true ->
  Qt.button press = Qt.LeftButton ->
  Qt.button release = Qt.LeftButton ->
  let v1 := ClipSelectViewer.mousePressEvent v press in
  ClipSelectViewer.selecting v1 = true /\
  ClipSelectViewer.mouseReleaseEvent v1 release
  = (Py.Returned (ClipSelectViewer.set_selecting false v1), []).
Proof.
  intros Hctrl Hpress Hrelease v1. subst v1.
  unfold ClipSelectViewer.mousePressEvent. rewrite Hctrl, Hpress.
  cbn [andb Qt.MouseButton_eqb]. split; [reflexivity|].
  unfold ClipSelectViewer.mouseReleaseEvent. rewrite Hrelease.
  cbn [ClipSelectViewer.selecting ClipSelectViewer.set_select_end_pos
       ClipSelectViewer.set_select_start_pos ClipSelectViewer.set_selecting
       ClipSelectViewer.select_start_pos ClipSelectViewer.select_end_pos
       andb Qt.MouseButton_eqb].
  unfold Qt.QPoint_sub. rewrite !Z.sub_diag.
  change (Qt.wrap32 0) with 0. reflexivity.
Qed.

Lemma X9_ctrl_click_witness :
  let press :=
    Qt.mkMouseEvent (Qt.mkQPoint 50 50) Qt.LeftButton (Qt.mkButtons true false false)
      (Qt.mkModifiers false true false false) in
  let release :=
    Qt.mkMouseEvent (Qt.mkQPoint 180 170) Qt.LeftButton (Qt.mkButtons false false false)
      (Qt.mkModifiers false true false false) in
  snd (ClipSelectViewer.mouseReleaseEvent
         (ClipSelectViewer.mousePressEvent (ClipSelectViewer.init 400 300) press) release)
  = [].
Proof.
  intros press release.
  destruct (X9_ctrl_click_selects_nothing (ClipSelectViewer.init 400 300) press release
              eq_refl eq_refl eq_refl) as [_ Hrelease].
  rewrite Hrelease. reflexivity.
Defined.

Lemma select_on_page_round_trip (widget_width rect_left rect_right rect_top rect_bottom : Z)
    (i : nat) (position : Q * Q * Q) (r : SelectedRect) :
  ClipSelectViewer.select_on_page widget_width rect_left rect_right rect_top rect_bottom
    i position = Py.Ok (Some r) ->
  page_index r = i /\
  projects_to_clipped_band widget_width rect_left rect_right rect_top rect_bottom position r.
Proof.
  destruct position as [[y_start y_end] scaled_width].
  unfold ClipSelectViewer.select_on_page, projects_to_clipped_band.
  set (page_x_start := Py.floordiv_float (inject_Z widget_width - scaled_width) 2).
  destruct (_ || _); [discriminate|].
  destruct (_ || _); [discriminate|].
  unfold Py.truediv.
  destruct (Qeq_bool (page_x_start + scaled_width - page_x_start) 0) eqn:Ex;
    [discriminate|].
  destruct (Qeq_bool (y_end - y_start) 0) eqn:Ey; [discriminate|].
  apply Qeq_bool_neq in Ex, Ey.
  intros Hr. injection Hr as <-. simpl.
  split; [reflexivity|]. repeat split; field; assumption.
Qed.

Lemma select_on_pages_emitted (widget_width rect_left rect_right rect_top rect_bottom : Z)
    (positions : list (Q * Q * Q)) (k : nat) (emitted : list SelectedRect)
    (e : option Py.exn) (r : SelectedRect) :
  ClipSelectViewer.select_on_pages widget_width rect_left rect_right rect_top rect_bottom
    k positions = (emitted, e) ->
  r ∈ emitted ->
  exists i position,
    positions !! i = Some position /\
    ClipSelectViewer.select_on_page widget_width rect_left rect_right rect_top rect_bottom
      (k + i) position = Py.Ok (Some r).
Proof.
  revert k emitted e. induction positions as [|position rest IH]; intros k emitted e; simpl.
  - intros Hrun Hr. injection Hrun as <- _. inversion Hr.
  - destruct (ClipSelectViewer.select_on_page _ _ _ _ _ k position) as [first|err] eqn:Efirst.
    + destruct (ClipSelectViewer.select_on_pages _ _ _ _ _ (S k) rest)
        as [later e'] eqn:Elater.
      intros Hrun Hr. injection Hrun as <- _.
      assert (Hlater : r ∈ later ->
                exists i position0,
                  (position :: rest) !! i = Some position0 /\
                  ClipSelectViewer.select_on_page widget_width rect_left rect_right
                    rect_top rect_bottom (k + i) position0 = Py.Ok (Some r)).
      { intros Hin. destruct (IH _ _ _ Elater Hin) as (i & position0 & Hlook & Hsel).
        exists (S i), position0. split; [exact Hlook|].
        replace (k + S i)%nat with (S k + i)%nat by lia. exact Hsel. }
      destruct first as [r0|]; [|exact (Hlater Hr)].
      apply elem_of_cons in Hr as [->|Hr]; [|exact (Hlater Hr)].
      exists 0%nat, position. split; [reflexivity|].
      rewrite Nat.add_0_r. exact Efirst.
    + intros Hrun Hr. injection Hrun as <- _. inversion Hr.
Qed.

(** X10. Round trip of a selection: every rectangle that a processed
    selection emits, also one that ends in an exception, names a page of the
    layout, and taken back from fractions to the pixels of that page (origin
    plus fraction times extent) it is the rubber band clipped to the page. *)
Theorem X10_selection_projects_back_to_the_band
    (v : ClipSelectViewer.t) (select_start_pos select_end_pos : Qt.QPoint)
    (emitted : list SelectedRect) (e : option Py.exn) (r : SelectedRect) :
  ClipSelectViewer.process_selection v select_start_pos select_end_pos = (emitted, e) ->
  r ∈ emitted ->
  let rect_left := Z.min (Qt.x select_start_pos) (Qt.x select_end_pos) in
  let rect_right := Z.max (Qt.x select_start_pos) (Qt.x select_end_pos) in
  let rect_top := Z.min (Qt.y select_start_pos) (Qt.y select_end_pos) in
  let rect_bottom := Z.max (Qt.y select_start_pos) (Qt.y select_end_pos) in
  exists position,
    ClipSelectViewer.get_page_positions v !! page_index r = Some position /\
    projects_to_clipped_band (ScrollViewer.widget_width (ClipSelectViewer.base v))
      rect_left rect_right rect_top rect_bottom position r.
Proof.
  intros Hrun Hr rect_left rect_right rect_top rect_bottom.
  unfold ClipSelectViewer.process_selection in Hrun. cbv zeta in Hrun.
  destruct (select_on_pages_emitted _ _ _ _ _ _ _ _ _ _ Hrun Hr)
    as (i & position & Hlook & Hsel).
  apply select_on_page_round_trip in Hsel as [Hindex Hband]. simpl in Hindex.
  exists position. rewrite Hindex. split; [exact Hlook|exact Hband].
Qed.

Lemma X10_selection_round_trip_witness :
  let v := selecting_example (Qt.mkQPoint 50 50) (Qt.mkQPoint 150 500) in
  exists emitted r position,
    ClipSelectViewer.process_selection v (Qt.mkQPoint 50 50) (Qt.mkQPoint 150 500)
    = (emitted, None) /\
    emitted !! 1%nat = Some r /\
    ClipSelectViewer.get_page_positions v !! page_index r = Some position /\
    projects_to_clipped_band 400 50 150 50 500 position r.
Proof.
  intros v.
  destruct (ClipSelectViewer.process_selection v (Qt.mkQPoint 50 50) (Qt.mkQPoint 150 500))
    as [emitted e] eqn:Hrun.
  assert (Hcomputed : exists r0 r1, emitted = [r0; r1] /\ e = None).
  { vm_compute in Hrun. injection Hrun as <- <-. eexists. eexists. split; reflexivity. }
  destruct Hcomputed as (r0 & r1 & -> & ->).
  destruct (X10_selection_projects_back_to_the_band v (Qt.mkQPoint 50 50)
              (Qt.mkQPoint 150 500) [r0; r1] None r1 Hrun) as (position & Hlook & Hband).
  - apply list_elem_of_further, list_elem_of_here.
  - exists [r0; r1], r1, position. repeat split; assumption.
Defined.

Lemma zoom_in_range_positive (b : ScrollViewer.t) :
  zoom_in_range b -> (0 < ScrollViewer.zoom_factor b)%Q.
Proof.
  intros [Hlow _]. unfold ScrollViewer.min_zoom in Hlow.
  apply Qlt_le_trans with (1 # 10); [reflexivity|exact Hlow].
Qed.

Ltac source_step_goals :=
  split; [reflexivity|split; [split; [|split]|]].

Lemma source_step_invariant (v : ClipSelectViewer.t) (ev : SourceSession.event) :
  (forall imgs, ev = SourceSession.SetImages imgs -> positive_sizes imgs) ->
  source_invariant v ->
  Py.raised (fst (SourceSession.step v ev)) = None /\
  source_invariant (Py.state_of (fst (SourceSession.step v ev))) /\
  Forall in_unit_square (snd (SourceSession.step v ev)).
Proof.
  intros Hev (Hzoom & Hsizes & Hsel).
  destruct ev as [imgs|w h|e|e|e|e]; simpl.
  - specialize (Hev imgs eq_refl). unfold ClipSelectViewer.set_images.
    destruct imgs as [|first rest].
    { simpl. source_step_goals;
        [apply one_in_zoom_range|constructor|exact Hsel|constructor]. }
    cbn [ClipSelectViewer.base ClipSelectViewer.set_base ClipSelectViewer.set_images_attr
         ScrollViewer.widget_width ScrollViewer.set_scroll_offset].
    destruct (_ >? 0).
    + assert (Hnonzero : ~ (inject_Z (Qt.width first) == 0)%Q).
      { apply Forall_inv in Hev as [Hw _]. unfold Qeq; simpl. lia. }
      rewrite (truediv_nonzero _ _ Hnonzero). simpl.
      source_step_goals; [apply clamped_zoom_in_range|exact Hev|exact Hsel|constructor].
    + simpl. source_step_goals; [apply one_in_zoom_range|exact Hev|exact Hsel|constructor].
  - source_step_goals; [exact Hzoom|exact Hsizes|exact Hsel|constructor].
  - unfold ScrollViewer.wheelEvent.
    destruct (Qt.modifiers_eq_control _).
    + cbn [ScrollViewer.viewer_base ScrollViewer.with_base ClipSelectViewer.viewer
           ClipSelectViewer.base ClipSelectViewer.set_base
           ScrollViewer.zoom_factor ScrollViewer.set_zoom_factor].
      rewrite truediv_nonzero
        by (pose proof (zoom_in_range_positive _ Hzoom); lra).
      simpl. source_step_goals;
        [apply stepped_zoom_in_range|exact Hsizes|exact Hsel|constructor].
    + simpl. source_step_goals; [exact Hzoom|exact Hsizes|exact Hsel|constructor].
  - unfold ClipSelectViewer.mousePressEvent, ScrollViewer.mousePressEvent.
    destruct (_ && _); simpl.
    + source_step_goals; [exact Hzoom|exact Hsizes| |constructor].
      intros _. split; eexists; reflexivity.
    + destruct (Qt.MouseButton_eqb _ _); simpl;
        (source_step_goals; [exact Hzoom|exact Hsizes|exact Hsel|constructor]).
  - unfold ClipSelectViewer.mouseMoveEvent, ScrollViewer.mouseMoveEvent.
    destruct (ClipSelectViewer.selecting v) eqn:Eselecting; simpl.
    + source_step_goals; [exact Hzoom|exact Hsizes| |constructor].
      intros _. split; [apply Hsel; reflexivity|eexists; reflexivity].
    + destruct (ScrollViewer.drag_start _) as [[? ?]|]; [destruct (Qt.buttons_eq_left _)|];
        simpl;
        (source_step_goals; [exact Hzoom|exact Hsizes| |constructor];
         intros Hc; simpl in Hc; congruence).
  - unfold ClipSelectViewer.mouseReleaseEvent.
    destruct (ClipSelectViewer.selecting v) eqn:Eselecting; cbn [andb].
    2:{ simpl. source_step_goals; [exact Hzoom|exact Hsizes| |constructor].
        intros Hc; simpl in Hc; congruence. }
    destruct (Qt.MouseButton_eqb _ _).
    2:{ simpl. source_step_goals; [exact Hzoom|exact Hsizes| |constructor].
        intros _. apply Hsel. reflexivity. }
    destruct (Hsel eq_refl) as [[start_pos Hstart] [end_pos Hend]].
    rewrite Hstart, Hend.
    destruct (_ && _).
    { simpl. source_step_goals; [exact Hzoom|exact Hsizes| |constructor].
      intros Hc; discriminate Hc. }
    destruct (select_on_pages_spec
                (ScrollViewer.widget_width (ClipSelectViewer.base v))
                (Z.min (Qt.x start_pos) (Qt.x end_pos)) (Z.max (Qt.x start_pos) (Qt.x end_pos))
                (Z.min (Qt.y start_pos) (Qt.y end_pos)) (Z.max (Qt.y start_pos) (Qt.y end_pos))
                (ClipSelectViewer.get_page_positions v) ltac:(lia) ltac:(lia)
                (page_positions_positive _ _ (zoom_in_range_positive _ Hzoom) Hsizes _) 0%nat)
      as (emitted & Hrun & Hunit & _).
    unfold ClipSelectViewer.process_selection. cbv zeta.
    change (ClipSelectViewer.get_page_positions (ClipSelectViewer.set_selecting false v))
      with (ClipSelectViewer.get_page_positions v).
    change (ClipSelectViewer.base (ClipSelectViewer.set_selecting false v))
      with (ClipSelectViewer.base v).
    rewrite Hrun. simpl.
    source_step_goals; [exact Hzoom|exact Hsizes| |exact Hunit].
    intros Hc; discriminate Hc.
Qed.

Lemma source_run_invariant (evs : list SourceSession.event) (v : ClipSelectViewer.t) :
  Forall (fun ev => forall imgs, ev = SourceSession.SetImages imgs -> positive_sizes imgs)
         evs ->
  source_invariant v ->
  snd (SourceSession.run v evs) = [] /\
  Forall in_unit_square (snd (fst (SourceSession.run v evs))) /\
  source_invariant (fst (fst (SourceSession.run v evs))).
Proof.
  intros Hevs. revert v. induction Hevs as [|ev evs Hev _ IH]; intros v Hinv; simpl.
  - split; [reflexivity|]. split; [constructor|exact Hinv].
  - destruct (source_step_invariant v ev Hev Hinv) as (Hraised & Hinv' & Hunit).
    destruct (SourceSession.step v ev) as [o emitted]. simpl in Hraised, Hinv', Hunit.
    destruct (IH _ Hinv') as (Herrors & Hlater & Hfinal).
    destruct (SourceSession.run (Py.state_of o) evs) as [[v' later] errors].
    simpl in Herrors, Hlater, Hfinal |- *. rewrite Hraised.
    split; [exact Herrors|]. split; [|exact Hfinal].
    apply Forall_app. split; assumption.
Qed.

(** X11. In every session of the source viewer that loads only images of
    positive width and height (loads, resizes, wheel events, presses, moves
    and releases in any order, from the initial widget), no handler raises,
    every selection signal emitted along the way satisfies
    [0 <= x_min <= x_max <= 1] and [0 <= y_min <= y_max <= 1], and the zoom
    factor ends within [[min_zoom, max_zoom]]. *)
Theorem X11_source_session_is_safe (w h : Z) (evs : list SourceSession.event) :
  Forall (fun ev => forall imgs, ev = SourceSession.SetImages imgs -> positive_sizes imgs)
         evs ->
  let result := SourceSession.run (ClipSelectViewer.init w h) evs in
  snd result = [] /\
  Forall in_unit_square (snd (fst result)) /\
  zoom_in_range (ClipSelectViewer.base (fst (fst result))).
Proof.
  intros Hevs result.
  destruct (source_run_invariant evs (ClipSelectViewer.init w h) Hevs)
    as (Herrors & Hunit & Hzoom & _).
  - split; [apply one_in_zoom_range|]. split; [constructor|]. intros Hc; discriminate Hc.
  - split; [exact Herrors|]. split; [exact Hunit|exact Hzoom].
Qed.

Lemma X11_source_session_witness :
  let ctrl := Qt.mkModifiers false true false false in
  let up := Qt.mkButtons false false false in
  let left := Qt.mkButtons true false false in
  let evs :=
    [ SourceSession.SetImages [Qt.mkQSize 200 200; Qt.mkQSize 200 200];
      SourceSession.MousePress (Qt.mkMouseEvent (Qt.mkQPoint 50 50) Qt.LeftButton left ctrl);
      SourceSession.MouseMove (Qt.mkMouseEvent (Qt.mkQPoint 150 500) Qt.NoButton left ctrl);
      SourceSession.MouseRelease (Qt.mkMouseEvent (Qt.mkQPoint 150 500) Qt.LeftButton up ctrl) ] in
  let result := SourceSession.run (ClipSelectViewer.init 400 300) evs in
  length (snd (fst result)) = 2%nat /\
  snd result = [] /\
  Forall in_unit_square (snd (fst result)) /\
  zoom_in_range (ClipSelectViewer.base (fst (fst result))).
Proof.
  intros ctrl up left evs result.
  split; [vm_compute; reflexivity|].
  apply (X11_source_session_is_safe 400 300 evs).
  subst evs.
  apply List.Forall_cons.
  { intros imgs Himgs. injection Himgs as <-.
    repeat (apply List.Forall_cons; [split; reflexivity|]). apply List.Forall_nil. }
  repeat (apply List.Forall_cons; [intros imgs Himgs; discriminate Himgs|]).
  apply List.Forall_nil.
Defined.

(** ** The target viewer (viewer/segment_viewer.py) *)

Lemma page_rects_from_length (widget_width : Z) (zoom : Q) (k : nat) (y_offset : Z)
    (pgs : list Qt.QSize) :
  length (SegmentViewer.page_rects_from widget_width zoom k y_offset pgs) = length pgs.
Proof.
  revert k y_offset. induction pgs as [|page rest IH]; intros k y_offset; simpl;
    [|rewrite IH]; reflexivity.
Qed.

Lemma page_rects_from_lookup (widget_width : Z) (zoom : Q) (k : nat) (y_offset : Z)
    (pgs : list Qt.QSize) (i : nat) (pi : nat) (px py pw ph : Z) :
  SegmentViewer.page_rects_from widget_width zoom k y_offset pgs !! i
  = Some (pi, px, py, pw, ph) ->
  pi = (k + i)%nat /\
  exists page,
    pgs !! i = Some page /\
    pw = Py.int (inject_Z (Qt.width page) * zoom) /\
    ph = Py.int (inject_Z (Qt.height page) * zoom) /\
    px = Py.floordiv (widget_width - pw) 2.
Proof.
  revert k y_offset i. induction pgs as [|page rest IH]; intros k y_offset i; simpl.
  - intros Hr. discriminate.
  - destruct i as [|i]; simpl.
    + intros Hr. injection Hr as <- <- <- <- <-. split; [lia|].
      exists page. repeat split.
    + intros Hr. apply IH in Hr as [-> Hpage]. split; [lia|exact Hpage].
Qed.

Lemma page_rects_from_next (widget_width : Z) (zoom : Q) (k : nat) (y_offset : Z)
    (pgs : list Qt.QSize) (i : nat) (r q : SegmentViewer.page_rect) :
  SegmentViewer.page_rects_from widget_width zoom k y_offset pgs !! i = Some r ->
  SegmentViewer.page_rects_from widget_width zoom k y_offset pgs !! S i = Some q ->
  snd (fst (fst q)) = snd (fst (fst r)) + snd r + ScrollViewer.PAGE_SPACING.
Proof.
  revert k y_offset i. induction pgs as [|page rest IH]; intros k y_offset i; simpl.
  - intros Hr. discriminate.
  - destruct i as [|i]; simpl.
    + intros Hr Hq. injection Hr as <-. destruct rest as [|page' rest']; simpl in Hq.
      * discriminate.
      * injection Hq as <-. simpl. lia.
    + apply IH.
Qed.

Lemma find_page_rect_from (widget_width : Z) (zoom : Q) (k : nat) (y_offset : Z)
    (pgs : list Qt.QSize) (i : nat) :
  SegmentViewer.find_page_rect
    (SegmentViewer.page_rects_from widget_width zoom k y_offset pgs) (k + i)
  = SegmentViewer.page_rects_from widget_width zoom k y_offset pgs !! i.
Proof.
  revert k y_offset i. induction pgs as [|page rest IH]; intros k y_offset i; simpl.
  - reflexivity.
  - destruct i as [|i]; simpl.
    + rewrite Nat.add_0_r, Nat.eqb_refl. reflexivity.
    + destruct (Nat.eqb_spec k (k + S i)) as [E|_]; [lia|].
      replace (k + S i)%nat with (S k + i)%nat by lia. apply IH.
Qed.

(** X12. The layout the target viewer caches: after [update_page_rects]
    there is one entry per page, in page order and carrying its own page
    index; an entry is as wide and as high as its page scaled by the zoom
    factor and truncated, and horizontally centred by floor division; the
    first entry starts at [-scroll_offset]; every entry starts one
    [PAGE_SPACING] below the end of the entry before it; and the search by
    page index that drawing, hovering and dropping use finds the entry of
    that page. *)
Theorem X12_target_pages_are_stacked (v : SegmentViewer.t) :
  let rects := SegmentViewer.page_rects (SegmentViewer.update_page_rects v) in
  let zoom := ScrollViewer.zoom_factor (SegmentViewer.base v) in
  let widget_width := ScrollViewer.widget_width (SegmentViewer.base v) in
  length rects = SegmentViewer.pages_count v /\
  (forall r, rects !! 0%nat = Some r ->
     snd (fst (fst r)) = - ScrollViewer.scroll_offset (SegmentViewer.base v)) /\
  (forall i pi px py pw ph, rects !! i = Some (pi, px, py, pw, ph) ->
     pi = i /\
     exists page,
       SegmentViewer.pages v !! i = Some page /\
       pw = Py.int (inject_Z (Qt.width page) * zoom) /\
       ph = Py.int (inject_Z (Qt.height page) * zoom) /\
       px = Py.floordiv (widget_width - pw) 2) /\
  (forall i r q, rects !! i = Some r -> rects !! S i = Some q ->
     snd (fst (fst q)) = snd (fst (fst r)) + snd r + ScrollViewer.PAGE_SPACING) /\
  (forall i, SegmentViewer.find_page_rect rects i = rects !! i).
Proof.
  intros rects zoom widget_width. subst rects zoom widget_width. simpl.
  split; [apply page_rects_from_length|]. split; [|split; [|split]].
  - intros r. destruct (SegmentViewer.pages v); simpl; intros Hr; [discriminate|].
    injection Hr as <-. reflexivity.
  - intros i pi px py pw ph Hr. apply page_rects_from_lookup in Hr. exact Hr.
  - apply page_rects_from_next.
  - intros i. apply (find_page_rect_from _ _ 0%nat).
Qed.

Lemma segment_hit_spec (v : SegmentViewer.t) (mouse_pos : Qt.QPoint) (i : nat) :
  SegmentViewer.segment_hit v mouse_pos i = true <-> pointer_on_segment v mouse_pos i.
Proof.
  unfold SegmentViewer.segment_hit, pointer_on_segment. split.
  - destruct (SegmentViewer.segments v !! i) as [segment|]; [|discriminate].
    destruct (SegmentViewer.scaled_segments v !! i) as [scaled|]; [|discriminate].
    destruct (SegmentViewer.find_page_rect _ _) as [[[[[pi px] py] pw] ph]|] eqn:Hrect;
      [|discriminate].
    intros Hhit. exists segment, scaled, pi, px, py, pw, ph.
    split; [reflexivity|]. split; [reflexivity|]. split; [exact Hrect|].
    cbv zeta. rewrite !andb_true_iff, !Z.leb_le in Hhit. lia.
  - intros (segment & scaled & pi & px & py & pw & ph & -> & -> & -> & Hin).
    cbv zeta in Hin. rewrite !andb_true_iff, !Z.leb_le. lia.
Qed.

Lemma segment_hit_lt (v : SegmentViewer.t) (mouse_pos : Qt.QPoint) (i : nat) :
  SegmentViewer.segment_hit v mouse_pos i = true ->
  (i < length (SegmentViewer.segments v))%nat.
Proof.
  unfold SegmentViewer.segment_hit.
  destruct (SegmentViewer.segments v !! i) as [segment|] eqn:Hseg; [|discriminate].
  intros _. eapply lookup_lt_Some, Hseg.
Qed.

Lemma hovered_below_spec (v : SegmentViewer.t) (mouse_pos : Qt.QPoint) (n i : nat) :
  SegmentViewer.hovered_below v mouse_pos n = Some i <->
  (i < n)%nat /\ SegmentViewer.segment_hit v mouse_pos i = true /\
  forall j, (i < j < n)%nat -> SegmentViewer.segment_hit v mouse_pos j = false.
Proof.
  induction n as [|n IH]; simpl.
  - split; [discriminate|]. intros [Hi _]. lia.
  - destruct (SegmentViewer.segment_hit v mouse_pos n) eqn:E.
    + split.
      * intros Hi. injection Hi as <-. split; [lia|]. split; [exact E|]. intros j Hj. lia.
      * intros (Hi & Hhit & Hno). f_equal.
        destruct (decide (i = n)) as [->|Hne]; [reflexivity|].
        specialize (Hno n ltac:(lia)). congruence.
    + rewrite IH. split.
      * intros (Hi & Hhit & Hno). split; [lia|]. split; [exact Hhit|]. intros j Hj.
        destruct (decide (j = n)) as [->|Hne]; [exact E|apply Hno; lia].
      * intros (Hi & Hhit & Hno). assert (i <> n) by congruence.
        split; [lia|]. split; [exact Hhit|]. intros j Hj. apply Hno. lia.
Qed.

(** X13. Hovering picks the topmost segment: [get_hovered_segment] returns
    index [i] exactly when the viewer has a page, the pointer is on the
    drawn image of segment [i], and it is on the image of no segment added
    after [i]. *)
Theorem X13_hover_picks_the_topmost_segment
    (v : SegmentViewer.t) (mouse_pos : Qt.QPoint) (i : nat) :
  SegmentViewer.get_hovered_segment v mouse_pos = Some i <->
  SegmentViewer.pages v <> [] /\
  pointer_on_segment v mouse_pos i /\
  forall j, (i < j)%nat -> ~ pointer_on_segment v mouse_pos j.
Proof.
  rewrite <- segment_hit_spec.
  assert (Hiff : (forall j, (i < j)%nat -> ~ pointer_on_segment v mouse_pos j) <->
                 (forall j, (i < j < length (SegmentViewer.segments v))%nat ->
                            SegmentViewer.segment_hit v mouse_pos j = false)).
  { split.
    - intros Hno j Hj. apply not_true_is_false. intros Hhit.
      apply (Hno j); [lia|]. apply segment_hit_spec, Hhit.
    - intros Hno j Hj Hon. apply segment_hit_spec in Hon.
      pose proof (segment_hit_lt _ _ _ Hon) as Hlt.
      rewrite Hno in Hon by lia. discriminate. }
  rewrite Hiff. clear Hiff.
  pose proof (segment_hit_lt v mouse_pos i) as Hlt.
  unfold SegmentViewer.get_hovered_segment.
  destruct (SegmentViewer.pages v) as [|page pages'].
  - split; [discriminate|]. intros [Hpages _]. contradiction.
  - destruct (SegmentViewer.segments v) as [|segment segments'] eqn:Hsegs.
    + split; [discriminate|]. intros (_ & Hhit & _). apply Hlt in Hhit. simpl in Hhit. lia.
    + rewrite hovered_below_spec. split.
      * intros (Hi & Hhit & Hno). split; [discriminate|]. split; assumption.
      * intros (_ & Hhit & Hno). split; [apply Hlt, Hhit|]. split; assumption.
Qed.

Lemma insert_target_rect_frame (segs : list Segment) (hovered : nat) (segment : Segment)
    (r : SelectedRect) (i : nat) (s' : Segment) :
  segs !! hovered = Some segment ->
  <[hovered := set_target_rect r segment]> segs !! i = Some s' ->
  exists s,
    segs !! i = Some s /\
    selected_rect s' = selected_rect s /\
    clipped_pixmap s' = clipped_pixmap s /\
    (hovered <> i -> s' = s).
Proof.
  intros Hseg Hs'.
  destruct (decide (hovered = i)) as [<-|Hne].
  - rewrite list_lookup_insert_eq in Hs' by (eapply lookup_lt_Some, Hseg).
    injection Hs' as <-. exists segment. split; [exact Hseg|].
    split; [reflexivity|]. split; [reflexivity|]. intros Hne. contradiction.
  - rewrite list_lookup_insert_ne in Hs' by exact Hne.
    exists s'. split; [exact Hs'|]. repeat split.
Qed.

Lemma lookup_frame (segs : list Segment) (hovered : option nat) (i : nat) (s' : Segment) :
  segs !! i = Some s' ->
  exists s,
    segs !! i = Some s /\
    selected_rect s' = selected_rect s /\
    clipped_pixmap s' = clipped_pixmap s /\
    (hovered <> Some i -> s' = s).
Proof. intros Hs'. exists s'. split; [exact Hs'|]. repeat split. Qed.

Lemma mouseReleaseEvent_keeps (v : SegmentViewer.t) (event : Qt.QMouseEvent) :
  let v' := Py.state_of (SegmentViewer.mouseReleaseEvent v event) in
  SegmentViewer.base v' = SegmentViewer.base v /\
  SegmentViewer.pages v' = SegmentViewer.pages v /\
  SegmentViewer.scaled_segments v' = SegmentViewer.scaled_segments v /\
  SegmentViewer.page_rects v' = SegmentViewer.page_rects v /\
  SegmentViewer.hovered_segment_index v' = SegmentViewer.hovered_segment_index v /\
  SegmentViewer.dragging_segment v' = false /\
  length (SegmentViewer.segments v') = length (SegmentViewer.segments v).
Proof.
  intros v'. subst v'.
  unfold SegmentViewer.mouseReleaseEvent, SegmentViewer.get_current_page_index.
  destruct (SegmentViewer.dragging_segment v) eqn:Hdrag.
  2:{ simpl. repeat split. exact Hdrag. }
  cbn [SegmentViewer.hovered_segment_index SegmentViewer.set_dragging_segment
       SegmentViewer.segments SegmentViewer.page_rects].
  destruct (SegmentViewer.hovered_segment_index v) as [hovered|] eqn:Hhov.
  2:{ simpl. repeat split. exact Hhov. }
  destruct (SegmentViewer.current_page_index_in _ _) as [current_page_index|].
  2:{ simpl. repeat split. exact Hhov. }
  destruct (SegmentViewer.segments v !! hovered) as [segment|].
  2:{ simpl. repeat split. exact Hhov. }
  destruct (negb _).
  - simpl. repeat split; [exact Hhov|apply length_insert].
  - destruct (SegmentViewer.same_page_offsets _ _ _) as [[x_offset y_offset]|err]; simpl.
    + repeat split; [exact Hhov|apply length_insert].
    + repeat split. exact Hhov.
Qed.

(** X14. What a release can change: whatever the state and the event,
    [mouseReleaseEvent] (also when it raises) leaves the base attributes,
    the pages, both caches and the hover index as they were, ends with no
    drag under way, keeps the number of segments, and changes no segment
    but the hovered one, of which it keeps the [selected_rect] and the
    clipped image. *)
Theorem X14_release_changes_one_target_rect
    (v : SegmentViewer.t) (event : Qt.QMouseEvent) :
  let v' := Py.state_of (SegmentViewer.mouseReleaseEvent v event) in
  SegmentViewer.base v' = SegmentViewer.base v /\
  SegmentViewer.pages v' = SegmentViewer.pages v /\
  SegmentViewer.scaled_segments v' = SegmentViewer.scaled_segments v /\
  SegmentViewer.page_rects v' = SegmentViewer.page_rects v /\
  SegmentViewer.hovered_segment_index v' = SegmentViewer.hovered_segment_index v /\
  SegmentViewer.dragging_segment v' = false /\
  length (SegmentViewer.segments v') = length (SegmentViewer.segments v) /\
  forall i s', SegmentViewer.segments v' !! i = Some s' ->
    exists s,
      SegmentViewer.segments v !! i = Some s /\
      selected_rect s' = selected_rect s /\
      clipped_pixmap s' = clipped_pixmap s /\
      (SegmentViewer.hovered_segment_index v <> Some i -> s' = s).
Proof.
  intros v'. subst v'.
  unfold SegmentViewer.mouseReleaseEvent, SegmentViewer.get_current_page_index.
  destruct (SegmentViewer.dragging_segment v) eqn:Hdrag.
  2:{ simpl. repeat (split; [first [reflexivity|exact Hdrag]|]). apply lookup_frame. }
  cbn [SegmentViewer.hovered_segment_index SegmentViewer.set_dragging_segment
       SegmentViewer.segments SegmentViewer.page_rects].
  destruct (SegmentViewer.hovered_segment_index v) as [hovered|] eqn:Hhov.
  2:{ simpl. repeat (split; [first [reflexivity|exact Hhov]|]). apply lookup_frame. }
  destruct (SegmentViewer.current_page_index_in _ _) as [current_page_index|].
  2:{ simpl. repeat (split; [first [reflexivity|exact Hhov]|]). apply lookup_frame. }
  destruct (SegmentViewer.segments v !! hovered) as [segment|] eqn:Hseg.
  2:{ simpl. repeat (split; [first [reflexivity|exact Hhov]|]). apply lookup_frame. }
  destruct (negb _).
  - simpl. repeat (split; [first [reflexivity|exact Hhov|apply length_insert]|]).
    intros i s' Hs'.
    destruct (insert_target_rect_frame _ _ _ _ _ _ Hseg Hs') as (s & Hs & Hsel & Hpix & Hsame).
    exists s. repeat (split; [assumption|]). intros Hne. apply Hsame. congruence.
  - destruct (SegmentViewer.same_page_offsets _ _ _) as [[x_offset y_offset]|err].
    2:{ simpl. repeat (split; [first [reflexivity|exact Hhov]|]). apply lookup_frame. }
    simpl. repeat (split; [first [reflexivity|exact Hhov|apply length_insert]|]).
    intros i s' Hs'.
    destruct (insert_target_rect_frame _ _ _ _ _ _ Hseg Hs') as (s & Hs & Hsel & Hpix & Hsame).
    exists s. repeat (split; [assumption|]). intros Hne. apply Hsame. congruence.
Qed.

Lemma dragging_offset_axis (start_pos end_pos : Qt.QPoint) :
  Qt.x (SegmentViewer.dragging_offset start_pos end_pos) = 0 \/
  Qt.y (SegmentViewer.dragging_offset start_pos end_pos) = 0.
Proof.
  unfold SegmentViewer.dragging_offset.
  destruct (_ >? _); [right|left]; reflexivity.
Qed.

Lemma truediv_of_zero (b q : Q) : Py.truediv (inject_Z 0) b = Py.Ok q -> (q == 0)%Q.
Proof.
  unfold Py.truediv. destruct (Qeq_bool b 0); [discriminate|].
  intros Hq. injection Hq as <-. unfold Qdiv. apply Qmult_0_l.
Qed.

Lemma same_page_offsets_axis (v : SegmentViewer.t) (hovered : nat) (segment : Segment)
    (x_offset y_offset : Q) :
  SegmentViewer.same_page_offsets v hovered segment = Py.Ok (x_offset, y_offset) ->
  (x_offset == 0 \/ y_offset == 0)%Q.
Proof.
  unfold SegmentViewer.same_page_offsets, SegmentViewer.get_segment_dragging_offset,
    mbind, Py.result_bind.
  destruct (Py.getitem (SegmentViewer.scaled_segments v) hovered) as [scaled|]; [|discriminate].
  destruct (Py.truediv (inject_Z (Qt.width scaled)) _) as [scaled_factor|]; [|discriminate].
  destruct (Py.getitem (SegmentViewer.pages v) _) as [page_size|]; [|discriminate].
  destruct (SegmentViewer.segment_drag_end_pos v) as [end_pos|]; [|discriminate].
  destruct (SegmentViewer.segment_drag_start_pos v) as [start_pos|]; [|discriminate].
  destruct (Py.truediv (inject_Z (Qt.x _)) _) as [qx|] eqn:Ex; [|discriminate].
  destruct (Py.truediv (inject_Z (Qt.y _)) _) as [qy|] eqn:Ey; [|discriminate].
  intros Hq. injection Hq as <- <-.
  destruct (dragging_offset_axis start_pos end_pos) as [H0|H0]; rewrite H0 in *.
  - left. eapply truediv_of_zero, Ex.
  - right. eapply truediv_of_zero, Ey.
Qed.

(** X15. A drop on the page the segment is on moves it along one axis only:
    when a drag of a segment is released inside the page of its
    [target_rect] and the handler returns, the rectangle is shifted by a pair
    of offsets of which at least one is zero; the page index, the width and
    the height of the rectangle are kept, and so is one of the two pairs of
    edges. *)
Theorem X15_same_page_drop_is_axis_locked
    (v v' : SegmentViewer.t) (event : Qt.QMouseEvent) (hovered : nat) (segment : Segment) :
  SegmentViewer.dragging_segment v = true ->
  SegmentViewer.hovered_segment_index v = Some hovered ->
  SegmentViewer.segments v !! hovered = Some segment ->
  SegmentViewer.get_current_page_index v (Qt.pos event)
  = Some (page_index (target_rect segment)) ->
  SegmentViewer.mouseReleaseEvent v event = Py.Returned v' ->
  let target := target_rect segment in
  exists target',
    SegmentViewer.segments v'
    = <[hovered := set_target_rect target' segment]> (SegmentViewer.segments v) /\
    page_index target' = page_index target /\
    (x_max target' - x_min target' == x_max target - x_min target /\
     y_max target' - y_min target' == y_max target - y_min target)%Q /\
    ((x_min target' == x_min target /\ x_max target' == x_max target) \/
     (y_min target' == y_min target /\ y_max target' == y_max target))%Q.
Proof.
  intros Hdrag Hhov Hseg Hpage Hrun target.
  unfold SegmentViewer.mouseReleaseEvent in Hrun. rewrite Hdrag in Hrun.
  cbn [SegmentViewer.hovered_segment_index SegmentViewer.set_dragging_segment
       SegmentViewer.segments] in Hrun.
  rewrite Hhov in Hrun.
  change (SegmentViewer.get_current_page_index _ (Qt.pos event))
    with (SegmentViewer.get_current_page_index v (Qt.pos event)) in Hrun.
  rewrite Hpage, Hseg, Nat.eqb_refl in Hrun. cbn [negb] in Hrun.
  destruct (SegmentViewer.same_page_offsets _ _ _) as [[x_offset y_offset]|err] eqn:Hoff;
    [|discriminate].
  injection Hrun as <-.
  exists (shift_rect x_offset y_offset target).
  split; [reflexivity|]. split; [reflexivity|]. simpl.
  split; [split; ring|].
  destruct (same_page_offsets_axis _ _ _ _ _ Hoff) as [H0|H0]; [left|right];
    rewrite H0; split; ring.
Qed.

Lemma X15_same_page_drop_witness :
  let event :=
    Qt.mkMouseEvent (Qt.mkQPoint 100 100) Qt.LeftButton (Qt.mkButtons false false false)
      (Qt.mkModifiers false true false false) in
  let segment := new_Segment (mkSelectedRect 0 (1 # 4) (1 # 2) (1 # 4) (1 # 2))
                   (Qt.mkQSize 50 50) in
  exists v' target',
    SegmentViewer.mouseReleaseEvent dragging_example event = Py.Returned v' /\
    SegmentViewer.segments v' = [set_target_rect target' segment] /\
    (x_min target' == 1 # 4 /\ x_max target' == 1 # 2)%Q.
Proof.
  intros event segment.
  destruct (SegmentViewer.mouseReleaseEvent dragging_example event) as [v'|e v'] eqn:Hrun.
  2:{ vm_compute in Hrun. discriminate Hrun. }
  destruct (X15_same_page_drop_is_axis_locked dragging_example v' event 0%nat segment
              eq_refl eq_refl eq_refl ltac:(vm_compute; reflexivity) Hrun)
    as (target' & Hsegs & _ & _ & Haxis).
  exists v', target'. split; [reflexivity|]. split; [exact Hsegs|].
  destruct Haxis as [Hx|[Hy _]]; [exact Hx|].
  exfalso. vm_compute in Hrun. injection Hrun as <-.
  injection Hsegs as Hsegs. rewrite <- Hsegs in Hy. revert Hy. vm_compute. discriminate.
Defined.

Lemma page_rects_from_indices (widget_width : Z) (zoom : Q) (k : nat) (y_offset : Z)
    (pgs : list Qt.QSize) :
  Forall (fun r => (rect_index r < k + length pgs)%nat)
         (SegmentViewer.page_rects_from widget_width zoom k y_offset pgs).
Proof.
  revert k y_offset. induction pgs as [|page rest IH]; intros k y_offset; simpl.
  - apply List.Forall_nil.
  - apply List.Forall_cons; [simpl; lia|].
    eapply Forall_impl; [apply IH|]. intros r Hr. simpl in Hr. lia.
Qed.

Lemma current_page_index_in_bound (rects : list SegmentViewer.page_rect) (pos : Qt.QPoint)
    (n pi : nat) :
  Forall (fun r => (rect_index r < n)%nat) rects ->
  SegmentViewer.current_page_index_in rects pos = Some pi -> (pi < n)%nat.
Proof.
  induction 1 as [|[[[[pi0 px] py] pw] ph] rects Hr _ IH]; simpl; [discriminate|].
  destruct (_ && _); [|exact IH].
  intros Hpi. injection Hpi as <-. exact Hr.
Qed.

Lemma getitem_err {A : Type} (l : list A) (i : nat) (e : Py.exn) :
  Py.getitem l i = Py.Err e -> e = Py.IndexError.
Proof. unfold Py.getitem. destruct (l !! i); congruence. Qed.

Lemma truediv_err (a b : Q) (e : Py.exn) :
  Py.truediv a b = Py.Err e -> e = Py.ZeroDivisionError.
Proof. unfold Py.truediv. destruct (Qeq_bool b 0); congruence. Qed.

Ltac target_goals := split; [|split; [|split]].

Lemma update_page_rects_invariant (v : SegmentViewer.t) :
  zoom_in_range (SegmentViewer.base v) ->
  length (SegmentViewer.scaled_segments v) = length (SegmentViewer.segments v) ->
  (SegmentViewer.dragging_segment v = true ->
   is_Some (SegmentViewer.hovered_segment_index v) /\
   is_Some (SegmentViewer.segment_drag_start_pos v) /\
   is_Some (SegmentViewer.segment_drag_end_pos v)) ->
  target_invariant (SegmentViewer.update_page_rects v).
Proof.
  intros Hzoom Hlen Hdrag.
  target_goals; [exact Hzoom|exact Hlen| |exact Hdrag].
  apply (page_rects_from_indices _ _ 0%nat).
Qed.

Lemma update_scaled_segments_invariant (v : SegmentViewer.t) :
  zoom_in_range (SegmentViewer.base v) ->
  Forall (fun r => (rect_index r < SegmentViewer.pages_count v)%nat)
         (SegmentViewer.page_rects v) ->
  (SegmentViewer.dragging_segment v = true ->
   is_Some (SegmentViewer.hovered_segment_index v) /\
   is_Some (SegmentViewer.segment_drag_start_pos v) /\
   is_Some (SegmentViewer.segment_drag_end_pos v)) ->
  target_invariant (SegmentViewer.update_scaled_segments v).
Proof.
  intros Hzoom Hrects Hdrag.
  target_goals; [exact Hzoom| |exact Hrects|exact Hdrag].
  simpl. apply length_map.
Qed.

Lemma add_page_invariant (v : SegmentViewer.t) (rect : Qt.QSize) :
  target_invariant v -> target_invariant (Py.state_of (SegmentViewer.add_page v rect)).
Proof.
  intros (Hzoom & Hlen & Hrects & Hdrag). unfold SegmentViewer.add_page.
  destruct (_ && _).
  - cbn [SegmentViewer.base SegmentViewer.set_pages ScrollViewer.widget_width].
    destruct (Py.truediv _ _) as [zoom|e]; cbn [Py.state_of].
    + apply update_page_rects_invariant;
        [apply clamped_zoom_in_range|exact Hlen|exact Hdrag].
    + target_goals; [exact Hzoom|exact Hlen| |exact Hdrag].
      eapply Forall_impl; [exact Hrects|]. intros r Hr.
      unfold SegmentViewer.pages_count in *. simpl. rewrite length_app. lia.
  - cbn [Py.state_of].
    apply update_page_rects_invariant; [exact Hzoom|exact Hlen|exact Hdrag].
Qed.

Lemma add_pages_invariant (imgs : list Qt.QSize) (indices : list nat) (v : SegmentViewer.t) :
  target_invariant v ->
  target_invariant (Py.state_of (MainWindow.add_pages imgs v indices)).
Proof.
  revert v. induction indices as [|i rest IH]; intros v Hinv; simpl; [exact Hinv|].
  destruct (Py.getitem imgs i) as [image|e]; [|exact Hinv].
  pose proof (add_page_invariant v image Hinv) as Hpage.
  destruct (SegmentViewer.add_page v image) as [v1|e v1]; simpl in Hpage.
  - apply IH, Hpage.
  - exact Hpage.
Qed.

Lemma add_segment_invariant (v : SegmentViewer.t) (segment : Segment) :
  target_invariant v -> target_invariant (SegmentViewer.add_segment v segment).
Proof.
  intros (Hzoom & Hlen & Hrects & Hdrag).
  apply update_scaled_segments_invariant; assumption.
Qed.

Lemma wheelEvent_invariant (v : SegmentViewer.t) (e : Qt.QWheelEvent) :
  target_invariant v -> target_invariant (Py.state_of (ScrollViewer.wheelEvent v e)).
Proof.
  intros (Hzoom & Hlen & Hrects & Hdrag). unfold ScrollViewer.wheelEvent.
  destruct (Qt.modifiers_eq_control _).
  - destruct (Py.truediv _ _) as [scale_ratio|err]; cbn [Py.state_of].
    + apply update_page_rects_invariant;
        [apply stepped_zoom_in_range|simpl; apply length_map|exact Hdrag].
    + target_goals; [apply stepped_zoom_in_range|exact Hlen|exact Hrects|exact Hdrag].
  - cbn [Py.state_of].
    apply update_page_rects_invariant; [exact Hzoom|exact Hlen|exact Hdrag].
Qed.

Lemma mousePressEvent_invariant (v : SegmentViewer.t) (e : Qt.QMouseEvent) :
  target_invariant v -> target_invariant (SegmentViewer.mousePressEvent v e).
Proof.
  intros (Hzoom & Hlen & Hrects & Hdrag).
  unfold SegmentViewer.mousePressEvent, ScrollViewer.mousePressEvent.
  destruct (SegmentViewer.hovered_segment_index v) as [hovered|] eqn:Hhov.
  - destruct (_ && _).
    + target_goals; [exact Hzoom|exact Hlen|exact Hrects|].
      intros _. simpl. rewrite Hhov. repeat split; eexists; reflexivity.
    + destruct (Qt.MouseButton_eqb _ _);
        (target_goals; [exact Hzoom|exact Hlen|exact Hrects|]);
        simpl; rewrite Hhov; exact Hdrag.
  - destruct (Qt.MouseButton_eqb _ _);
      (target_goals; [exact Hzoom|exact Hlen|exact Hrects|]);
      simpl; rewrite Hhov; exact Hdrag.
Qed.

Lemma mouseMoveEvent_invariant (v : SegmentViewer.t) (e : Qt.QMouseEvent) :
  target_invariant v -> target_invariant (SegmentViewer.mouseMoveEvent v e).
Proof.
  intros (Hzoom & Hlen & Hrects & Hdrag).
  unfold SegmentViewer.mouseMoveEvent.
  destruct (SegmentViewer.dragging_segment v) eqn:Edrag.
  - target_goals; [exact Hzoom|exact Hlen|exact Hrects|].
    intros _. simpl. destruct (Hdrag eq_refl) as (Hhov & Hstart & _).
    split; [exact Hhov|]. split; [exact Hstart|]. eexists; reflexivity.
  - unfold ScrollViewer.mouseMoveEvent.
    cbn [ScrollViewer.viewer_base SegmentViewer.viewer SegmentViewer.base
         SegmentViewer.set_hovered_segment_index].
    destruct (ScrollViewer.drag_start _) as [[drag_start_pos drag_start_offset]|].
    + destruct (Qt.buttons_eq_left _).
      * apply update_page_rects_invariant; [exact Hzoom|exact Hlen|].
        simpl. intros Hc. congruence.
      * target_goals; [exact Hzoom|exact Hlen|exact Hrects|].
        simpl. intros Hc. congruence.
    + target_goals; [exact Hzoom|exact Hlen|exact Hrects|].
      simpl. intros Hc. congruence.
Qed.

Lemma mouseReleaseEvent_invariant (v : SegmentViewer.t) (e : Qt.QMouseEvent) :
  target_invariant v ->
  target_invariant (Py.state_of (SegmentViewer.mouseReleaseEvent v e)).
Proof.
  intros Hinv.
  destruct (mouseReleaseEvent_keeps v e) as (Hbase & Hpages & Hscaled & Hrects & _ & Hdrag & Hlen).
  destruct Hinv as (Hzoom & Hlen0 & Hrects0 & _).
  target_goals.
  - rewrite Hbase. exact Hzoom.
  - rewrite Hscaled, Hlen. exact Hlen0.
  - unfold SegmentViewer.pages_count. rewrite Hrects, Hpages. exact Hrects0.
  - rewrite Hdrag. discriminate.
Qed.

Lemma step_target_invariant (v : SegmentViewer.t) (ev : Session.event) :
  target_invariant v -> target_invariant (Py.state_of (Session.step v ev)).
Proof.
  intros Hinv. destruct ev as [imgs rect|size|rect pix| |w h|e|e|e|e]; simpl.
  - unfold MainWindow.on_clip_selected.
    pose proof (add_pages_invariant imgs
                  (seq (SegmentViewer.pages_count v)
                       (page_index rect + 1 - SegmentViewer.pages_count v)) v Hinv) as Hpages.
    destruct (MainWindow.add_pages _ _ _) as [v1|err v1]; simpl in Hpages; [|exact Hpages].
    destruct (Py.getitem imgs (page_index rect)) as [source_pixmap|err]; [|exact Hpages].
    apply add_segment_invariant, Hpages.
  - apply add_page_invariant, Hinv.
  - apply add_segment_invariant, Hinv.
  - destruct Hinv as (Hzoom & _ & _ & Hdrag).
    target_goals; [exact Hzoom|reflexivity|apply List.Forall_nil|exact Hdrag].
  - destruct Hinv as (Hzoom & Hlen & Hrects & Hdrag).
    target_goals; [exact Hzoom|exact Hlen|exact Hrects|exact Hdrag].
  - apply wheelEvent_invariant, Hinv.
  - apply mousePressEvent_invariant, Hinv.
  - apply mouseMoveEvent_invariant, Hinv.
  - apply mouseReleaseEvent_invariant, Hinv.
Qed.

Lemma init_target_invariant (w h : Z) : target_invariant (SegmentViewer.init w h).
Proof.
  target_goals; [apply one_in_zoom_range|reflexivity|apply List.Forall_nil|].
  intros Hc. discriminate Hc.
Qed.

Lemma run_target_invariant (evs : list Session.event) (v : SegmentViewer.t) :
  target_invariant v -> target_invariant (Session.run v evs).
Proof.
  revert v. induction evs as [|ev evs IH]; intros v Hinv; [exact Hinv|].
  simpl. apply IH, step_target_invariant, Hinv.
Qed.

Lemma same_page_offsets_err (v : SegmentViewer.t) (hovered : nat) (segment : Segment)
    (e : Py.exn) :
  is_Some (SegmentViewer.segment_drag_start_pos v) ->
  is_Some (SegmentViewer.segment_drag_end_pos v) ->
  SegmentViewer.same_page_offsets v hovered segment = Py.Err e ->
  e = Py.IndexError \/ e = Py.ZeroDivisionError.
Proof.
  intros [start_pos Hstart] [end_pos Hend].
  unfold SegmentViewer.same_page_offsets, SegmentViewer.get_segment_dragging_offset,
    mbind, Py.result_bind.
  rewrite Hstart, Hend.
  destruct (Py.getitem (SegmentViewer.scaled_segments v) hovered) as [scaled|] eqn:E1.
  2:{ intros He. injection He as <-. left. eapply getitem_err, E1. }
  destruct (Py.truediv (inject_Z (Qt.width scaled)) _) as [scaled_factor|] eqn:E2.
  2:{ intros He. injection He as <-. right. eapply truediv_err, E2. }
  destruct (Py.getitem (SegmentViewer.pages v) _) as [page_size|] eqn:E3.
  2:{ intros He. injection He as <-. left. eapply getitem_err, E3. }
  destruct (Py.truediv (inject_Z (Qt.x _)) _) as [qx|] eqn:E4.
  2:{ intros He. injection He as <-. right. eapply truediv_err, E4. }
  destruct (Py.truediv (inject_Z (Qt.y _)) _) as [qy|] eqn:E5.
  2:{ intros He. injection He as <-. right. eapply truediv_err, E5. }
  discriminate.
Qed.

Lemma mouseReleaseEvent_raises (v : SegmentViewer.t) (event : Qt.QMouseEvent) (e : Py.exn) :
  target_invariant v ->
  Py.raised (SegmentViewer.mouseReleaseEvent v event) = Some e ->
  e = Py.IndexError \/ e = Py.ZeroDivisionError.
Proof.
  intros (_ & _ & _ & Hdrag).
  unfold SegmentViewer.mouseReleaseEvent, SegmentViewer.get_current_page_index.
  destruct (SegmentViewer.dragging_segment v); [|discriminate].
  destruct (Hdrag eq_refl) as ([hovered Hhov] & Hstart & Hend).
  cbn [SegmentViewer.hovered_segment_index SegmentViewer.set_dragging_segment
       SegmentViewer.segments SegmentViewer.page_rects].
  rewrite Hhov.
  destruct (SegmentViewer.current_page_index_in _ _) as [current_page_index|];
    [|discriminate].
  destruct (SegmentViewer.segments v !! hovered) as [segment|].
  2:{ simpl. intros He. injection He as <-. left. reflexivity. }
  destruct (negb _); [discriminate|].
  destruct (SegmentViewer.same_page_offsets _ _ _) as [[x_offset y_offset]|err] eqn:Hoff;
    [discriminate|].
  simpl. intros He. injection He as <-.
  eapply same_page_offsets_err; [| |exact Hoff]; assumption.
Qed.

(** X16. What every session of the target viewer keeps.  After any sequence
    of selection signals, [add_page], [add_segment] and [clear] calls,
    resizes, and wheel and mouse events, from the initial widget and with
    exceptions escaping or not: the zoom factor is within
    [[min_zoom, max_zoom]]; there is exactly one scaled image per segment, so
    the guards [index >= len(self.scaled_segments)] never fire; every entry
    of [page_rects] names a page the viewer has; and a release then raises
    neither the [AssertionError] of its [assert] nor an [AttributeError] for
    a drag position that was never set. *)
Theorem X16_target_session_invariants
    (w h : Z) (evs : list Session.event) (event : Qt.QMouseEvent) :
  let v := Session.run (SegmentViewer.init w h) evs in
  zoom_in_range (SegmentViewer.base v) /\
  length (SegmentViewer.scaled_segments v) = length (SegmentViewer.segments v) /\
  Forall (fun r => (rect_index r < SegmentViewer.pages_count v)%nat)
         (SegmentViewer.page_rects v) /\
  Py.raised (SegmentViewer.mouseReleaseEvent v event) <> Some Py.AssertionError /\
  Py.raised (SegmentViewer.mouseReleaseEvent v event) <> Some Py.AttributeError.
Proof.
  intros v.
  pose proof (run_target_invariant evs _ (init_target_invariant w h)) as Hinv.
  fold v in Hinv.
  pose proof (mouseReleaseEvent_raises v event) as Hraises.
  destruct Hinv as (Hzoom & Hlen & Hrects & Hdrag).
  split; [exact Hzoom|]. split; [exact Hlen|]. split; [exact Hrects|].
  assert (Hinv : target_invariant v) by (target_goals; assumption).
  split; intros Hc; destruct (Hraises _ Hinv Hc); discriminate.
Qed.

Lemma segments_within_mono (n m : nat) (segs : list Segment) :
  (n <= m)%nat -> segments_within n segs -> segments_within m segs.
Proof.
  intros Hle Hsegs. eapply Forall_impl; [exact Hsegs|]. intros s [Hs Ht]. split; lia.
Qed.

Lemma add_page_pages (v : SegmentViewer.t) (rect : Qt.QSize) :
  SegmentViewer.pages (Py.state_of (SegmentViewer.add_page v rect))
  = SegmentViewer.pages v ++ [rect].
Proof.
  unfold SegmentViewer.add_page.
  destruct (_ && _); [|reflexivity].
  cbn [SegmentViewer.base SegmentViewer.set_pages ScrollViewer.widget_width].
  destruct (Py.truediv _ _); reflexivity.
Qed.

Lemma add_pages_pages (imgs : list Qt.QSize) (indices : list nat) (v : SegmentViewer.t) :
  (length (SegmentViewer.pages v)
   <= length (SegmentViewer.pages (Py.state_of (MainWindow.add_pages imgs v indices))))%nat /\
  (forall v1, MainWindow.add_pages imgs v indices = Py.Returned v1 ->
     SegmentViewer.pages v1
     = SegmentViewer.pages v ++ omap (fun i => imgs !! i) indices /\
     length (SegmentViewer.pages v1) = (length (SegmentViewer.pages v) + length indices)%nat).
Proof.
  revert v. induction indices as [|i rest IH]; intros v; simpl.
  - split; [lia|]. intros v1 Hv1. injection Hv1 as <-.
    rewrite app_nil_r. split; [reflexivity|lia].
  - unfold Py.getitem. destruct (imgs !! i) as [image|] eqn:Himage.
    2:{ split; [simpl; lia|]. intros v1 Hv1. discriminate. }
    pose proof (add_page_pages v image) as Hpage.
    destruct (SegmentViewer.add_page v image) as [v1|e v1]; simpl in Hpage.
    + destruct (IH v1) as [Hle Hret]. rewrite Hpage in Hle, Hret.
      rewrite length_app in Hle, Hret. simpl in Hle, Hret.
      split; [lia|]. intros v2 Hv2. destruct (Hret v2 Hv2) as [Hpages Hlen].
      split; [|lia]. rewrite Hpages, <- app_assoc. reflexivity.
    + split; [simpl; rewrite Hpage, length_app; simpl; lia|]. intros v2 Hv2. discriminate.
Qed.

Lemma wheelEvent_pages (v : SegmentViewer.t) (e : Qt.QWheelEvent) :
  SegmentViewer.pages (Py.state_of (ScrollViewer.wheelEvent v e)) = SegmentViewer.pages v.
Proof.
  unfold ScrollViewer.wheelEvent.
  destruct (Qt.modifiers_eq_control _); [|reflexivity].
  destruct (Py.truediv _ _); reflexivity.
Qed.

Lemma mouseMoveEvent_pages (v : SegmentViewer.t) (e : Qt.QMouseEvent) :
  SegmentViewer.pages (SegmentViewer.mouseMoveEvent v e) = SegmentViewer.pages v.
Proof.
  unfold SegmentViewer.mouseMoveEvent.
  destruct (SegmentViewer.dragging_segment v); [reflexivity|].
  unfold ScrollViewer.mouseMoveEvent. simpl.
  destruct (ScrollViewer.drag_start (SegmentViewer.base v)) as [[? ?]|]; [|reflexivity].
  destruct (Qt.buttons_eq_left _); reflexivity.
Qed.

Lemma mousePressEvent_pages (v : SegmentViewer.t) (e : Qt.QMouseEvent) :
  SegmentViewer.pages (SegmentViewer.mousePressEvent v e) = SegmentViewer.pages v.
Proof.
  unfold SegmentViewer.mousePressEvent, ScrollViewer.mousePressEvent.
  destruct (SegmentViewer.hovered_segment_index v);
    [destruct (_ && _); [reflexivity|]|];
    destruct (Qt.MouseButton_eqb _ _); reflexivity.
Qed.

Lemma mouseReleaseEvent_within (v : SegmentViewer.t) (e : Qt.QMouseEvent) :
  target_invariant v ->
  segments_within (SegmentViewer.pages_count v) (SegmentViewer.segments v) ->
  segments_within (SegmentViewer.pages_count v)
    (SegmentViewer.segments (Py.state_of (SegmentViewer.mouseReleaseEvent v e))).
Proof.
  intros (_ & _ & Hrects & _) Hwithin.
  unfold SegmentViewer.mouseReleaseEvent, SegmentViewer.get_current_page_index.
  destruct (SegmentViewer.dragging_segment v); [|exact Hwithin].
  cbn [SegmentViewer.hovered_segment_index SegmentViewer.set_dragging_segment
       SegmentViewer.segments SegmentViewer.page_rects].
  destruct (SegmentViewer.hovered_segment_index v) as [hovered|]; [|exact Hwithin].
  destruct (SegmentViewer.current_page_index_in _ _) as [current_page_index|] eqn:Hcurrent;
    [|exact Hwithin].
  apply (current_page_index_in_bound _ _ _ _ Hrects) in Hcurrent.
  destruct (SegmentViewer.segments v !! hovered) as [segment|] eqn:Hseg; [|exact Hwithin].
  assert (Hsegment : (page_index (selected_rect segment) < SegmentViewer.pages_count v)%nat /\
                     (page_index (target_rect segment) < SegmentViewer.pages_count v)%nat).
  { unfold segments_within in Hwithin. rewrite Forall_forall in Hwithin.
    apply Hwithin. eapply list_elem_of_lookup_2. exact Hseg. }
  destruct (negb _).
  - simpl. apply Forall_insert; [exact Hwithin|]. simpl. split; [apply Hsegment|exact Hcurrent].
  - destruct (SegmentViewer.same_page_offsets _ _ _) as [[x_offset y_offset]|err];
      [|exact Hwithin].
    simpl. apply Forall_insert; [exact Hwithin|]. simpl. exact Hsegment.
Qed.

Lemma step_within (v : SegmentViewer.t) (ev : Session.event) :
  not_add_segment ev ->
  target_invariant v ->
  segments_within (SegmentViewer.pages_count v) (SegmentViewer.segments v) ->
  segments_within (SegmentViewer.pages_count (Py.state_of (Session.step v ev)))
    (SegmentViewer.segments (Py.state_of (Session.step v ev))).
Proof.
  intros Hev Hinv Hwithin. unfold SegmentViewer.pages_count in *.
  destruct ev as [imgs rect|size|rect pix| |w h|e|e|e|e]; simpl.
  - unfold MainWindow.on_clip_selected.
    set (indices := seq (SegmentViewer.pages_count v)
                        (page_index rect + 1 - SegmentViewer.pages_count v)).
    pose proof (add_pages_segments imgs indices v) as Hsegs.
    destruct (add_pages_pages imgs indices v) as [Hle Hret].
    destruct (MainWindow.add_pages imgs v indices) as [v1|err v1] eqn:Hadd;
      simpl in Hsegs, Hle.
    + destruct (Hret v1 eq_refl) as [_ Hlen].
      assert (Hpage : (page_index rect < length (SegmentViewer.pages v1))%nat).
      { rewrite Hlen. subst indices. rewrite length_seq.
        unfold SegmentViewer.pages_count. lia. }
      destruct (Py.getitem imgs (page_index rect)) as [source_pixmap|err]; simpl.
      * rewrite Hsegs. apply Forall_app. split.
        -- eapply segments_within_mono; [exact Hle|exact Hwithin].
        -- apply List.Forall_cons; [|apply List.Forall_nil]. simpl. split; exact Hpage.
      * rewrite Hsegs. eapply segments_within_mono; [exact Hle|exact Hwithin].
    + simpl. rewrite Hsegs. eapply segments_within_mono; [exact Hle|exact Hwithin].
  - rewrite add_page_segments, add_page_pages, length_app.
    eapply segments_within_mono; [|exact Hwithin]. lia.
  - contradiction.
  - apply List.Forall_nil.
  - exact Hwithin.
  - rewrite wheelEvent_segments, wheelEvent_pages. exact Hwithin.
  - rewrite mousePressEvent_segments, mousePressEvent_pages. exact Hwithin.
  - rewrite mouseMoveEvent_segments, mouseMoveEvent_pages. exact Hwithin.
  - destruct (mouseReleaseEvent_keeps v e) as (_ & Hpages & _).
    rewrite Hpages. apply mouseReleaseEvent_within; assumption.
Qed.

Lemma run_within (evs : list Session.event) (v : SegmentViewer.t) :
  Forall not_add_segment evs ->
  target_invariant v ->
  segments_within (SegmentViewer.pages_count v) (SegmentViewer.segments v) ->
  segments_within (SegmentViewer.pages_count (Session.run v evs))
    (SegmentViewer.segments (Session.run v evs)).
Proof.
  intros Hevs. revert v. induction Hevs as [|ev evs Hev _ IH]; intros v Hinv Hwithin;
    [exact Hwithin|].
  simpl. apply IH; [apply step_target_invariant, Hinv|apply step_within; assumption].
Qed.

(** X17. Segments stay on pages the viewer has.  In every session in which
    segments come from selection signals only (no direct call of
    [add_segment]), whatever else happens and whichever handler raises:
    every segment's [selected_rect.page_index] and [target_rect.page_index]
    is below [pages_count()].  A selection creates the pages up to its own
    first; a drop takes its page from [page_rects]; [clear] drops pages and
    segments together. *)
Theorem X17_segments_stay_on_existing_pages (w h : Z) (evs : list Session.event) :
  Forall not_add_segment evs ->
  let v := Session.run (SegmentViewer.init w h) evs in
  Forall (fun s => (page_index (selected_rect s) < SegmentViewer.pages_count v)%nat /\
                   (page_index (target_rect s) < SegmentViewer.pages_count v)%nat)
         (SegmentViewer.segments v).
Proof.
  intros Hevs v. subst v.
  apply (run_within evs (SegmentViewer.init w h) Hevs (init_target_invariant w h)).
  apply List.Forall_nil.
Qed.

Lemma X17_segments_on_pages_witness :
  let v := Session.run (SegmentViewer.init 220 300) drag_right_session in
  SegmentViewer.pages_count v = 1%nat /\
  length (SegmentViewer.segments v) = 1%nat /\
  Forall (fun s => (page_index (selected_rect s) < SegmentViewer.pages_count v)%nat /\
                   (page_index (target_rect s) < SegmentViewer.pages_count v)%nat)
         (SegmentViewer.segments v).
Proof.
  intros v. split; [vm_compute; reflexivity|]. split; [vm_compute; reflexivity|].
  apply (X17_segments_stay_on_existing_pages 220 300 drag_right_session).
  unfold drag_right_session.
  repeat (apply List.Forall_cons; [exact I|]). apply List.Forall_nil.
Defined.

(** X18. What [add_page] always does and when it fails: the page is
    appended and the segments are kept in every case; the call raises
    exactly when it adds the first page to a widget of positive width and
    the page has width 0, and then the page stays appended while the base
    attributes and [page_rects] are as before; a later page, or a page
    added to a widget without width, changes neither the zoom factor nor the
    scroll offset; and when the call returns, [page_rects] is the layout of
    the new list of pages, with the zoom factor of a first page clamped to
    [[min_zoom, max_zoom]] and its scroll offset reset to [-PAGE_SPACING]. *)
Theorem X18_add_page_outcome (v : SegmentViewer.t) (rect : Qt.QSize) :
  let o := SegmentViewer.add_page v rect in
  let v' := Py.state_of o in
  let width := ScrollViewer.widget_width (SegmentViewer.base v) in
  SegmentViewer.pages v' = SegmentViewer.pages v ++ [rect] /\
  SegmentViewer.segments v' = SegmentViewer.segments v /\
  (Py.raised o <> None <-> SegmentViewer.pages v = [] /\ 0 < width /\ Qt.width rect = 0) /\
  (forall e, Py.raised o = Some e ->
     e = Py.ZeroDivisionError /\
     SegmentViewer.base v' = SegmentViewer.base v /\
     SegmentViewer.page_rects v' = SegmentViewer.page_rects v) /\
  (SegmentViewer.pages v <> [] \/ width <= 0 ->
   SegmentViewer.base v' = SegmentViewer.base v) /\
  (Py.raised o = None ->
   SegmentViewer.update_page_rects v' = v' /\
   (SegmentViewer.pages v = [] -> 0 < width ->
    zoom_in_range (SegmentViewer.base v') /\
    ScrollViewer.scroll_offset (SegmentViewer.base v') = - ScrollViewer.PAGE_SPACING)).
Proof.
  intros o v' width. subst o v'.
  split; [apply add_page_pages|]. split; [apply add_page_segments|].
  unfold SegmentViewer.add_page.
  cbn [SegmentViewer.base SegmentViewer.set_pages ScrollViewer.widget_width].
  fold width.
  assert (Hfirst : (length (SegmentViewer.pages v) =? 0)%nat = true
                   <-> SegmentViewer.pages v = []).
  { rewrite Nat.eqb_eq. destruct (SegmentViewer.pages v); simpl; split; congruence. }
  destruct (length (SegmentViewer.pages v) =? 0)%nat eqn:Efirst.
  2:{ assert (Hpages : SegmentViewer.pages v <> []).
      { intros Hc. apply Hfirst in Hc. discriminate. }
      simpl. repeat split; try reflexivity; try (intros; congruence).
      intros (Hc & _). contradiction. }
  assert (Hpages : SegmentViewer.pages v = []) by (apply Hfirst; reflexivity).
  destruct (Z.gtb_spec width 0) as [Hpos|Hnonpos]; cbn [andb].
  2:{ simpl. repeat split; try reflexivity; try (intros; congruence); intros; lia. }
  pose proof (truediv_zero (inject_Z (width - 2 * ScrollViewer.PAGE_SPACING))
                (Qt.width rect)) as Hzero.
  destruct (Py.truediv _ _) as [zoom|e] eqn:Ediv; cbn [Py.state_of Py.raised].
  - split; [|split; [|split]].
    + split; [intros Hc; contradiction|]. intros (_ & _ & Hw). apply Hzero in Hw. discriminate.
    + intros e He. discriminate.
    + intros [Hc|Hc]; [contradiction|lia].
    + intros _. split; [reflexivity|]. intros _ _.
      split; [apply clamped_zoom_in_range|reflexivity].
  - assert (He : e = Py.ZeroDivisionError) by (eapply truediv_err, Ediv). subst e.
    split; [|split; [|split]].
    + split; [|intros _; discriminate]. intros _.
      split; [exact Hpages|]. split; [lia|]. apply Hzero. reflexivity.
    + intros e He. injection He as <-. repeat split.
    + intros [Hc|Hc]; [contradiction|lia].
    + intros Hc. discriminate.
Qed.

(** ** From a selection to a segment (main_window.py) *)

Lemma add_page_returns (v : SegmentViewer.t) (rect : Qt.QSize) :
  Qt.width rect <> 0 -> exists v1, SegmentViewer.add_page v rect = Py.Returned v1.
Proof.
  intros Hwidth. unfold SegmentViewer.add_page.
  destruct (_ && _); [|eexists; reflexivity].
  rewrite truediv_nonzero by (unfold Qeq; simpl; lia).
  eexists; reflexivity.
Qed.

Lemma add_pages_returns (imgs : list Qt.QSize) (indices : list nat) (v : SegmentViewer.t) :
  Forall (fun img => Qt.width img <> 0) imgs ->
  Forall (fun i => (i < length imgs)%nat) indices ->
  exists v1, MainWindow.add_pages imgs v indices = Py.Returned v1.
Proof.
  intros Himgs Hindices. revert v.
  induction Hindices as [|i rest Hi _ IH]; intros v; simpl; [eexists; reflexivity|].
  unfold Py.getitem. destruct (lookup_lt_is_Some_2 _ _ Hi) as [image Himage].
  rewrite Himage.
  assert (Hwidth : Qt.width image <> 0).
  { rewrite Forall_forall in Himgs. apply Himgs. eapply list_elem_of_lookup_2, Himage. }
  destruct (add_page_returns v image Hwidth) as [v1 ->]. apply IH.
Qed.

Lemma take_app_lookup_seq {A : Type} (l : list A) (k n : nat) :
  (n + k <= length l)%nat ->
  take n l ++ omap (fun i => l !! i) (seq n k) = take (n + k) l.
Proof.
  revert n. induction k as [|k IH]; intros n Hle; simpl.
  - rewrite app_nil_r, Nat.add_0_r. reflexivity.
  - destruct (lookup_lt_is_Some_2 l n ltac:(lia)) as [a Ha]. rewrite Ha.
    rewrite cons_middle, app_assoc, <- (take_S_r _ _ _ Ha), IH by lia.
    f_equal. lia.
Qed.

(** X19. A selection creates the target pages it needs.  When the target
    viewer shows the first [n] source pages, the selection is on a source
    page that exists, and no source image has width 0, [on_clip_selected]
    returns; afterwards the target viewer shows the first
    [max n (page_index + 1)] source pages, and exactly one segment has been
    appended, whose [selected_rect] and [target_rect] are both the selected
    rectangle. *)
Theorem X19_selection_creates_pages_on_demand
    (imgs : list Qt.QSize) (right : SegmentViewer.t) (rect : SelectedRect) :
  (page_index rect < length imgs)%nat ->
  SegmentViewer.pages right = take (SegmentViewer.pages_count right) imgs ->
  Forall (fun img => Qt.width img <> 0) imgs ->
  exists right' segment,
    MainWindow.on_clip_selected imgs right rect = Py.Returned right' /\
    SegmentViewer.pages_count right'
    = Nat.max (SegmentViewer.pages_count right) (page_index rect + 1) /\
    SegmentViewer.pages right' = take (SegmentViewer.pages_count right') imgs /\
    SegmentViewer.segments right' = SegmentViewer.segments right ++ [segment] /\
    selected_rect segment = rect /\
    target_rect segment = rect.
Proof.
  intros Hpage Hprefix Hwidths.
  unfold MainWindow.on_clip_selected.
  set (n := SegmentViewer.pages_count right) in *.
  set (k := (page_index rect + 1 - n)%nat).
  assert (Hn : (n <= length imgs)%nat).
  { pose proof (f_equal length Hprefix) as Hlen. rewrite length_take in Hlen.
    unfold n, SegmentViewer.pages_count in *. lia. }
  destruct (add_pages_returns imgs (seq n k) right Hwidths) as [right1 Hadd].
  { rewrite Forall_forall. intros i Hi. apply elem_of_seq in Hi. lia. }
  rewrite Hadd.
  destruct (add_pages_pages imgs (seq n k) right) as [_ Hret].
  destruct (Hret right1 Hadd) as [Hpages Hlen].
  rewrite length_seq in Hlen. fold (SegmentViewer.pages_count right) in Hlen. fold n in Hlen.
  rewrite Hprefix, take_app_lookup_seq in Hpages by lia.
  unfold Py.getitem. destruct (lookup_lt_is_Some_2 _ _ Hpage) as [source_pixmap ->].
  eexists. eexists. split; [reflexivity|].
  assert (Hcount : length (SegmentViewer.pages right1) = Nat.max n (page_index rect + 1))
    by (unfold k in Hlen; lia).
  unfold SegmentViewer.pages_count.
  cbn [SegmentViewer.add_segment SegmentViewer.update_scaled_segments
       SegmentViewer.set_segments SegmentViewer.set_scaled_segments
       SegmentViewer.pages SegmentViewer.segments].
  split; [exact Hcount|].
  split; [rewrite Hcount, Hpages; f_equal; unfold k; lia|].
  pose proof (add_pages_segments imgs (seq n k) right) as Hsegs.
  rewrite Hadd in Hsegs. simpl in Hsegs. rewrite Hsegs.
  split; [reflexivity|]. split; reflexivity.
Qed.

Lemma X19_selection_on_second_page_witness :
  let imgs := [Qt.mkQSize 200 200; Qt.mkQSize 200 200] in
  let rect := mkSelectedRect 1 (1 # 4) (1 # 2) (1 # 4) (1 # 2) in
  exists right' segment,
    MainWindow.on_clip_selected imgs (SegmentViewer.init 400 300) rect = Py.Returned right' /\
    SegmentViewer.pages right' = imgs /\
    SegmentViewer.segments right' = [segment] /\
    target_rect segment = rect.
Proof.
  intros imgs rect.
  destruct (X19_selection_creates_pages_on_demand imgs (SegmentViewer.init 400 300) rect)
    as (right' & segment & Hrun & Hcount & Hpages & Hsegs & _ & Htarget).
  - simpl. lia.
  - reflexivity.
  - repeat (apply List.Forall_cons; [simpl; lia|]). apply List.Forall_nil.
  - exists right', segment. split; [exact Hrun|].
    split; [rewrite Hpages, Hcount; reflexivity|]. split; [exact Hsegs|exact Htarget].
Defined.

Lemma add_pages_prefix (imgs : list Qt.QSize) (indices : list nat) (v : SegmentViewer.t) :
  SegmentViewer.pages v
  `prefix_of` SegmentViewer.pages (Py.state_of (MainWindow.add_pages imgs v indices)).
Proof.
  revert v. induction indices as [|i rest IH]; intros v; simpl; [reflexivity|].
  destruct (Py.getitem imgs i) as [image|e]; [|reflexivity].
  pose proof (add_page_pages v image) as Hpage.
  destruct (SegmentViewer.add_page v image) as [v1|e v1]; simpl in Hpage.
  - etransitivity; [|apply IH]. rewrite Hpage. apply prefix_app_r. reflexivity.
  - simpl. rewrite Hpage. apply prefix_app_r. reflexivity.
Qed.

Lemma add_pages_raises (imgs : list Qt.QSize) (indices : list nat) (v : SegmentViewer.t)
    (e : Py.exn) :
  Py.raised (MainWindow.add_pages imgs v indices) = Some e ->
  e = Py.IndexError \/ e = Py.ZeroDivisionError.
Proof.
  revert v. induction indices as [|i rest IH]; intros v; simpl; [discriminate|].
  destruct (Py.getitem imgs i) as [image|err] eqn:Himage.
  2:{ simpl. intros He. injection He as <-. left. eapply getitem_err, Himage. }
  unfold SegmentViewer.add_page.
  destruct (_ && _); [|apply IH].
  destruct (Py.truediv _ _) as [zoom|err] eqn:Ediv; [apply IH|].
  simpl. intros He. injection He as <-. right. eapply truediv_err, Ediv.
Qed.

(** X20. A selection that fails adds no segment.  Whatever the images, the
    target viewer and the rectangle: [on_clip_selected] can only raise
    [IndexError] or [ZeroDivisionError], and then the segments are as
    before; it returns only for a selection on a source page that exists;
    and in either case the pages the target viewer had are kept, in order,
    at the front of its pages: pages created before the failure stay. *)
Theorem X20_failed_selection_adds_no_segment
    (imgs : list Qt.QSize) (right : SegmentViewer.t) (rect : SelectedRect) :
  let o := MainWindow.on_clip_selected imgs right rect in
  (forall e, Py.raised o = Some e ->
     (e = Py.IndexError \/ e = Py.ZeroDivisionError) /\
     SegmentViewer.segments (Py.state_of o) = SegmentViewer.segments right) /\
  (Py.raised o = None -> (page_index rect < length imgs)%nat) /\
  SegmentViewer.pages right `prefix_of` SegmentViewer.pages (Py.state_of o).
Proof.
  intros o. subst o. unfold MainWindow.on_clip_selected.
  set (indices := seq _ _).
  pose proof (add_pages_segments imgs indices right) as Hsegs.
  pose proof (add_pages_prefix imgs indices right) as Hprefix.
  pose proof (add_pages_raises imgs indices right) as Hraises.
  destruct (MainWindow.add_pages imgs right indices) as [right1|err right1];
    simpl in Hsegs, Hprefix, Hraises.
  - unfold Py.getitem.
    destruct (imgs !! page_index rect) as [source_pixmap|] eqn:Hsource; simpl.
    + split; [intros e He; discriminate|]. split; [|exact Hprefix].
      intros _. eapply lookup_lt_Some, Hsource.
    + split; [|split; [discriminate|exact Hprefix]].
      intros e He. injection He as <-. split; [left; reflexivity|exact Hsegs].
  - simpl. split; [|split; [discriminate|exact Hprefix]].
    intros e He. split; [apply Hraises, He|exact Hsegs].
Qed.

Lemma scale_within (extent a b : Q) :
  (0 <= extent -> 0 <= a -> a <= b -> b <= 1 ->
   0 <= extent * a /\ extent * a <= extent * b /\ extent * b <= extent)%Q.
Proof. intros Hextent Ha Hab Hb. repeat split; nra. Qed.

(** X21. The PDF rectangle of a rectangle of fractions lies on the page:
    for a page of non-negative width and height and a rectangle within the
    unit square, [get_pdf_rect] gives [0 <= x0 <= x1 <= width] and
    [0 <= y0 <= y1 <= height]. *)
Theorem X21_pdf_rect_lies_on_the_page (page_size : Q * Q) (rect : SelectedRect) :
  (0 <= fst page_size)%Q -> (0 <= snd page_size)%Q ->
  in_unit_square rect ->
  let r := MainWindow.get_pdf_rect page_size rect in
  (0 <= Pdf.x0 r /\ Pdf.x0 r <= Pdf.x1 r /\ Pdf.x1 r <= fst page_size /\
   0 <= Pdf.y0 r /\ Pdf.y0 r <= Pdf.y1 r /\ Pdf.y1 r <= snd page_size)%Q.
Proof.
  destruct page_size as [page_width page_height]. simpl.
  intros Hwidth Hheight (Hx0 & Hx & Hx1 & Hy0 & Hy & Hy1).
  destruct (scale_within page_width _ _ Hwidth Hx0 Hx Hx1) as (? & ? & ?).
  destruct (scale_within page_height _ _ Hheight Hy0 Hy Hy1) as (? & ? & ?).
  repeat split; assumption.
Qed.

Lemma X21_pdf_rect_witness :
  let r := MainWindow.get_pdf_rect (595 # 1, 842 # 1)
             (mkSelectedRect 0 (1 # 10) (4 # 10) (1 # 10) (3 # 10)) in
  (0 <= Pdf.x0 r /\ Pdf.x0 r <= Pdf.x1 r /\ Pdf.x1 r <= 595 # 1 /\
   0 <= Pdf.y0 r /\ Pdf.y0 r <= Pdf.y1 r /\ Pdf.y1 r <= 842 # 1)%Q.
Proof.
  apply (X21_pdf_rect_lies_on_the_page (595 # 1, 842 # 1)
           (mkSelectedRect 0 (1 # 10) (4 # 10) (1 # 10) (3 # 10))).
  - vm_compute; intros Hc; discriminate Hc.
  - vm_compute; intros Hc; discriminate Hc.
  - unfold in_unit_square; simpl. repeat split; lra.
Defined.

(** ** The export pass, whatever the backend does (main_window.py) *)

Lemma bind_inv {A B : Type} (m : Pdf.M A) (f : A -> Pdf.M B) (w w2 : Pdf.World)
    (r : Py.result B) :
  (m ≫= f) w = (r, w2) ->
  (exists e, m w = (Py.Err e, w2) /\ r = Py.Err e) \/
  (exists a w1, m w = (Py.Ok a, w1) /\ f a w1 = (r, w2)).
Proof.
  unfold mbind, Pdf.M_bind. destruct (m w) as [[a|e] w1].
  - intros Hrun. right. exists a, w1. split; [reflexivity|exact Hrun].
  - intros Hrun. injection Hrun as <- <-. left. exists e. split; reflexivity.
Qed.

Lemma export_effect_after {A : Type} (m : Pdf.M A) (f : A -> Pdf.M unit)
    (dialog_path : String.string) (w w' : Pdf.World) (r : Py.result unit) :
  keeps Pdf.saved m -> keeps Pdf.printed m -> keeps Pdf.source_pages m ->
  (forall a w1, f a w1 = (r, w') -> export_effect dialog_path w1 r w') ->
  (m ≫= f) w = (r, w') -> export_effect dialog_path w r w'.
Proof.
  intros Hsaved Hprinted Hsource Hrest Hrun.
  apply bind_inv in Hrun as [(e & Hm & ->)|(a & w1 & Hm & Hf)].
  - split; [exact (Hprinted _ _ _ Hm)|]. split; [exact (Hsource _ _ _ Hm)|].
    left. exact (Hsaved _ _ _ Hm).
  - destruct (Hrest a w1 Hf) as (Hp & Hs & Hr).
    rewrite (Hprinted _ _ _ Hm) in Hp. rewrite (Hsource _ _ _ Hm) in Hs.
    rewrite (Hsaved _ _ _ Hm) in Hr.
    split; [exact Hp|]. split; [exact Hs|exact Hr].
Qed.

Lemma keeps_call_then {F : Type} (field : Pdf.World -> F) (f : Pdf.World -> Pdf.World) :
  (forall w n, field (after_calls n (Pdf.new_doc_pages w) w) = field w) ->
  (forall w, field (f w) = field w) ->
  keeps field (Pdf.backend_call;; Pdf.modify f).
Proof.
  intros Hcalls Hf.
  apply keeps_bind; [|intros _; apply keeps_modify, Hf].
  intros w r w1. unfold Pdf.backend_call.
  destruct (decide _); intros Hrun; injection Hrun as <- <-; apply (Hcalls w 1%nat).
Qed.

Lemma export_tail_effect (dialog_path : String.string) (w w' : Pdf.World)
    (r : Py.result unit) :
  (Pdf.save dialog_path;; Pdf.close_new;; Pdf.close_doc) w = (r, w') ->
  export_effect dialog_path w r w'.
Proof.
  unfold Pdf.save, Pdf.close_new, Pdf.close_doc, Pdf.backend_call, Pdf.modify, Pdf.gets,
    mbind, Pdf.M_bind, export_effect.
  destruct (decide (Pdf.fault_at w = Some (Pdf.calls w))); simpl.
  { intros Hrun. injection Hrun as <- <-. simpl. auto. }
  destruct (decide (Pdf.fault_at w = Some (S (Pdf.calls w)))); simpl.
  { intros Hrun. injection Hrun as <- <-. simpl. auto. }
  destruct (decide (Pdf.fault_at w = Some (S (S (Pdf.calls w))))); simpl.
  { intros Hrun. injection Hrun as <- <-. simpl. auto. }
  intros Hrun. injection Hrun as <- <-. simpl. auto.
Qed.

Lemma export_body_effect (segs : list Segment) (dialog_path : String.string)
    (w w' : Pdf.World) (r : Py.result unit) :
  (Pdf.open_file;; Pdf.open_new;; MainWindow.export_segments segs (-1, None);;
   Pdf.save dialog_path;; Pdf.close_new;; Pdf.close_doc) w = (r, w') ->
  export_effect dialog_path w r w'.
Proof.
  apply export_effect_after; try (apply keeps_call_then; reflexivity).
  intros _ w1.
  apply export_effect_after; try (apply keeps_call_then; reflexivity).
  intros _ w2.
  apply export_effect_after; try (apply keeps_export_segments; reflexivity).
  intros _ w3. apply export_tail_effect.
Qed.

Lemma snoc_neq {A : Type} (l : list A) (a : A) : l ++ [a] <> l.
Proof.
  intros Heq. apply (f_equal length) in Heq. rewrite length_app in Heq. simpl in Heq. lia.
Qed.

(** X22. The export pass, whatever the window, the answer of the dialog, the
    state of the backend and the call that fails: no exception escapes
    [on_export_file] and the source pages are not changed; when no file is
    open, the dialog is cancelled or there is no segment, nothing at all
    happens; at most one file is written, at the dialog path, and it holds
    the pages of the output document; at most one error is reported; and
    when the guards pass and no error is reported, the file has been written
    and both documents are closed. *)
Theorem X22_export_outcome
    (w : MainWindow.t) (dialog_path : String.string) (world : Pdf.World) :
  let r := MainWindow.on_export_file w dialog_path world in
  let world' := snd r in
  fst r = Py.Ok tt /\
  Pdf.source_pages world' = Pdf.source_pages world /\
  (~ export_guards_pass w dialog_path -> world' = world) /\
  (Pdf.saved world' = Pdf.saved world \/
   Pdf.saved world' = Pdf.saved world ++ [(dialog_path, Pdf.new_doc_pages world')]) /\
  (Pdf.printed world' = Pdf.printed world \/
   exists e, Pdf.printed world' = Pdf.printed world ++ [e]) /\
  (export_guards_pass w dialog_path ->
   Pdf.printed world' = Pdf.printed world ->
   Pdf.saved world' = Pdf.saved world ++ [(dialog_path, Pdf.new_doc_pages world')] /\
   Pdf.doc_open world' = false /\ Pdf.new_doc_open world' = false).
Proof.
  intros r world'. subst r world'.
  unfold MainWindow.on_export_file, export_guards_pass.
  assert (Hnothing :
            ~ (MainWindow.falsy (MainWindow.file_path w) = false /\
               MainWindow.falsy (Some dialog_path) = false /\
               SegmentViewer.segments (MainWindow.viewer_right w) <> []) ->
            let world' := snd ((mret tt : Pdf.M unit) world) in
            fst ((mret tt : Pdf.M unit) world) = Py.Ok tt /\
            Pdf.source_pages world' = Pdf.source_pages world /\
            (~ (MainWindow.falsy (MainWindow.file_path w) = false /\
                MainWindow.falsy (Some dialog_path) = false /\
                SegmentViewer.segments (MainWindow.viewer_right w) <> []) ->
             world' = world) /\
            (Pdf.saved world' = Pdf.saved world \/
             Pdf.saved world'
             = Pdf.saved world ++ [(dialog_path, Pdf.new_doc_pages world')]) /\
            (Pdf.printed world' = Pdf.printed world \/
             exists e, Pdf.printed world' = Pdf.printed world ++ [e]) /\
            (MainWindow.falsy (MainWindow.file_path w) = false /\
             MainWindow.falsy (Some dialog_path) = false /\
             SegmentViewer.segments (MainWindow.viewer_right w) <> [] ->
             Pdf.printed world' = Pdf.printed world ->
             Pdf.saved world'
             = Pdf.saved world ++ [(dialog_path, Pdf.new_doc_pages world')] /\
             Pdf.doc_open world' = false /\ Pdf.new_doc_open world' = false)).
  { intros Hguards. cbv zeta. unfold mret, Pdf.M_ret. simpl.
    split; [reflexivity|]. split; [reflexivity|]. split; [reflexivity|].
    split; [left; reflexivity|]. split; [left; reflexivity|].
    intros Hc. contradiction. }
  destruct (MainWindow.falsy (MainWindow.file_path w)).
  { apply Hnothing. intros (Hc & _). discriminate. }
  destruct (MainWindow.falsy (Some dialog_path)).
  { apply Hnothing. intros (_ & Hc & _). discriminate. }
  destruct (SegmentViewer.segments (MainWindow.viewer_right w)) as [|s0 rest].
  { apply Hnothing. intros (_ & _ & Hc). contradiction. }
  clear Hnothing.
  set (segs := MainWindow.sorted (s0 :: rest) _).
  unfold Pdf.try_except.
  destruct ((Pdf.open_file;; Pdf.open_new;; MainWindow.export_segments segs (-1, None);;
             Pdf.save dialog_path;; Pdf.close_new;; Pdf.close_doc) world)
    as [[[]|e] w1] eqn:Hrun;
    apply export_body_effect in Hrun as (Hprinted & Hsource & Hsaved); simpl.
  - destruct Hsaved as (Hsaved & Hdoc & Hnew).
    split; [reflexivity|]. split; [exact Hsource|].
    split; [intros Hc; exfalso; apply Hc; repeat split; discriminate|].
    split; [right; exact Hsaved|]. split; [left; exact Hprinted|].
    intros _ _. split; [exact Hsaved|]. split; assumption.
  - split; [reflexivity|]. split; [exact Hsource|].
    split; [intros Hc; exfalso; apply Hc; repeat split; discriminate|].
    split; [exact Hsaved|]. split; [right; exists e; rewrite Hprinted; reflexivity|].
    intros _ Hc. rewrite Hprinted in Hc. apply snoc_neq in Hc. contradiction.
Qed.

(** X23. A failed export leaves the source document open.  From any state
    of the backend, whatever the segments: when [on_export_file] reports an
    error and the call that failed is not the opening of the source
    document, the source document is open afterwards.  [doc.close()] is the
    last statement of the [try] body and the handler does not close
    anything. *)
Theorem X23_failed_export_leaves_source_open
    (w : MainWindow.t) (dialog_path : String.string) (world : Pdf.World) :
  Pdf.fault_at world <> Some (Pdf.calls world) ->
  let world' := snd (MainWindow.on_export_file w dialog_path world) in
  Pdf.printed world' <> Pdf.printed world -> Pdf.doc_open world' = true.
Proof.
  intros Hfault world'. subst world'. unfold MainWindow.on_export_file.
  destruct (MainWindow.falsy (MainWindow.file_path w)); [intros Hc; contradiction|].
  destruct (MainWindow.falsy (Some dialog_path)); [intros Hc; contradiction|].
  destruct (SegmentViewer.segments (MainWindow.viewer_right w)) as [|s0 rest];
    [intros Hc; contradiction|].
  set (segs := MainWindow.sorted (s0 :: rest) _).
  set (w1 := Pdf.set_doc_open true (after_calls 1 (Pdf.new_doc_pages world) world)).
  assert (Hopen : Pdf.open_file world = (Py.Ok tt, w1)).
  { unfold Pdf.open_file, Pdf.backend_call, mbind, Pdf.M_bind.
    destruct (decide (Pdf.fault_at world = Some (Pdf.calls world))); [contradiction|].
    reflexivity. }
  unfold Pdf.try_except. rewrite (bind_ok _ _ _ _ _ Hopen).
  pose proof (export_body_prints_nothing segs dialog_path w1) as Hprints.
  pose proof (export_body_error_keeps_source segs dialog_path w1) as Hkeeps.
  destruct ((Pdf.open_new;; MainWindow.export_segments segs (-1, None);;
             Pdf.save dialog_path;; Pdf.close_new;; Pdf.close_doc) w1)
    as [[[]|e] w2] eqn:Erun.
  - simpl. rewrite (Hprints _ _ eq_refl). intros Hc. exfalso. apply Hc. reflexivity.
  - simpl. intros _. rewrite (Hkeeps e w2 eq_refl). reflexivity.
Qed.

Lemma X23_failed_export_witness :
  let source_pages := [(595 # 1, 842 # 1); (595 # 1, 842 # 1)]%Q in
  let world' :=
    snd (MainWindow.on_export_file two_selections_example "out.pdf"%string
           (Pdf.initial_world source_pages (Some 5%nat))) in
  Pdf.printed world' = [Py.BackendError] /\ Pdf.doc_open world' = true.
Proof.
  intros source_pages world'.
  split; [vm_compute; reflexivity|].
  apply (X23_failed_export_leaves_source_open two_selections_example "out.pdf"%string
           (Pdf.initial_world source_pages (Some 5%nat))).
  - simpl. discriminate.
  - vm_compute. discriminate.
Defined.

(** ** Opening a file (main_window.py) *)

Lemma backend_call_world (w w1 : Pdf.World) (r : Py.result unit) :
  Pdf.backend_call w = (r, w1) -> w1 = after_calls 1 (Pdf.new_doc_pages w) w.
Proof.
  unfold Pdf.backend_call. destruct (decide _); intros Hrun; injection Hrun as _ <-;
    reflexivity.
Qed.

Lemma doc_getitem_world (i : nat) (w w1 : Pdf.World) (r : Py.result (Q * Q)) :
  Pdf.doc_getitem i w = (r, w1) ->
  w1 = after_calls 1 (Pdf.new_doc_pages w) w /\
  forall p, r = Py.Ok p -> Pdf.source_pages w !! i = Some p.
Proof.
  unfold Pdf.doc_getitem. intros Hrun.
  apply bind_inv in Hrun as [(e & Hcall & ->)|([] & w0 & Hcall & Hrest)];
    apply backend_call_world in Hcall; subst.
  - split; [reflexivity|]. intros p Hp. discriminate.
  - unfold Pdf.gets, mbind, Pdf.M_bind in Hrest. simpl in Hrest.
    destruct (Pdf.source_pages w !! i) as [p0|];
      injection Hrest as <- <-; split; try reflexivity; intros p Hp; congruence.
Qed.

Lemma render_pages_world (render : Q * Q -> Qt.QSize) (nums : list nat)
    (acc : list Qt.QSize) (w w' : Pdf.World) (r : Py.result (list Qt.QSize)) :
  MainWindow.render_pages render nums acc w = (r, w') ->
  exists n,
    w' = after_calls n (Pdf.new_doc_pages w) w /\
    forall images, r = Py.Ok images ->
      images = acc ++ omap (fun i => map render (Pdf.source_pages w) !! i) nums /\
      n = (3 * length nums)%nat.
Proof.
  revert acc w w' r. induction nums as [|page_num rest IH]; intros acc w w' r; simpl.
  - intros Hrun. injection Hrun as <- <-. exists 0%nat.
    split; [destruct w; reflexivity|]. intros images Himages. injection Himages as <-.
    rewrite app_nil_r. split; reflexivity.
  - intros Hrun.
    apply bind_inv in Hrun as [(e & Hget & ->)|(page & w1 & Hget & Hrun)];
      apply doc_getitem_world in Hget as [-> Hpage].
    { exists 1%nat. split; [reflexivity|]. intros images Himages. discriminate. }
    specialize (Hpage page eq_refl).
    apply bind_inv in Hrun as [(e & Hcall & ->)|([] & w2 & Hcall & Hrun)];
      apply backend_call_world in Hcall; subst.
    { exists 2%nat. rewrite after_calls_after_calls.
      split; [reflexivity|]. intros images Himages. discriminate. }
    apply bind_inv in Hrun as [(e & Hcall & ->)|([] & w3 & Hcall & Hrun)];
      apply backend_call_world in Hcall; subst.
    { exists 3%nat. rewrite !after_calls_after_calls.
      split; [reflexivity|]. intros images Himages. discriminate. }
    apply IH in Hrun as (n & -> & Himages).
    exists (n + 3)%nat. cbn [after_calls Pdf.new_doc_pages] in *.
    rewrite !after_calls_after_calls.
    split; [f_equal; lia|]. intros images Hr.
    destruct (Himages images Hr) as [-> ->]. cbn [Pdf.source_pages].
    rewrite list_lookup_fmap, Hpage. simpl.
    rewrite <- app_assoc. split; [reflexivity|lia].
Qed.

Lemma map_lookup_seq {A : Type} (l : list A) :
  omap (fun i => l !! i) (seq 0 (length l)) = l.
Proof.
  pose proof (take_app_lookup_seq l (length l) 0%nat ltac:(lia)) as Heq.
  simpl in Heq. rewrite Heq. apply firstn_all.
Qed.

Ltac load_failed :=
  split; [reflexivity|split; [reflexivity|split; [reflexivity|]]];
  intros ? Hfailed; discriminate Hfailed.

(** What the backend part of [on_open_file] does to the world, and what it
    returns. *)
Lemma load_images_world (render : Q * Q -> Qt.QSize) (w w' : Pdf.World)
    (r : Py.result (list Qt.QSize)) :
  MainWindow.load_images render w = (r, w') ->
  Pdf.printed w' = Pdf.printed w /\
  Pdf.source_pages w' = Pdf.source_pages w /\
  Pdf.saved w' = Pdf.saved w /\
  forall images, r = Py.Ok images ->
    images = map render (Pdf.source_pages w) /\
    Pdf.doc_open w' = false /\
    Pdf.calls w' = (3 * length (Pdf.source_pages w) + 2 + Pdf.calls w)%nat.
Proof.
  unfold MainWindow.load_images, Pdf.open_file, Pdf.close_doc. intros Hrun.
  apply bind_inv in Hrun as [(e & Hopen & ->)|([] & w1 & Hopen & Hrun)].
  { apply bind_inv in Hopen as [(e' & Hcall & _)|([] & w0 & Hcall & Hmod)];
      apply backend_call_world in Hcall; subst.
    - load_failed.
    - discriminate. }
  apply bind_inv in Hopen as [(e' & Hcall & Hc)|([] & w0 & Hcall & Hmod)];
    [discriminate|].
  apply backend_call_world in Hcall. subst w0.
  injection Hmod as <-.
  unfold Pdf.gets, mbind at 1, Pdf.M_bind at 1 in Hrun.
  apply bind_inv in Hrun as [(e & Hrender & ->)|(images & w2 & Hrender & Hrun)];
    apply render_pages_world in Hrender as (n & -> & Himages).
  { load_failed. }
  destruct (Himages images eq_refl) as [-> ->].
  apply bind_inv in Hrun as [(e & Hclose & ->)|([] & w3 & Hclose & Hrun)].
  { apply bind_inv in Hclose as [(e' & Hcall & _)|([] & w0 & Hcall & Hmod)];
      apply backend_call_world in Hcall; subst.
    - load_failed.
    - discriminate. }
  apply bind_inv in Hclose as [(e' & Hcall & Hc)|([] & w0 & Hcall & Hmod)];
    [discriminate|].
  apply backend_call_world in Hcall. subst w0.
  injection Hmod as <-. injection Hrun as <- <-.
  split; [reflexivity|]. split; [reflexivity|]. split; [reflexivity|].
  intros images Himages'. injection Himages' as <-.
  split; [|split; [reflexivity|]].
  - rewrite <- (length_map render) at 1. apply map_lookup_seq.
  - simpl. rewrite length_seq. lia.
Qed.

(** X24. What [on_open_file] can leave behind, whatever the rasterizer, the
    window, the answer of the dialog and the state of the backend.  Either
    the window is exactly as before, and then the world is untouched (the
    dialog was cancelled) or one error has been reported (the backend
    failed); or [set_images] raised on the rendered pages, and then the
    left viewer already holds them while the right viewer and [file_path]
    are as before, and the [ZeroDivisionError] has been reported; or the
    load went through: the left viewer holds the rendering of every page of
    the document, in order, the right viewer has no page, no segment and
    empty caches, [file_path] is the answer of the dialog, nothing has been
    reported and the document is closed. *)
Theorem X24_open_file_outcome
    (render : Q * Q -> Qt.QSize) (w : MainWindow.t) (dialog_path : String.string)
    (world : Pdf.World) :
  let w' := fst (MainWindow.on_open_file render w dialog_path world) in
  let world' := snd (MainWindow.on_open_file render w dialog_path world) in
  let rendered := map render (Pdf.source_pages world) in
  (w' = w /\
   (world' = world \/ exists e, Pdf.printed world' = Pdf.printed world ++ [e])) \/
  (ClipSelectViewer.images (MainWindow.viewer_left w') = rendered /\
   MainWindow.viewer_right w' = MainWindow.viewer_right w /\
   MainWindow.file_path w' = MainWindow.file_path w /\
   Pdf.printed world' = Pdf.printed world ++ [Py.ZeroDivisionError]) \/
  (ClipSelectViewer.images (MainWindow.viewer_left w') = rendered /\
   SegmentViewer.pages (MainWindow.viewer_right w') = [] /\
   SegmentViewer.segments (MainWindow.viewer_right w') = [] /\
   SegmentViewer.page_rects (MainWindow.viewer_right w') = [] /\
   SegmentViewer.scaled_segments (MainWindow.viewer_right w') = [] /\
   MainWindow.file_path w' = Some dialog_path /\
   MainWindow.falsy (Some dialog_path) = false /\
   Pdf.printed world' = Pdf.printed world /\
   Pdf.doc_open world' = false).
Proof.
  intros w' world' rendered. subst w' world' rendered.
  unfold MainWindow.on_open_file.
  destruct (MainWindow.falsy (Some dialog_path)) eqn:Hpath.
  { left. split; [reflexivity|]. left. reflexivity. }
  destruct (MainWindow.load_images render world) as [[images|e] world1] eqn:Hload;
    apply load_images_world in Hload as (Hprinted & _ & _ & Himages).
  2:{ left. split; [reflexivity|]. right. exists e. simpl. rewrite Hprinted. reflexivity. }
  destruct (Himages images eq_refl) as (-> & Hclosed & _).
  pose proof (truediv_err (inject_Z (ScrollViewer.widget_width
                                       (ClipSelectViewer.base (MainWindow.viewer_left w))
                                     - 2 * ScrollViewer.PAGE_SPACING))) as Herr.
  unfold ClipSelectViewer.set_images.
  destruct (map render (Pdf.source_pages world)) as [|first rest] eqn:Hrendered.
  { right. right. simpl. repeat split; assumption. }
  cbn [ClipSelectViewer.base ClipSelectViewer.set_base ClipSelectViewer.set_images_attr
       ScrollViewer.widget_width ScrollViewer.set_scroll_offset].
  destruct (_ >? 0).
  - destruct (Py.truediv _ _) as [zoom|e] eqn:Ediv.
    + right. right. simpl. repeat split; assumption.
    + apply Herr in Ediv. subst e.
      right. left. simpl. rewrite Hprinted. repeat split.
  - right. right. simpl. repeat split; assumption.
Qed.

Lemma render_pages_returns (render : Q * Q -> Qt.QSize) (nums : list nat)
    (acc : list Qt.QSize) (w : Pdf.World) :
  Pdf.fault_at w = None ->
  Forall (fun i => (i < length (Pdf.source_pages w))%nat) nums ->
  exists images w', MainWindow.render_pages render nums acc w = (Py.Ok images, w').
Proof.
  intros Hok Hnums. revert acc w Hok Hnums.
  induction nums as [|page_num rest IH]; intros acc w Hok Hnums; simpl.
  - eexists. eexists. reflexivity.
  - apply Forall_cons in Hnums as [Hnum Hrest].
    destruct (lookup_lt_is_Some_2 _ _ Hnum) as [page Hpage].
    rewrite (bind_ok _ _ _ _ _ (doc_getitem_ok w page_num page Hok Hpage)).
    set (w1 := after_calls 1 (Pdf.new_doc_pages w) w).
    unfold Pdf.get_pixmap, Pdf.tobytes.
    rewrite (bind_ok _ _ _ _ _ (backend_call_ok w1 Hok)).
    set (w2 := after_calls 1 (Pdf.new_doc_pages w1) w1).
    rewrite (bind_ok _ _ _ _ _ (backend_call_ok w2 Hok)).
    apply IH; [exact Hok|exact Hrest].
Qed.

Lemma load_images_returns (render : Q * Q -> Qt.QSize) (w : Pdf.World) :
  Pdf.fault_at w = None ->
  exists images w', MainWindow.load_images render w = (Py.Ok images, w').
Proof.
  intros Hok. unfold MainWindow.load_images.
  rewrite (bind_ok _ _ _ _ _ (open_file_ok w Hok)).
  set (w1 := Pdf.set_doc_open true (after_calls 1 (Pdf.new_doc_pages w) w)).
  unfold Pdf.gets, mbind at 1, Pdf.M_bind at 1.
  destruct (render_pages_returns render (seq 0 (length (Pdf.source_pages w1))) [] w1 Hok)
    as (images & w2 & Hrender).
  { rewrite Forall_forall. intros i Hi. apply elem_of_seq in Hi. lia. }
  rewrite (bind_ok _ _ _ _ _ Hrender).
  assert (Hok2 : Pdf.fault_at w2 = None).
  { apply render_pages_world in Hrender as (n & -> & _). exact Hok. }
  rewrite (bind_ok _ _ _ _ _ (close_doc_ok w2 Hok2)).
  eexists. eexists. reflexivity.
Qed.

Lemma set_images_returns (v : ClipSelectViewer.t) (imgs : list Qt.QSize) :
  (forall first rest, imgs = first :: rest ->
     0 < ScrollViewer.widget_width (ClipSelectViewer.base v) -> Qt.width first <> 0) ->
  exists v',
    ClipSelectViewer.set_images v imgs = Py.Returned v' /\
    ClipSelectViewer.images v' = imgs.
Proof.
  intros Hfirst. unfold ClipSelectViewer.set_images.
  destruct imgs as [|first rest]; [eexists; split; reflexivity|].
  cbn [ClipSelectViewer.base ClipSelectViewer.set_base ClipSelectViewer.set_images_attr
       ScrollViewer.widget_width ScrollViewer.set_scroll_offset].
  destruct (Z.gtb_spec (ScrollViewer.widget_width (ClipSelectViewer.base v)) 0)
    as [Hpos|Hnonpos]; [|eexists; split; reflexivity].
  rewrite truediv_nonzero.
  - eexists; split; reflexivity.
  - pose proof (Hfirst first rest eq_refl ltac:(lia)) as Hwidth.
    unfold Qeq; simpl. lia.
Qed.

(** X25. Opening a document loads every page.  When the backend does not
    fail, the dialog was answered, and the first page is not rendered to an
    image of width 0 in a left viewer of positive width: afterwards the left
    viewer holds the rendering of every page of the document, in order, the
    right viewer has neither page nor segment, [file_path] is the answer of
    the dialog, nothing has been reported, the document is closed again,
    and the backend was called three times per page and twice more.  An
    export right after that does nothing, whatever the save dialog
    answers. *)
Theorem X25_open_file_loads_every_page
    (render : Q * Q -> Qt.QSize) (w : MainWindow.t) (dialog_path : String.string)
    (world : Pdf.World) :
  Pdf.fault_at world = None ->
  MainWindow.falsy (Some dialog_path) = false ->
  (forall page rest, Pdf.source_pages world = page :: rest ->
     0 < ScrollViewer.widget_width (ClipSelectViewer.base (MainWindow.viewer_left w)) ->
     Qt.width (render page) <> 0) ->
  let w' := fst (MainWindow.on_open_file render w dialog_path world) in
  let world' := snd (MainWindow.on_open_file render w dialog_path world) in
  ClipSelectViewer.images (MainWindow.viewer_left w') = map render (Pdf.source_pages world) /\
  SegmentViewer.pages (MainWindow.viewer_right w') = [] /\
  SegmentViewer.segments (MainWindow.viewer_right w') = [] /\
  MainWindow.file_path w' = Some dialog_path /\
  Pdf.printed world' = Pdf.printed world /\
  Pdf.doc_open world' = false /\
  Pdf.calls world' = (3 * length (Pdf.source_pages world) + 2 + Pdf.calls world)%nat /\
  forall export_path,
    MainWindow.on_export_file w' export_path world' = (Py.Ok tt, world').
Proof.
  intros Hok Hpath Hfirst w' world'. subst w' world'.
  unfold MainWindow.on_open_file. rewrite Hpath.
  destruct (load_images_returns render world Hok) as (images & world1 & Hload).
  rewrite Hload.
  apply load_images_world in Hload as (Hprinted & _ & _ & Himages).
  destruct (Himages images eq_refl) as (-> & Hclosed & Hcalls).
  destruct (set_images_returns (MainWindow.viewer_left w) (map render (Pdf.source_pages world)))
    as (left1 & -> & Hleft).
  { intros first rest Hrendered Hwidth.
    destruct (Pdf.source_pages world) as [|page pages] eqn:Hpages; [discriminate|].
    injection Hrendered as <- _. exact (Hfirst page pages eq_refl Hwidth). }
  cbn [fst snd MainWindow.viewer_left MainWindow.viewer_right MainWindow.file_path].
  split; [exact Hleft|]. split; [reflexivity|]. split; [reflexivity|].
  split; [reflexivity|]. split; [exact Hprinted|]. split; [exact Hclosed|].
  split; [exact Hcalls|].
  intros export_path. unfold MainWindow.on_export_file.
  cbn [MainWindow.viewer_left MainWindow.viewer_right MainWindow.file_path].
  rewrite Hpath. destruct (MainWindow.falsy (Some export_path)); reflexivity.
Qed.

Lemma X25_open_file_witness :
  let render := fun size : Q * Q => Qt.mkQSize (Py.int (fst size * (3 # 2)))
                                      (Py.int (snd size * (3 # 2))) in
  let w := MainWindow.mk (ClipSelectViewer.init 700 900) (SegmentViewer.init 700 900) None in
  let world := Pdf.initial_world [(595 # 1, 842 # 1); (595 # 1, 842 # 1)]%Q None in
  let w' := fst (MainWindow.on_open_file render w "in.pdf"%string world) in
  let world' := snd (MainWindow.on_open_file render w "in.pdf"%string world) in
  ClipSelectViewer.images (MainWindow.viewer_left w') = [Qt.mkQSize 892 1263; Qt.mkQSize 892 1263] /\
  MainWindow.file_path w' = Some "in.pdf"%string /\
  Pdf.calls world' = 8%nat.
Proof.
  intros render w world w' world'.
  destruct (X25_open_file_loads_every_page render w "in.pdf"%string world)
    as (Himages & _ & _ & Hfile & _ & _ & Hcalls & _).
  - reflexivity.
  - reflexivity.
  - intros page rest Hpages _. injection Hpages as <- _. vm_compute. discriminate.
  - split; [exact Himages|]. split; [exact Hfile|exact Hcalls].
Defined.

(** ** Painting the target viewer (viewer/segment_viewer.py) *)

Lemma segment_draws_from_sound (v : SegmentViewer.t) (segs : list Segment) (k i : nat)
    (x y : Z) (pixmap : Qt.QSize) :
  (i, x, y, pixmap) ∈ SegmentViewer.segment_draws_from v k segs ->
  (k <= i)%nat /\
  exists segment pi px py pw ph,
    segs !! (i - k)%nat = Some segment /\
    SegmentViewer.scaled_segments v !! i = Some pixmap /\
    SegmentViewer.find_page_rect (SegmentViewer.page_rects v)
      (page_index (target_rect segment)) = Some (pi, px, py, pw, ph) /\
    x = px + Py.int (x_min (target_rect segment) * inject_Z pw) /\
    y = py + Py.int (y_min (target_rect segment) * inject_Z ph).
Proof.
  revert k. induction segs as [|segment rest IH]; intros k; simpl.
  - intros Hin. inversion Hin.
  - destruct (SegmentViewer.scaled_segments v !! k) as [scaled|] eqn:Hscaled.
    2:{ intros Hin. inversion Hin. }
    assert (Hrest : (i, x, y, pixmap) ∈ SegmentViewer.segment_draws_from v (S k) rest ->
              (k <= i)%nat /\
              exists segment0 pi px py pw ph,
                (segment :: rest) !! (i - k)%nat = Some segment0 /\
                SegmentViewer.scaled_segments v !! i = Some pixmap /\
                SegmentViewer.find_page_rect (SegmentViewer.page_rects v)
                  (page_index (target_rect segment0)) = Some (pi, px, py, pw, ph) /\
                x = px + Py.int (x_min (target_rect segment0) * inject_Z pw) /\
                y = py + Py.int (y_min (target_rect segment0) * inject_Z ph)).
    { intros Hin. apply IH in Hin as (Hle & segment0 & pi & px & py & pw & ph & Hseg & Hrest).
      split; [lia|]. exists segment0, pi, px, py, pw, ph. split; [|exact Hrest].
      replace (i - k)%nat with (S (i - S k)) by lia. exact Hseg. }
    destruct (SegmentViewer.find_page_rect _ _) as [[[[[pi px] py] pw] ph]|] eqn:Hrect;
      [|exact Hrest].
    intros Hin. apply elem_of_cons in Hin as [Hhead|Hin]; [|exact (Hrest Hin)].
    injection Hhead as -> -> -> ->. split; [lia|].
    exists segment, pi, px, py, pw, ph. rewrite Nat.sub_diag.
    split; [reflexivity|]. split; [exact Hscaled|]. split; [exact Hrect|].
    split; reflexivity.
Qed.

Lemma segment_draws_from_complete (v : SegmentViewer.t) (segs : list Segment) (k i : nat)
    (segment : Segment) (pixmap : Qt.QSize) (pi : nat) (px py pw ph : Z) :
  (k <= i)%nat ->
  segs !! (i - k)%nat = Some segment ->
  SegmentViewer.scaled_segments v !! i = Some pixmap ->
  SegmentViewer.find_page_rect (SegmentViewer.page_rects v)
    (page_index (target_rect segment)) = Some (pi, px, py, pw, ph) ->
  (i, px + Py.int (x_min (target_rect segment) * inject_Z pw),
   py + Py.int (y_min (target_rect segment) * inject_Z ph), pixmap)
  ∈ SegmentViewer.segment_draws_from v k segs.
Proof.
  revert k. induction segs as [|segment0 rest IH]; intros k Hle Hseg Hscaled Hrect; simpl.
  - discriminate.
  - destruct (decide (i = k)) as [->|Hne].
    + rewrite Nat.sub_diag in Hseg. injection Hseg as ->.
      rewrite Hscaled, Hrect. apply list_elem_of_here.
    + assert (Hk : is_Some (SegmentViewer.scaled_segments v !! k)).
      { apply lookup_lt_is_Some. apply lookup_lt_Some in Hscaled. lia. }
      destruct Hk as [scaled ->].
      replace (i - k)%nat with (S (i - S k)) in Hseg by lia.
      assert (Hin := IH (S k) ltac:(lia) Hseg Hscaled Hrect).
      destruct (SegmentViewer.find_page_rect _ (page_index (target_rect segment0)))
        as [[[[[pi0 px0] py0] pw0] ph0]|]; [apply list_elem_of_further|]; exact Hin.
Qed.

Lemma segment_draws_from_sorted (v : SegmentViewer.t) (segs : list Segment) (k : nat) :
  StronglySorted (fun a b => (fst (fst (fst a)) < fst (fst (fst b)))%nat)
    (SegmentViewer.segment_draws_from v k segs).
Proof.
  revert k. induction segs as [|segment rest IH]; intros k; simpl; [constructor|].
  destruct (SegmentViewer.scaled_segments v !! k) as [scaled|]; [|constructor].
  destruct (SegmentViewer.find_page_rect _ _) as [[[[[pi px] py] pw] ph]|]; [|apply IH].
  constructor; [apply IH|].
  rewrite List.Forall_forall. intros [[[i x] y] pixmap] Hin.
  apply list_elem_of_In, segment_draws_from_sound in Hin as [Hle _]. simpl. lia.
Qed.

(** X26. A segment is grabbed where it is painted.  [paintEvent] paints the
    images of the segments in the order of their indices, so that a later
    segment covers an earlier one; and the pointer is on segment [i] for
    [get_hovered_segment] exactly when it is inside the image that
    [paintEvent] paints for segment [i], borders included.  With X13:
    hovering picks the segment painted last under the pointer. *)
Theorem X26_segments_are_grabbed_where_painted (v : SegmentViewer.t) :
  StronglySorted (fun a b => (fst (fst (fst a)) < fst (fst (fst b)))%nat)
    (SegmentViewer.segment_draws v) /\
  forall mouse_pos i,
    pointer_on_segment v mouse_pos i <->
    exists x y pixmap,
      (i, x, y, pixmap) ∈ SegmentViewer.segment_draws v /\
      inside_image mouse_pos x y pixmap.
Proof.
  split; [apply segment_draws_from_sorted|].
  intros mouse_pos i. unfold pointer_on_segment, SegmentViewer.segment_draws, inside_image.
  split.
  - intros (segment & pixmap & pi & px & py & pw & ph & Hseg & Hscaled & Hrect & Hin).
    eexists. eexists. exists pixmap. split; [|exact Hin].
    eapply segment_draws_from_complete; [lia| |exact Hscaled|exact Hrect].
    rewrite Nat.sub_0_r. exact Hseg.
  - intros (x & y & pixmap & Hdraw & Hin).
    apply segment_draws_from_sound in Hdraw
      as (_ & segment & pi & px & py & pw & ph & Hseg & Hscaled & Hrect & -> & ->).
    rewrite Nat.sub_0_r in Hseg.
    exists segment, pixmap, pi, px, py, pw, ph.
    split; [exact Hseg|]. split; [exact Hscaled|]. split; [exact Hrect|exact Hin].
Qed.

Lemma paintEvent_returns (v : SegmentViewer.t) :
  target_invariant v -> hover_valid v ->
  exists draws, SegmentViewer.paintEvent v = Py.Ok draws.
Proof.
  intros (_ & Hlen & _ & Hdrag) Hhover. unfold SegmentViewer.paintEvent.
  destruct (SegmentViewer.pages v); [eexists; reflexivity|].
  assert (Hborder : exists border, SegmentViewer.hovered_border v = Py.Ok border).
  { unfold SegmentViewer.hovered_border, SegmentViewer.get_segment_dragging_offset,
      Py.getitem, mbind, Py.result_bind.
    destruct (SegmentViewer.hovered_segment_index v) as [hovered|] eqn:Hhov;
      [|eexists; reflexivity].
    pose proof (Hhover hovered Hhov) as Hlt.
    destruct (lookup_lt_is_Some_2 (SegmentViewer.segments v) hovered Hlt) as [segment ->].
    destruct (lookup_lt_is_Some_2 (SegmentViewer.scaled_segments v) hovered ltac:(lia))
      as [scaled ->].
    destruct (SegmentViewer.find_page_rect _ _) as [[[[[pi px] py] pw] ph]|];
      [|eexists; reflexivity].
    destruct (SegmentViewer.dragging_segment v); [|eexists; reflexivity].
    destruct (Hdrag eq_refl) as (_ & [start_pos ->] & [end_pos ->]).
    eexists; reflexivity. }
  destruct Hborder as [border ->]. eexists; reflexivity.
Qed.

Lemma get_hovered_segment_lt (v : SegmentViewer.t) (mouse_pos : Qt.QPoint) (i : nat) :
  SegmentViewer.get_hovered_segment v mouse_pos = Some i ->
  (i < length (SegmentViewer.segments v))%nat.
Proof.
  unfold SegmentViewer.get_hovered_segment.
  destruct (SegmentViewer.pages v); [discriminate|].
  destruct (SegmentViewer.segments v) as [|segment rest] eqn:Hsegs; [discriminate|].
  intros Hhov. apply hovered_below_spec in Hhov as [Hlt _]. exact Hlt.
Qed.

Lemma add_page_hovered (v : SegmentViewer.t) (rect : Qt.QSize) :
  SegmentViewer.hovered_segment_index (Py.state_of (SegmentViewer.add_page v rect))
  = SegmentViewer.hovered_segment_index v.
Proof.
  unfold SegmentViewer.add_page.
  destruct (_ && _); [|reflexivity].
  destruct (Py.truediv _ _); reflexivity.
Qed.

Lemma add_pages_hovered (imgs : list Qt.QSize) (indices : list nat) (v : SegmentViewer.t) :
  SegmentViewer.hovered_segment_index (Py.state_of (MainWindow.add_pages imgs v indices))
  = SegmentViewer.hovered_segment_index v.
Proof.
  revert v. induction indices as [|i rest IH]; intros v; simpl; [reflexivity|].
  destruct (Py.getitem imgs i) as [image|e]; [|reflexivity].
  pose proof (add_page_hovered v image) as Hpage.
  destruct (SegmentViewer.add_page v image) as [v1|e v1]; simpl in Hpage.
  - rewrite IH. exact Hpage.
  - exact Hpage.
Qed.

Lemma wheelEvent_hovered (v : SegmentViewer.t) (e : Qt.QWheelEvent) :
  SegmentViewer.hovered_segment_index (Py.state_of (ScrollViewer.wheelEvent v e))
  = SegmentViewer.hovered_segment_index v.
Proof.
  unfold ScrollViewer.wheelEvent.
  destruct (Qt.modifiers_eq_control _); [|reflexivity].
  destruct (Py.truediv _ _); reflexivity.
Qed.

Lemma mousePressEvent_hovered (v : SegmentViewer.t) (e : Qt.QMouseEvent) :
  SegmentViewer.hovered_segment_index (SegmentViewer.mousePressEvent v e)
  = SegmentViewer.hovered_segment_index v.
Proof.
  unfold SegmentViewer.mousePressEvent, ScrollViewer.mousePressEvent.
  destruct (SegmentViewer.hovered_segment_index v) eqn:Hhov;
    [destruct (_ && _); [simpl; exact Hhov|]|];
    destruct (Qt.MouseButton_eqb _ _); simpl; exact Hhov.
Qed.

Lemma mouseMoveEvent_hover_valid (v : SegmentViewer.t) (e : Qt.QMouseEvent) :
  hover_valid v -> hover_valid (SegmentViewer.mouseMoveEvent v e).
Proof.
  intros Hhover i. rewrite mouseMoveEvent_segments.
  unfold SegmentViewer.mouseMoveEvent.
  destruct (SegmentViewer.dragging_segment v); [apply Hhover|].
  unfold ScrollViewer.mouseMoveEvent.
  cbn [ScrollViewer.viewer_base SegmentViewer.viewer SegmentViewer.base
       SegmentViewer.set_hovered_segment_index].
  destruct (ScrollViewer.drag_start _) as [[drag_start_pos drag_start_offset]|];
    [destruct (Qt.buttons_eq_left _)|]; simpl; apply get_hovered_segment_lt.
Qed.

Lemma step_hover_valid (v : SegmentViewer.t) (ev : Session.event) :
  not_clear ev -> hover_valid v -> hover_valid (Py.state_of (Session.step v ev)).
Proof.
  intros Hev Hhover i. destruct ev as [imgs rect|size|rect pix| |w h|e|e|e|e]; simpl.
  - unfold MainWindow.on_clip_selected.
    set (indices := seq _ _).
    pose proof (add_pages_segments imgs indices v) as Hsegs.
    pose proof (add_pages_hovered imgs indices v) as Hhov.
    destruct (MainWindow.add_pages imgs v indices) as [v1|err v1]; simpl in Hsegs, Hhov.
    + destruct (Py.getitem imgs (page_index rect)) as [source_pixmap|err]; simpl.
      * rewrite Hhov, Hsegs, length_app. intros Hi. apply Hhover in Hi. lia.
      * rewrite Hhov, Hsegs. apply Hhover.
    + simpl. rewrite Hhov, Hsegs. apply Hhover.
  - rewrite add_page_hovered, add_page_segments. apply Hhover.
  - rewrite length_app. intros Hi. apply Hhover in Hi. lia.
  - contradiction.
  - apply Hhover.
  - rewrite wheelEvent_hovered, wheelEvent_segments. apply Hhover.
  - rewrite mousePressEvent_hovered, mousePressEvent_segments. apply Hhover.
  - apply mouseMoveEvent_hover_valid, Hhover.
  - destruct (mouseReleaseEvent_keeps v e) as (_ & _ & _ & _ & Hhov & _ & Hlen).
    rewrite Hhov, Hlen. apply Hhover.
Qed.

Lemma run_hover_valid (evs : list Session.event) (v : SegmentViewer.t) :
  Forall not_clear evs -> hover_valid v -> hover_valid (Session.run v evs).
Proof.
  intros Hevs. revert v. induction Hevs as [|ev evs Hev _ IH]; intros v Hhover;
    [exact Hhover|].
  simpl. apply IH, step_hover_valid; assumption.
Qed.

(** X27. Painting does not fail as long as the viewer is not cleared.  After
    any session without a call of [clear] (selection signals, [add_page]
    and [add_segment] calls, resizes, wheel and mouse events, with handlers
    raising or not), the hover index, if any, names a segment, and
    [paintEvent] returns: neither of its two subscripts by the hover index
    raises [IndexError], nor does the drag offset raise
    [AttributeError]. *)
Theorem X27_paint_does_not_fail_without_clear (w h : Z) (evs : list Session.event) :
  Forall not_clear evs ->
  let v := Session.run (SegmentViewer.init w h) evs in
  (forall i, SegmentViewer.hovered_segment_index v = Some i ->
             (i < length (SegmentViewer.segments v))%nat) /\
  exists draws, SegmentViewer.paintEvent v = Py.Ok draws.
Proof.
  intros Hevs v.
  assert (Hhover : hover_valid v).
  { apply run_hover_valid; [exact Hevs|]. intros i Hi. discriminate Hi. }
  split; [exact Hhover|].
  apply paintEvent_returns; [|exact Hhover].
  apply run_target_invariant, init_target_invariant.
Qed.

Lemma X27_paint_witness :
  let v := Session.run (SegmentViewer.init 220 300) drag_right_session in
  SegmentViewer.hovered_segment_index v = Some 0%nat /\
  exists draws, SegmentViewer.paintEvent v = Py.Ok draws /\ length draws = 4%nat.
Proof.
  intros v. split; [vm_compute; reflexivity|].
  destruct (X27_paint_does_not_fail_without_clear 220 300 drag_right_session)
    as [_ [draws Hdraws]].
  - unfold drag_right_session.
    repeat (apply List.Forall_cons; [exact I|]). apply List.Forall_nil.
  - exists draws. split; [exact Hdraws|].
    fold v in Hdraws. vm_compute in Hdraws. injection Hdraws as <-. reflexivity.
Defined.

(** The hypothesis of X27 is needed: [clear] empties the segments and
    keeps the hover index.  Two selections, the pointer over the second
    segment, a [clear] and one more selection leave a hover index that
    names no segment, and [paintEvent] raises. *)
Lemma stale_hover_after_clear :
  let none := Qt.mkModifiers false false false false in
  let up := Qt.mkButtons false false false in
  let imgs := [Qt.mkQSize 200 200] in
  let evs :=
    [ Session.ClipSelected imgs (mkSelectedRect 0 (1 # 2) 1 0 (1 # 2));
      Session.ClipSelected imgs (mkSelectedRect 0 0 (1 # 2) (1 # 2) 1);
      Session.MouseMove (Qt.mkMouseEvent (Qt.mkQPoint 50 150) Qt.NoButton up none);
      Session.Clear;
      Session.ClipSelected imgs (mkSelectedRect 0 (1 # 2) 1 0 (1 # 2)) ] in
  let v := Session.run (SegmentViewer.init 220 300) evs in
  SegmentViewer.hovered_segment_index v = Some 1%nat /\
  length (SegmentViewer.segments v) = 1%nat /\
  SegmentViewer.paintEvent v = Py.Err Py.IndexError.
Proof. vm_compute. repeat split. Qed.
